(** * The receive side of the DxWiFi link layer: libdxwifi/receiver.c

    A shallow embedding of the frame controller of [receiver.c] together with
    the properties its specification states about it.

    Conventions of the embedding.
    - Memory handed over by the capture library is a [list byte]; a C pointer
      into it is an offset.  Reading past the end of the list yields a zero
      byte.
    - The host is little endian (the code reads [it_len] and the address
      words without conversion), [int] and [unsigned] are 32 bits wide and
      [size_t] is 64 bits wide.  Signed 32-bit arithmetic wraps around in two's
      complement.
    - The sink is an append-only byte sequence; every [write] stores all the
      bytes it is given.
    - Logging is not part of the state. *)

From Stdlib Require Import ZArith List Bool Lia Permutation Sorted.
From Stdlib.Strings Require Import Byte.
Import ListNotations.
Local Open Scope Z_scope.

(** ** Bytes and machine integers *)

Definition byte_val (b : byte) : Z := Z.of_N (Byte.to_N b).

Definition wrap (width x : Z) : Z := x mod 2 ^ width.

(** Conversion to [int32_t]: the value modulo 2^32, read in two's complement. *)
Definition to_int32 (x : Z) : Z :=
  let y := wrap 32 x in if y <? 2 ^ 31 then y else y - 2 ^ 32.

Definition read8 (mem : list byte) (off : Z) : byte :=
  if off <? 0 then x00 else nth (Z.to_nat off) mem x00.

Definition read16_le (mem : list byte) (off : Z) : Z :=
  byte_val (read8 mem off) + 2 ^ 8 * byte_val (read8 mem (off + 1)).

Definition read32_le (mem : list byte) (off : Z) : Z :=
  byte_val (read8 mem off) + 2 ^ 8 * byte_val (read8 mem (off + 1))
  + 2 ^ 16 * byte_val (read8 mem (off + 2)) + 2 ^ 24 * byte_val (read8 mem (off + 3)).

(** [ntohl] applied to a 32-bit load on a little-endian host: the four bytes
    in network order. *)
Definition read32_be (mem : list byte) (off : Z) : Z :=
  2 ^ 24 * byte_val (read8 mem off) + 2 ^ 16 * byte_val (read8 mem (off + 1))
  + 2 ^ 8 * byte_val (read8 mem (off + 2)) + byte_val (read8 mem (off + 3)).

(** [len] bytes of [mem] starting at [off]. *)
Definition read_bytes (mem : list byte) (off : Z) (len : Z) : list byte :=
  map (fun i => read8 mem (off + Z.of_nat i)) (seq 0 (Z.to_nat len)).

(** ** Single precision arithmetic

    [check_frame_control] divides two counters in [float] and compares the
    quotient with the [float] nearest to the [double] constant 0.66.  A finite
    non-negative value is kept as the fraction it denotes; [round_to prec]
    rounds a positive fraction to the nearest value with [prec] significant
    bits, ties to even.  The exponent range is not modelled: the operands of
    the classifier are integers below 2^64 and their quotients. *)
Module Float.

Inductive fp : Type :=
| Fin (num den : Z)
| Inf
| NaN.

(** The exponent [e] with 2^e <= n/d < 2^(e+1), for positive [n] and [d]. *)
Definition exponent (n d : Z) : Z :=
  let e0 := Z.log2 n - Z.log2 d in
  let above := if 0 <=? e0 then d * 2 ^ e0 <=? n else d <=? n * 2 ^ (- e0) in
  if above then e0 else e0 - 1.

(** 2^z <= n/d and n/d < 2^z, for an exponent of either sign. *)
Definition pow2_le (z n d : Z) : Prop :=
  if 0 <=? z then d * 2 ^ z <= n else d <= n * 2 ^ (- z).

Definition pow2_gt (z n d : Z) : Prop :=
  if 0 <=? z then n < d * 2 ^ z else n * 2 ^ (- z) < d.

Definition round_to (prec n d : Z) : fp :=
  if n =? 0 then Fin 0 1 else
  let s := exponent n d - (prec - 1) in
  let num := if 0 <=? s then n else n * 2 ^ (- s) in
  let den := if 0 <=? s then d * 2 ^ s else d in
  let q := num / den in
  let r := num mod den in
  let m := if (den <? 2 * r) || ((den =? 2 * r) && Z.odd q) then q + 1 else q in
  if 0 <=? s then Fin (m * 2 ^ s) 1 else Fin m (2 ^ (- s)).

Definition single_of_int (z : Z) : fp := round_to 24 z 1.

Definition single_of_double (x : fp) : fp :=
  match x with
  | Fin n d => round_to 24 n d
  | other => other
  end.

Definition double_of_ratio (n d : Z) : fp := round_to 53 n d.

Definition div_single (a b : fp) : fp :=
  match a, b with
  | Fin n1 d1, Fin n2 d2 =>
      if n2 =? 0 then (if n1 =? 0 then NaN else Inf)
      else round_to 24 (n1 * d2) (d1 * n2)
  | Fin _ _, Inf => Fin 0 1
  | Inf, Fin _ _ => Inf
  | _, _ => NaN
  end.

Definition gt (a b : fp) : bool :=
  match a, b with
  | Fin n1 d1, Fin n2 d2 => n2 * d1 <? n1 * d2
  | Inf, Fin _ _ => true
  | _, _ => false
  end.

End Float.

(** ** Constants and helpers declared outside receiver.c

    [receiver.c] takes its sizes, the values of the control frame enumerators,
    the CRC routine and the radiotap decoder from headers and libraries; they
    are the fields of this class.  [DXWIFI_TESTS] says whether the file is
    compiled for offline replay, where captured frames carry no FCS. *)
Class dxwifi_build : Type := {
  DXWIFI_TX_PAYLOAD_SIZE : Z;
  DXWIFI_FRAME_CONTROL_SIZE : Z;
  PREAMBLE_value : byte;
  EOT_value : byte;
  DXWIFI_TESTS : bool;
  crc32 : list byte -> Z;
  dxwifi_rx_radiotap_hdr : Type;
  radiotap_zero : dxwifi_rx_radiotap_hdr;
  parse_radiotap_header : list byte -> Z -> dxwifi_rx_radiotap_hdr
}.

(** The IEEE 802.11 three-address MAC header ([ieee80211_hdr]): frame control
    and duration, two bytes each, then [addr1], [addr2], [addr3] and the
    sequence control field. *)
Definition sizeof_ieee80211_hdr : Z := 24.
Definition offsetof_addr1 : Z := 4.
Definition offsetof_addr2 : Z := 10.
Definition offsetof_addr3 : Z := 16.
Definition IEEE80211_FCS_SIZE : Z := 4.

(** [it_len] sits after [it_version] and [it_pad] in the radiotap header. *)
Definition offsetof_it_len : Z := 2.

(** Modelled from the spec: [hamming_dist32] of libdxwifi/dxwifi.h is not in
    the source; the glossary defines the Hamming distance as the bit-count
    difference between two equal-length bitstrings. *)
Fixpoint popcount (bits : nat) (x : Z) : Z :=
  match bits with
  | O => 0
  | S k => Z.b2z (Z.testbit x 0) + popcount k (Z.shiftr x 1)
  end.

Definition hamming_dist32 (a b : Z) : Z := popcount 32 (Z.lxor a b).

(** ** Captured frames *)

(** [struct pcap_pkthdr] together with the frame memory of one callback. *)
Record captured_frame : Type := {
  caplen : Z;
  len : Z;
  ts : Z;
  frame : list byte
}.

Inductive dxwifi_control_frame_t : Type :=
| DXWIFI_CONTROL_FRAME_UNKNOWN
| DXWIFI_CONTROL_FRAME_NONE
| DXWIFI_CONTROL_FRAME_PREAMBLE
| DXWIFI_CONTROL_FRAME_EOT.

Definition control_frame_eqb (a b : dxwifi_control_frame_t) : bool :=
  match a, b with
  | DXWIFI_CONTROL_FRAME_UNKNOWN, DXWIFI_CONTROL_FRAME_UNKNOWN
  | DXWIFI_CONTROL_FRAME_NONE, DXWIFI_CONTROL_FRAME_NONE
  | DXWIFI_CONTROL_FRAME_PREAMBLE, DXWIFI_CONTROL_FRAME_PREAMBLE
  | DXWIFI_CONTROL_FRAME_EOT, DXWIFI_CONTROL_FRAME_EOT => true
  | _, _ => false
  end.

Section Frames.
Context {build : dxwifi_build}.

Definition it_len (f : captured_frame) : Z := read16_le (frame f) offsetof_it_len.

(** Offsets of [mac_hdr], [payload] and [fcs] as [parse_rx_frame_fields]
    sets them. *)
Definition mac_hdr_off (f : captured_frame) : Z := it_len f.
Definition payload_off (f : captured_frame) : Z := it_len f + sizeof_ieee80211_hdr.
Definition fcs_off (f : captured_frame) : Z :=
  if DXWIFI_TESTS then caplen f else caplen f - IEEE80211_FCS_SIZE.

Definition payload (f : captured_frame) : list byte :=
  read_bytes (frame f) (payload_off f) DXWIFI_TX_PAYLOAD_SIZE.

(** [extract_frame_number]: the last four bytes of [addr1], in network order. *)
Definition extract_frame_number (f : captured_frame) : Z :=
  read32_be (frame f) (mac_hdr_off f + offsetof_addr1 + 2).

(** The [size_t payload_size] of [check_frame_control]: [caplen - it_len] is
    evaluated in 32 bits, the remaining subtractions in 64 bits. *)
Definition classifier_payload_size (f : captured_frame) : Z :=
  let u := wrap 32 (caplen f - it_len f) in
  let v := wrap 64 (u - sizeof_ieee80211_hdr) in
  if DXWIFI_TESTS then v else wrap 64 (v - IEEE80211_FCS_SIZE).

(** One turn of the counting loop: the [switch] on [payload[i]]. *)
Definition count_byte (acc : Z * Z) (b : byte) : Z * Z :=
  let '(preamble, eot) := acc in
  if Byte.eqb b PREAMBLE_value then (preamble + 1, eot)
  else if Byte.eqb b EOT_value then (preamble, eot + 1)
  else (preamble, eot).

Definition count_sentinels (f : captured_frame) : Z * Z :=
  fold_left count_byte (payload f) (0, 0).

Definition ratio_exceeds (count payload_size : Z) (check_threshold : Float.fp) : bool :=
  Float.gt (Float.div_single (Float.single_of_int count) (Float.single_of_int payload_size))
           check_threshold.

Definition check_frame_control (f : captured_frame) (check_threshold : Float.fp)
  : dxwifi_control_frame_t :=
  let payload_size := classifier_payload_size f in
  if payload_size =? DXWIFI_FRAME_CONTROL_SIZE then
    let '(preamble, eot) := count_sentinels f in
    if ratio_exceeds eot payload_size check_threshold then DXWIFI_CONTROL_FRAME_EOT
    else if ratio_exceeds preamble payload_size check_threshold
         then DXWIFI_CONTROL_FRAME_PREAMBLE
         else DXWIFI_CONTROL_FRAME_UNKNOWN
  else if negb (payload_size =? DXWIFI_TX_PAYLOAD_SIZE) then DXWIFI_CONTROL_FRAME_UNKNOWN
  else DXWIFI_CONTROL_FRAME_NONE.

(** The constant 0.66 of [process_frame], a [double], converted to the
    [float] parameter. *)
Definition check_threshold_066 : Float.fp :=
  Float.single_of_double (Float.double_of_ratio 66 100).

(** Distance of one address field: a 32-bit and a 16-bit load, two calls of
    [hamming_dist32], added in [uint32_t]. *)
Definition addr_dist (mem : list byte) (off : Z) (expected_address : list byte) : Z :=
  wrap 32 (hamming_dist32 (read32_le mem off) (read32_le expected_address 0)
           + hamming_dist32 (read16_le mem (off + 4)) (read16_le expected_address 4)).

Definition verify_sender (f : captured_frame) (expected_address : list byte)
           (threshold : Z) : bool :=
  let mac := mac_hdr_off f in
  let addr1_dist := addr_dist (frame f) (mac + offsetof_addr1) expected_address in
  let addr2_dist := addr_dist (frame f) (mac + offsetof_addr2) expected_address in
  let addr3_dist := addr_dist (frame f) (mac + offsetof_addr3) expected_address in
  (addr1_dist <? threshold) || (addr2_dist <? threshold) || (addr3_dist <? threshold).

End Frames.

(** ** The ordering heap *)

Record packet_heap_node : Type := {
  frame_number : Z;   (* int32_t *)
  data : Z;           (* offset of the payload in the packet buffer *)
  crc_valid : bool
}.

(** Modelled from the spec: libdxwifi/details/heap.h is not in the source.  The
    spec describes a min-heap of nodes keyed by frame number, ties broken by
    insertion order, whose [pop] hands out the least node and answers false
    when the heap is empty.  [tree] lists the live nodes in the order [pop]
    hands them out; [root_slot] is what the first slot of the preallocated
    array holds while no node is live.  The capacity is not modelled. *)
Record binary_heap : Type := {
  tree : list packet_heap_node;
  root_slot : packet_heap_node
}.

Fixpoint heap_insert (lt : packet_heap_node -> packet_heap_node -> bool)
         (n : packet_heap_node) (l : list packet_heap_node) : list packet_heap_node :=
  match l with
  | [] => [n]
  | m :: l' => if lt n m then n :: m :: l' else m :: heap_insert lt n l'
  end.

Definition init_heap (slot : packet_heap_node) : binary_heap :=
  {| tree := []; root_slot := slot |}.

Definition heap_push (lt : packet_heap_node -> packet_heap_node -> bool)
           (h : binary_heap) (n : packet_heap_node) : binary_heap :=
  {| tree := heap_insert lt n (tree h); root_slot := root_slot h |}.

Definition heap_pop (h : binary_heap) : option (packet_heap_node * binary_heap) :=
  match tree h with
  | [] => None
  | n :: l => Some (n, {| tree := l; root_slot := root_slot h |})
  end.

Definition heap_count (h : binary_heap) : nat := length (tree h).

(** The node stored in the first slot of the array. *)
Definition heap_root (h : binary_heap) : packet_heap_node :=
  match tree h with
  | [] => root_slot h
  | n :: _ => n
  end.

Definition order_by_frame_number_desc (lhs rhs : packet_heap_node) : bool :=
  frame_number lhs <? frame_number rhs.

(** ** The frame controller *)

Inductive dxwifi_rx_state_t : Type :=
| DXWIFI_RX_NORMAL
| DXWIFI_RX_TIMED_OUT
| DXWIFI_RX_ERROR
| DXWIFI_RX_DEACTIVATED.

(** The options of [dxwifi_receiver] that the frame controller reads. *)
Record dxwifi_receiver : Type := {
  packet_buffer_size : Z;
  max_hamming_dist : Z;
  ordered : bool;
  add_noise : bool;
  noise_value : byte;
  sender_addr : list byte
}.

(** Bytes [src] stored into [mem] from offset [off] on ([memcpy]); the length
    of [mem] does not change. *)
Definition write_bytes (mem : list byte) (off : Z) (src : list byte) : list byte :=
  map (fun i => let j := Z.of_nat i in
                if (off <=? j) && (j <? off + Z.of_nat (length src))
                then nth (Z.to_nat (j - off)) src x00
                else nth i mem x00)
      (seq 0 (length mem)).

Section Controller.
Context {build : dxwifi_build}.

(** [dxwifi_rx_stats].  The record is declared in receiver.h, which is not in
    the source: its counters are kept as integers without a width. *)
Record dxwifi_rx_stats : Type := {
  total_payload_size : Z;
  total_writelen : Z;
  total_caplen : Z;
  total_blocks_lost : Z;
  total_noise_added : Z;
  num_packets_processed : Z;
  bad_crcs : Z;
  packets_dropped : Z;
  capture_state : dxwifi_rx_state_t;
  pkt_stats : Z * Z * Z;            (* caplen, len, ts of the last data frame *)
  rtap : dxwifi_rx_radiotap_hdr
}.

Record frame_controller : Type := {
  packet_heap : binary_heap;
  packet_buffer : list byte;
  pb_size : Z;
  index : Z;
  eot_reached : bool;
  preamble_recv : bool;
  end_capture : bool;
  rx : dxwifi_receiver;
  rx_stats : dxwifi_rx_stats;
  fd : list byte                    (* what the sink has received so far *)
}.

Definition zero_stats : dxwifi_rx_stats :=
  {| total_payload_size := 0; total_writelen := 0; total_caplen := 0;
     total_blocks_lost := 0; total_noise_added := 0; num_packets_processed := 0;
     bad_crcs := 0; packets_dropped := 0; capture_state := DXWIFI_RX_NORMAL;
     pkt_stats := (0, 0, 0); rtap := radiotap_zero |}.

(** [init_frame_controller]; [slot] is the initial content of the heap's
    first slot. *)
Definition init_frame_controller (r : dxwifi_receiver) (slot : packet_heap_node)
  : frame_controller :=
  {| packet_heap := init_heap slot;
     packet_buffer := repeat x00 (Z.to_nat (packet_buffer_size r));
     pb_size := packet_buffer_size r;
     index := 0;
     eot_reached := false; preamble_recv := false; end_capture := false;
     rx := r; rx_stats := zero_stats; fd := [] |}.

Definition set_stats (fc : frame_controller) (s : dxwifi_rx_stats) : frame_controller :=
  {| packet_heap := packet_heap fc; packet_buffer := packet_buffer fc;
     pb_size := pb_size fc; index := index fc; eot_reached := eot_reached fc;
     preamble_recv := preamble_recv fc; end_capture := end_capture fc;
     rx := rx fc; rx_stats := s; fd := fd fc |}.

Definition set_flags (fc : frame_controller) (eot preamble stop : bool) : frame_controller :=
  {| packet_heap := packet_heap fc; packet_buffer := packet_buffer fc;
     pb_size := pb_size fc; index := index fc; eot_reached := eot;
     preamble_recv := preamble; end_capture := stop;
     rx := rx fc; rx_stats := rx_stats fc; fd := fd fc |}.

Definition set_index (fc : frame_controller) (i : Z) : frame_controller :=
  {| packet_heap := packet_heap fc; packet_buffer := packet_buffer fc;
     pb_size := pb_size fc; index := i; eot_reached := eot_reached fc;
     preamble_recv := preamble_recv fc; end_capture := end_capture fc;
     rx := rx fc; rx_stats := rx_stats fc; fd := fd fc |}.

Definition handle_frame_control (fc : frame_controller) (type : dxwifi_control_frame_t)
  : frame_controller :=
  match type with
  | DXWIFI_CONTROL_FRAME_PREAMBLE =>
      if 0 <? num_packets_processed (rx_stats fc)
      then set_flags fc (eot_reached fc) true true
      else set_flags fc (eot_reached fc) true (end_capture fc)
  | DXWIFI_CONTROL_FRAME_EOT =>
      set_flags fc true (preamble_recv fc) (end_capture fc)
  | _ => fc
  end.

(** What one turn of the loop of [dump_packet_buffer] does with the node it
    popped: noise and loss accounting in the gap branch, then the payload. *)
Definition dump_node (fc : frame_controller) (h' : binary_heap)
           (node : packet_heap_node) (expected_frame : Z) : frame_controller :=
  let s := rx_stats fc in
  let gap := ordered (rx fc) && negb (expected_frame =? frame_number node) in
  let missing_blocks := to_int32 (frame_number node - expected_frame) in
  let runs := if gap && add_noise (rx fc) then Z.to_nat missing_blocks else O in
  let noise := repeat (noise_value (rx fc)) (Z.to_nat DXWIFI_TX_PAYLOAD_SIZE) in
  let block := read_bytes (packet_buffer fc) (data node) DXWIFI_TX_PAYLOAD_SIZE in
  {| packet_heap := h'; packet_buffer := packet_buffer fc;
     pb_size := pb_size fc; index := index fc; eot_reached := eot_reached fc;
     preamble_recv := preamble_recv fc; end_capture := end_capture fc;
     rx := rx fc;
     rx_stats :=
       {| total_payload_size := total_payload_size s;
          total_writelen := total_writelen s + DXWIFI_TX_PAYLOAD_SIZE;
          total_caplen := total_caplen s;
          total_blocks_lost :=
            if gap then total_blocks_lost s + missing_blocks else total_blocks_lost s;
          total_noise_added :=
            total_noise_added s + Z.of_nat runs * DXWIFI_TX_PAYLOAD_SIZE;
          num_packets_processed := num_packets_processed s;
          bad_crcs := bad_crcs s; packets_dropped := packets_dropped s;
          capture_state := capture_state s; pkt_stats := pkt_stats s;
          rtap := rtap s |};
     fd := fd fc ++ concat (repeat noise runs) ++ block |}.

(** The [while (heap_pop(...))] loop; [fuel] bounds the number of turns. *)
Fixpoint dump_loop (fuel : nat) (fc : frame_controller) (expected_frame : Z)
  : frame_controller :=
  match fuel with
  | O => fc
  | S k =>
      match heap_pop (packet_heap fc) with
      | None => fc
      | Some (node, h') =>
          dump_loop k (dump_node fc h' node expected_frame)
                    (to_int32 (frame_number node + 1))
      end
  end.

Definition dump_packet_buffer (fc : frame_controller) : frame_controller :=
  let expected_frame := frame_number (heap_root (packet_heap fc)) in
  set_index (dump_loop (S (heap_count (packet_heap fc))) fc expected_frame) 0.

End Controller.

Section Capture.
Context {build : dxwifi_build}.

(** The [ssize_t payload_size] of [process_frame]: the distance between the
    [fcs] and [payload] pointers. *)
Definition data_payload_size (f : captured_frame) : Z := fcs_off f - payload_off f.

(** [crc == *rx_frame.fcs].  In receiver.c [fcs] and [payload] are set from
    the [uint8_t] frame pointer without a cast and are subtracted from each
    other, so [fcs] points to bytes and the right operand is the one byte
    stored there. *)
Definition frame_crc (f : captured_frame) : Z :=
  wrap 32 (crc32 (read_bytes (frame f) (mac_hdr_off f)
                             (DXWIFI_TX_PAYLOAD_SIZE + sizeof_ieee80211_hdr))).

Definition check_crc (f : captured_frame) : bool :=
  frame_crc f =? byte_val (read8 (frame f) (fcs_off f)).

Definition set_rtap (s : dxwifi_rx_stats) (r : dxwifi_rx_radiotap_hdr) : dxwifi_rx_stats :=
  {| total_payload_size := total_payload_size s; total_writelen := total_writelen s;
     total_caplen := total_caplen s; total_blocks_lost := total_blocks_lost s;
     total_noise_added := total_noise_added s;
     num_packets_processed := num_packets_processed s;
     bad_crcs := bad_crcs s; packets_dropped := packets_dropped s;
     capture_state := capture_state s; pkt_stats := pkt_stats s; rtap := r |}.

Definition set_capture_state (s : dxwifi_rx_stats) (c : dxwifi_rx_state_t) : dxwifi_rx_stats :=
  {| total_payload_size := total_payload_size s; total_writelen := total_writelen s;
     total_caplen := total_caplen s; total_blocks_lost := total_blocks_lost s;
     total_noise_added := total_noise_added s;
     num_packets_processed := num_packets_processed s;
     bad_crcs := bad_crcs s; packets_dropped := packets_dropped s;
     capture_state := c; pkt_stats := pkt_stats s; rtap := rtap s |}.

Definition count_drop (s : dxwifi_rx_stats) : dxwifi_rx_stats :=
  {| total_payload_size := total_payload_size s; total_writelen := total_writelen s;
     total_caplen := total_caplen s; total_blocks_lost := total_blocks_lost s;
     total_noise_added := total_noise_added s;
     num_packets_processed := num_packets_processed s;
     bad_crcs := bad_crcs s; packets_dropped := packets_dropped s + 1;
     capture_state := capture_state s; pkt_stats := pkt_stats s; rtap := rtap s |}.

(** The data path of [process_frame] behind the buffer-full test: copy the
    payload into the next slot, push its node, advance the index, count. *)
Definition stage_frame (fc : frame_controller) (f : captured_frame) : frame_controller :=
  let write_idx := index fc in
  let s := rx_stats fc in
  let number := to_int32 (if ordered (rx fc) then extract_frame_number f
                          else num_packets_processed s) in
  let valid := check_crc f in
  let node := {| frame_number := number; data := write_idx; crc_valid := valid |} in
  {| packet_heap := heap_push order_by_frame_number_desc (packet_heap fc) node;
     packet_buffer := write_bytes (packet_buffer fc) write_idx (payload f);
     pb_size := pb_size fc;
     index := wrap 64 (index fc + caplen f);
     eot_reached := eot_reached fc; preamble_recv := preamble_recv fc;
     end_capture := end_capture fc;
     rx := rx fc;
     rx_stats :=
       {| total_payload_size := total_payload_size s + data_payload_size f;
          total_writelen := total_writelen s;
          total_caplen := total_caplen s + caplen f;
          total_blocks_lost := total_blocks_lost s;
          total_noise_added := total_noise_added s;
          num_packets_processed := num_packets_processed s + 1;
          bad_crcs := bad_crcs s + (if negb valid then 0 else 1);
          packets_dropped := packets_dropped s;
          capture_state := capture_state s;
          pkt_stats := (caplen f, len f, ts f);
          rtap := rtap s |};
     fd := fd fc |}.

(** The data path from the buffer-full test on. *)
Definition append_frame (fc : frame_controller) (f : captured_frame) : frame_controller :=
  stage_frame (if pb_size fc <=? wrap 64 (index fc + DXWIFI_TX_PAYLOAD_SIZE)
               then dump_packet_buffer fc else fc) f.

Definition process_frame (fc : frame_controller) (f : captured_frame) : frame_controller :=
  if verify_sender f (sender_addr (rx fc)) (wrap 32 (max_hamming_dist (rx fc))) then
    match check_frame_control f check_threshold_066 with
    | DXWIFI_CONTROL_FRAME_UNKNOWN => fc
    | DXWIFI_CONTROL_FRAME_NONE =>
        let fc1 := set_stats fc (set_rtap (rx_stats fc)
                                          (parse_radiotap_header (frame f) (caplen f))) in
        if negb (data_payload_size f =? DXWIFI_TX_PAYLOAD_SIZE) then fc1
        else append_frame fc1 f
    | ctrl_frame => handle_frame_control fc ctrl_frame
    end
  else set_stats fc (count_drop (rx_stats fc)).

(** What one turn of the capture loop meets after [poll]: a timeout, an
    error, or readiness followed by a [pcap_dispatch] that hands [batch] to
    [process_frame] and returns [status].  [stopped] says that
    [receiver_stop_capture] cleared [__activated] in the meantime. *)
Inductive poll_outcome : Type :=
| PollTimeout
| PollError (stopped : bool)
| PollReady (batch : list captured_frame) (status : Z) (stopped : bool).

Definition with_state (fc : frame_controller) (c : dxwifi_rx_state_t) : frame_controller :=
  set_stats fc (set_capture_state (rx_stats fc) c).

(** The body of the loop; the first component is [rx->__activated]. *)
Definition capture_turn (ev : poll_outcome) (fc : frame_controller) : bool * frame_controller :=
  match ev with
  | PollTimeout => (false, with_state fc DXWIFI_RX_TIMED_OUT)
  | PollError stopped =>
      if stopped then (false, with_state fc DXWIFI_RX_DEACTIVATED)
      else (true, with_state fc DXWIFI_RX_ERROR)
  | PollReady batch status stopped =>
      let fc' := fold_left process_frame batch fc in
      if DXWIFI_TESTS && (status =? 0)
      then (false, with_state fc' DXWIFI_RX_DEACTIVATED)
      else (negb stopped, fc')
  end.

(** [while (rx->__activated && !fc.end_capture)]; [None] when the outcomes
    run out while the loop is still going. *)
Fixpoint capture_loop (evs : list poll_outcome) (activated : bool) (fc : frame_controller)
  : option frame_controller :=
  if activated && negb (end_capture fc) then
    match evs with
    | [] => None
    | ev :: rest =>
        let '(activated', fc') := capture_turn ev fc in
        capture_loop rest activated' fc'
    end
  else Some fc.

(** [receiver_activate_capture] up to the final flush; the result is the
    frame controller before teardown. *)
Definition receiver_activate_capture (r : dxwifi_receiver) (slot : packet_heap_node)
           (evs : list poll_outcome) : option frame_controller :=
  match capture_loop evs true (init_frame_controller r slot) with
  | Some fc => Some (dump_packet_buffer fc)
  | None => None
  end.

(** Frames handed to [process_frame] one after the other. *)
Definition run_frames (fc : frame_controller) (fs : list captured_frame) : frame_controller :=
  fold_left process_frame fs fc.

End Capture.

(** How often [b] occurs in [l]. *)
Definition occurrences (b : byte) (l : list byte) : Z :=
  Z.of_nat (length (filter (fun x => Byte.eqb x b) l)).

(** The Hamming distance of two byte strings, bit by bit. *)
Fixpoint hamming_bits (a b : list byte) : Z :=
  match a, b with
  | x :: a', y :: b' => popcount 8 (Z.lxor (byte_val x) (byte_val y)) + hamming_bits a' b'
  | _, _ => 0
  end.

(** ** The ordering the specification asks for

    A stable sort by an integer key: every element is inserted behind the
    elements whose key is not larger. *)
Section StableSort.
Context {A : Type} (key : A -> Z).

Fixpoint insert_by (x : A) (l : list A) : list A :=
  match l with
  | [] => [x]
  | y :: l' => if key x <? key y then x :: y :: l' else y :: insert_by x l'
  end.

Definition sort_by (l : list A) : list A :=
  fold_left (fun acc x => insert_by x acc) l [].

(** The elements of [l] whose key is [k], in the order of [l]. *)
Definition with_key (k : Z) (l : list A) : list A :=
  filter (fun x => key x =? k) l.

Definition ascending (l : list A) : Prop :=
  StronglySorted (fun a b => key a <= key b) l.

End StableSort.

(** ** The frame number of the specification

    The key of the ordering in the words of the specification
    (frame-number location): the frame starts with the radiotap header, whose
    length is the 16-bit little-endian number in its bytes 2 and 3; the MAC
    header follows, with the six bytes of [addr1] at its offset 4; the frame
    number is the big-endian 32-bit integer in bytes 2 to 5 of [addr1], kept
    in the heap node as a signed 32-bit number.  It is written on the bytes
    of the frame, with none of the loads of the code; a byte outside the
    frame counts as 0. *)
Definition byte_at (f : captured_frame) (i : nat) : Z :=
  Z.of_N (Byte.to_N (nth i (frame f) x00)).

Definition big_endian (bytes : list Z) : Z :=
  fold_left (fun acc b => 256 * acc + b) bytes 0.

Definition addr1_frame_number (f : captured_frame) : Z :=
  let radiotap_length := Z.to_nat (byte_at f 2 + 256 * byte_at f 3) in
  let addr1 := (radiotap_length + 4)%nat in
  let number := big_endian (map (byte_at f) [addr1 + 2; addr1 + 3; addr1 + 4; addr1 + 5]%nat) in
  if number <? 2147483648 then number else number - 4294967296.

Section Generations.
Context {build : dxwifi_build}.

(** Frames that pass the sender test and are classified as data. *)
Definition is_data_frame (r : dxwifi_receiver) (f : captured_frame) : bool :=
  verify_sender f (sender_addr r) (wrap 32 (max_hamming_dist r))
  && control_frame_eqb (check_frame_control f check_threshold_066) DXWIFI_CONTROL_FRAME_NONE.

(** The number a data frame carries in ordered mode, as [int32_t]. *)
Definition stamped_number (f : captured_frame) : Z := to_int32 (extract_frame_number f).

(** The flush generations of a sequence of data frames, following the spec:
    a frame that finds [write_index + payload_block_size >= packet_buffer_size]
    closes the generation and opens the next one at index 0; every frame
    advances the index by its [caplen]; the final flush closes the last
    generation. *)
Fixpoint generations (size idx : Z) (cur fs : list captured_frame)
  : list (list captured_frame) :=
  match fs with
  | [] => [cur]
  | f :: fs' =>
      if size <=? idx + DXWIFI_TX_PAYLOAD_SIZE
      then cur :: generations size (caplen f) [f] fs'
      else generations size (idx + caplen f) (cur ++ [f]) fs'
  end.

Definition payloads (fs : list captured_frame) : list byte :=
  concat (map payload fs).

(** What the flushes of the generations write, in ordered mode without noise. *)
Definition emitted (r : dxwifi_receiver) (idx : Z) (cur fs : list captured_frame) : list byte :=
  concat (map (fun g => payloads (sort_by stamped_number g))
              (generations (packet_buffer_size r) idx cur fs)).

(** The ordering property of the specification: [sink] is the concatenation,
    generation by generation, of the payloads of the data frames [fs], each
    generation sorted by ascending frame number, frames with the same number
    in the order of their arrival.  The frame number is the one of the
    specification, [addr1_frame_number], not the value the code extracts. *)
Definition ordered_output (r : dxwifi_receiver) (fs : list captured_frame)
           (sink : list byte) : Prop :=
  exists sorted : list (list captured_frame),
    Forall2 (fun g s => Permutation g s
                        /\ ascending addr1_frame_number s
                        /\ forall k, with_key addr1_frame_number k s
                                     = with_key addr1_frame_number k g)
            (generations (packet_buffer_size r) 0 [] fs) sorted
    /\ sink = concat (map payloads sorted).

(** The frames a turn of the capture loop hands to [process_frame]. *)
Definition batch_of (ev : poll_outcome) : list captured_frame :=
  match ev with
  | PollReady batch _ _ => batch
  | _ => []
  end.

(** The frames handed to [process_frame] until the capture loop exits. *)
Fixpoint dispatched (evs : list poll_outcome) (activated : bool) (fc : frame_controller)
  : list captured_frame :=
  if activated && negb (end_capture fc) then
    match evs with
    | [] => []
    | ev :: rest =>
        let '(activated', fc') := capture_turn ev fc in
        batch_of ev ++ dispatched rest activated' fc'
    end
  else [].

(** A data frame paired with the offset of its slot in the packet buffer. *)
Definition node_of (p : captured_frame * Z) : packet_heap_node :=
  {| frame_number := stamped_number (fst p); data := snd p; crc_valid := check_crc (fst p) |}.

(** The frame controller between two frames, in ordered mode: [staged]
    lists the frames of the running generation with their slots. *)
Definition staging_inv (r : dxwifi_receiver) (fc : frame_controller)
           (staged : list (captured_frame * Z)) : Prop :=
  rx fc = r
  /\ pb_size fc = packet_buffer_size r
  /\ length (packet_buffer fc) = Z.to_nat (packet_buffer_size r)
  /\ 0 <= index fc < 2 ^ 63 + 2 ^ 32
  /\ tree (packet_heap fc)
     = map node_of (sort_by (fun p => stamped_number (fst p)) staged)
  /\ Forall (fun p => 0 <= snd p /\ snd p + DXWIFI_TX_PAYLOAD_SIZE <= index fc
                      /\ snd p + DXWIFI_TX_PAYLOAD_SIZE <= packet_buffer_size r
                      /\ read_bytes (packet_buffer fc) (snd p) DXWIFI_TX_PAYLOAD_SIZE
                         = payload (fst p))
            staged.

(** Slots of the heap nodes: inside the buffer and below the write index. *)
Definition slots_inv (r : dxwifi_receiver) (fc : frame_controller) : Prop :=
  rx fc = r
  /\ pb_size fc = packet_buffer_size r
  /\ 0 <= index fc < 2 ^ 63 + 2 ^ 32
  /\ Forall (fun n => 0 <= data n /\ data n + DXWIFI_TX_PAYLOAD_SIZE <= index fc
                      /\ data n + DXWIFI_TX_PAYLOAD_SIZE <= packet_buffer_size r)
            (tree (packet_heap fc)).

(** Sizes for which the arithmetic of the data path does not wrap around. *)
Definition sane_sizes (r : dxwifi_receiver) : Prop :=
  0 < DXWIFI_TX_PAYLOAD_SIZE < 2 ^ 31
  /\ DXWIFI_TX_PAYLOAD_SIZE <= packet_buffer_size r < 2 ^ 63.

Definition sane_frame (f : captured_frame) : Prop := 0 <= caplen f < 2 ^ 32.

End Generations.

Section Views.
Context {build : dxwifi_build}.

(** Frames accepted by the sender test and classified as EOT. *)
Definition eot_frame (r : dxwifi_receiver) (f : captured_frame) : Prop :=
  verify_sender f (sender_addr r) (wrap 32 (max_hamming_dist r)) = true
  /\ check_frame_control f check_threshold_066 = DXWIFI_CONTROL_FRAME_EOT.

(** Nothing has been staged yet: no packet counted, heap and sink empty. *)
Definition nothing_staged (fc : frame_controller) : Prop :=
  0 <= num_packets_processed (rx_stats fc)
  /\ (num_packets_processed (rx_stats fc) = 0 ->
      tree (packet_heap fc) = [] /\ index fc = 0 /\ fd fc = []).

(** Frames that are not staged leave heap, buffer, index and sink alone. *)
Definition same_staging (fc fc' : frame_controller) : Prop :=
  packet_heap fc' = packet_heap fc /\ packet_buffer fc' = packet_buffer fc
  /\ pb_size fc' = pb_size fc /\ index fc' = index fc
  /\ rx fc' = rx fc /\ fd fc' = fd fc.

End Views.

(** ** Tallies and invariants of a capture *)

Section Tallies.
Context {build : dxwifi_build}.

(** Frames the sender test rejects. *)
Definition is_rejected (r : dxwifi_receiver) (f : captured_frame) : bool :=
  negb (verify_sender f (sender_addr r) (wrap 32 (max_hamming_dist r))).

Definition count_frames (p : captured_frame -> bool) (fs : list captured_frame) : Z :=
  Z.of_nat (length (filter p fs)).

Definition sum_caplen (fs : list captured_frame) : Z :=
  fold_right (fun f acc => caplen f + acc) 0 fs.

(** Bookkeeping the frame controller keeps between two frames: the staged
    nodes account for the index and for the payload not yet written, and the
    sink holds what the write counters say. *)
Definition accounting_inv (r : dxwifi_receiver) (fc : frame_controller) : Prop :=
  rx fc = r
  /\ pb_size fc = packet_buffer_size r
  /\ 0 <= index fc < 2 ^ 63 + 2 ^ 32
  /\ Z.of_nat (heap_count (packet_heap fc)) * DXWIFI_TX_PAYLOAD_SIZE <= index fc
  /\ Z.of_nat (heap_count (packet_heap fc)) * DXWIFI_TX_PAYLOAD_SIZE <= packet_buffer_size r
  /\ total_payload_size (rx_stats fc)
     = DXWIFI_TX_PAYLOAD_SIZE * num_packets_processed (rx_stats fc)
  /\ total_writelen (rx_stats fc)
     + DXWIFI_TX_PAYLOAD_SIZE * Z.of_nat (heap_count (packet_heap fc))
     = total_payload_size (rx_stats fc)
  /\ Z.of_nat (length (fd fc))
     = total_writelen (rx_stats fc) + total_noise_added (rx_stats fc)
  /\ 0 <= total_noise_added (rx_stats fc).

End Tallies.

Section Arrival.
Context {build : dxwifi_build}.

(** The frame controller between two frames, in unordered mode: [staged]
    lists the frames of the running generation with their slots, in the order
    of the heap; every node is numbered below the packet count. *)
Definition arrival_inv (r : dxwifi_receiver) (fc : frame_controller)
           (staged : list (captured_frame * Z)) : Prop :=
  rx fc = r
  /\ pb_size fc = packet_buffer_size r
  /\ length (packet_buffer fc) = Z.to_nat (packet_buffer_size r)
  /\ 0 <= index fc < 2 ^ 63 + 2 ^ 32
  /\ map data (tree (packet_heap fc)) = map snd staged
  /\ Forall (fun n => frame_number n < num_packets_processed (rx_stats fc))
            (tree (packet_heap fc))
  /\ 0 <= num_packets_processed (rx_stats fc)
  /\ Forall (fun p => 0 <= snd p /\ snd p + DXWIFI_TX_PAYLOAD_SIZE <= index fc
                      /\ snd p + DXWIFI_TX_PAYLOAD_SIZE <= packet_buffer_size r
                      /\ read_bytes (packet_buffer fc) (snd p) DXWIFI_TX_PAYLOAD_SIZE
                         = payload (fst p))
            staged.

End Arrival.

(** The [count] numbers from [first] on. *)
Fixpoint numbers_from (first : Z) (count : nat) : list Z :=
  match count with
  | O => []
  | S c => first :: numbers_from (first + 1) c
  end.

Section Gaps.
Context {build : dxwifi_build}.

(** The block of the frame numbered [k] among [nodes], a block of noise when
    there is none. *)
Definition block_for (fc : frame_controller) (nodes : list packet_heap_node) (k : Z)
  : list byte :=
  match find (fun n => frame_number n =? k) nodes with
  | Some n => read_bytes (packet_buffer fc) (data n) DXWIFI_TX_PAYLOAD_SIZE
  | None => repeat (noise_value (rx fc)) (Z.to_nat DXWIFI_TX_PAYLOAD_SIZE)
  end.

(** Heap nodes numbered in strictly ascending order, as [int32_t], all
    within 2^31 of [e]. *)
Definition numbered_from (e : Z) (nodes : list packet_heap_node) : Prop :=
  StronglySorted (fun a b => frame_number a < frame_number b) nodes
  /\ Forall (fun n => - 2 ^ 31 <= frame_number n < 2 ^ 31
                      /\ e <= frame_number n /\ frame_number n - e < 2 ^ 31) nodes.

End Gaps.

Section Delivery.
Context {build : dxwifi_build}.

(** The block of noise that [dump_packet_buffer] writes for a missing frame. *)
Definition noise_block (r : dxwifi_receiver) : list byte :=
  repeat (noise_value r) (Z.to_nat DXWIFI_TX_PAYLOAD_SIZE).

(** [sink] is made of whole blocks: the payload of every frame of [fs], each
    exactly once, in some order, and besides them [runs] blocks of noise. *)
Definition written_once (r : dxwifi_receiver) (fs : list captured_frame) (runs : nat)
           (sink : list byte) : Prop :=
  exists blocks : list (list byte),
    sink = concat blocks
    /\ Permutation blocks (map payload fs ++ repeat (noise_block r) runs).

(** The frame controller between two frames, in any mode: [flushed] are the
    data frames whose blocks are in the sink, [staged] the data frames in the
    heap with their slots, [runs] the blocks of noise written so far. *)
Definition delivery_inv (r : dxwifi_receiver) (fc : frame_controller)
           (flushed : list captured_frame) (staged : list (captured_frame * Z))
           (runs : nat) : Prop :=
  rx fc = r
  /\ pb_size fc = packet_buffer_size r
  /\ length (packet_buffer fc) = Z.to_nat (packet_buffer_size r)
  /\ 0 <= index fc < 2 ^ 63 + 2 ^ 32
  /\ Permutation (map data (tree (packet_heap fc))) (map snd staged)
  /\ Forall (fun p => 0 <= snd p /\ snd p + DXWIFI_TX_PAYLOAD_SIZE <= index fc
                      /\ snd p + DXWIFI_TX_PAYLOAD_SIZE <= packet_buffer_size r
                      /\ read_bytes (packet_buffer fc) (snd p) DXWIFI_TX_PAYLOAD_SIZE
                         = payload (fst p))
            staged
  /\ written_once r flushed runs (fd fc)
  /\ total_noise_added (rx_stats fc) = Z.of_nat runs * DXWIFI_TX_PAYLOAD_SIZE.

End Delivery.

(** When two terms are compared these are unfolded before the sender test
    and the classifier they call, whose bodies are large. *)
Strategy expand [is_data_frame process_frame].

(** ** A small build to run the model on

    Modelled from the spec: [crc32] of libdxwifi/details/crc32.h is not in the
    source; the spec calls it CRC-32, taken here as the CRC of IEEE 802.3
    that an 802.11 FCS holds (reflected polynomial EDB88320). *)
Fixpoint crc32_shift (n : nat) (c : Z) : Z :=
  match n with
  | O => c
  | S k => crc32_shift k (if Z.odd c then Z.lxor (Z.shiftr c 1) 3988292384
                          else Z.shiftr c 1)
  end.

Definition crc32_ieee (bytes : list byte) : Z :=
  Z.lxor (fold_left (fun c b => crc32_shift 8 (Z.lxor c (byte_val b))) bytes 4294967295)
         4294967295.

(** Payload blocks of sixteen bytes, control frames of eight; live capture. *)
Definition small_build : dxwifi_build :=
  {| DXWIFI_TX_PAYLOAD_SIZE := 16;
     DXWIFI_FRAME_CONTROL_SIZE := 8;
     PREAMBLE_value := xff;
     EOT_value := xaa;
     DXWIFI_TESTS := false;
     crc32 := crc32_ieee;
     dxwifi_rx_radiotap_hdr := unit;
     radiotap_zero := tt;
     parse_radiotap_header := fun _ _ => tt |}.

Definition oresat_addr : list byte := [xaa; xaa; xaa; xaa; xaa; xaa].

Definition be32_bytes (n : Z) : list byte :=
  map (fun k => match Byte.of_N (Z.to_N ((n / 2 ^ (8 * k)) mod 256)) with
                | Some b => b
                | None => x00
                end) [3; 2; 1; 0].

Definition le32_bytes (n : Z) : list byte := rev (be32_bytes n).

(** An eight byte radiotap header, the MAC header with the frame number
    stamped into [addr1] and the sender address in [addr2] and [addr3]. *)
Definition framing (number : Z) (sender : list byte) : list byte :=
  [x00; x00; x08; x00; x00; x00; x00; x00]
  ++ [x08; x00; x00; x00]
  ++ firstn 2 sender ++ be32_bytes number
  ++ sender ++ sender
  ++ [x00; x00].

Definition mk_frame (number : Z) (sender body fcs : list byte) : captured_frame :=
  let bytes := framing number sender ++ body ++ fcs in
  {| caplen := Z.of_nat (length bytes); len := Z.of_nat (length bytes); ts := 0;
     frame := bytes |}.

(** A data frame whose FCS holds the CRC-32 of MAC header and payload, least
    significant byte first. *)
Definition good_frame (number : Z) (body : list byte) : captured_frame :=
  mk_frame number oresat_addr body
           (le32_bytes (crc32_ieee (skipn 8 (framing number oresat_addr) ++ body))).

Definition small_rx (is_ordered noise : bool) (size : Z) : dxwifi_receiver :=
  {| packet_buffer_size := size; max_hamming_dist := 5; ordered := is_ordered;
     add_noise := noise; noise_value := xff; sender_addr := oresat_addr |}.

Definition blank_node : packet_heap_node :=
  {| frame_number := 0; data := 0; crc_valid := false |}.

Definition block (b : byte) : list byte := repeat b 16.

Definition no_fcs : list byte := [x00; x00; x00; x00].

Definition preamble_frame : captured_frame := mk_frame 0 oresat_addr (repeat xff 8) no_fcs.
Definition eot_control_frame : captured_frame := mk_frame 0 oresat_addr (repeat xaa 8) no_fcs.

(** A data frame from another sender: no address field is within five bits of
    the expected address. *)
Definition stranger_frame : captured_frame :=
  mk_frame 0 [x55; x55; x55; x55; x55; x55] (block x01) no_fcs.

(** A data frame whose FCS does not hold the CRC of the frame. *)
Definition wrong_fcs_frame : captured_frame := mk_frame 0 oresat_addr (block x01) no_fcs.

(** A capture of the given frames with the small build: every frame goes
    through [process_frame], then the buffer is flushed. *)
Definition small_capture (r : dxwifi_receiver) (fs : list captured_frame)
  : @frame_controller small_build :=
  @dump_packet_buffer small_build
    (@run_frames small_build (@init_frame_controller small_build r blank_node) fs).

(** A build whose control frames are twice as long as a payload block. *)
Definition long_control_build : dxwifi_build :=
  {| DXWIFI_TX_PAYLOAD_SIZE := 16;
     DXWIFI_FRAME_CONTROL_SIZE := 32;
     PREAMBLE_value := xff;
     EOT_value := xaa;
     DXWIFI_TESTS := false;
     crc32 := crc32_ieee;
     dxwifi_rx_radiotap_hdr := unit;
     radiotap_zero := tt;
     parse_radiotap_header := fun _ _ => tt |}.

(** A captured control frame with a payload of [size] bytes, in a capture
    buffer that holds the sentinel [b] in the [filled] bytes behind the MAC
    header; [caplen] covers the framing, the payload and four FCS bytes. *)
Definition sentinel_frame (b : byte) (size : Z) (filled : nat) : captured_frame :=
  {| caplen := 32 + size + 4; len := 32 + size + 4; ts := 0;
     frame := framing 0 oresat_addr ++ repeat b filled |}.

(** * Properties *)

(** ** Bytes and words *)

Lemma bool_cases (b : bool) : b = true \/ b = false.
Proof. destruct b; auto. Qed.

Lemma control_cases (t : dxwifi_control_frame_t) :
  t = DXWIFI_CONTROL_FRAME_UNKNOWN \/ t = DXWIFI_CONTROL_FRAME_NONE
  \/ t = DXWIFI_CONTROL_FRAME_PREAMBLE \/ t = DXWIFI_CONTROL_FRAME_EOT.
Proof. destruct t; auto. Qed.

Lemma byte_val_range (b : byte) : 0 <= byte_val b < 256.
Proof.
  unfold byte_val. pose proof (Byte.to_N_bounded b). lia.
Qed.

Lemma read16_le_range (mem : list byte) (off : Z) : 0 <= read16_le mem off < 2 ^ 16.
Proof.
  unfold read16_le.
  pose proof (byte_val_range (read8 mem off)).
  pose proof (byte_val_range (read8 mem (off + 1))).
  change (2 ^ 8) with 256. change (2 ^ 16) with 65536. lia.
Qed.

Lemma read32_be_range (mem : list byte) (off : Z) : 0 <= read32_be mem off < 2 ^ 32.
Proof.
  unfold read32_be.
  pose proof (byte_val_range (read8 mem off)).
  pose proof (byte_val_range (read8 mem (off + 1))).
  pose proof (byte_val_range (read8 mem (off + 2))).
  pose proof (byte_val_range (read8 mem (off + 3))).
  change (2 ^ 8) with 256. change (2 ^ 16) with 65536.
  change (2 ^ 24) with 16777216. change (2 ^ 32) with 4294967296. lia.
Qed.

Lemma read_bytes_length (mem : list byte) (off n : Z) :
  length (read_bytes mem off n) = Z.to_nat n.
Proof. unfold read_bytes. now rewrite length_map, length_seq. Qed.

Lemma to_int32_range (x : Z) : - 2 ^ 31 <= to_int32 x < 2 ^ 31.
Proof.
  unfold to_int32, wrap.
  pose proof (Z.mod_pos_bound x (2 ^ 32) ltac:(lia)).
  destruct (Z.ltb_spec (x mod 2 ^ 32) (2 ^ 31)); lia.
Qed.

Lemma to_int32_small (x : Z) : - 2 ^ 31 <= x < 2 ^ 31 -> to_int32 x = x.
Proof.
  intros H. unfold to_int32, wrap.
  change (2 ^ 32) with 4294967296 in *. change (2 ^ 31) with 2147483648 in *.
  destruct (Z.ltb_spec (x mod 4294967296) 2147483648);
    Z.to_euclidean_division_equations; lia.
Qed.

(** ** Sender verification *)

Lemma popcount_ext (n : nat) (x y : Z) :
  (forall i, 0 <= i < Z.of_nat n -> Z.testbit x i = Z.testbit y i) ->
  popcount n x = popcount n y.
Proof.
  revert x y. induction n as [|n IH]; intros x y H; cbn [popcount]; [reflexivity|].
  rewrite (H 0) by lia. f_equal. apply IH. intros i Hi.
  rewrite !Z.shiftr_spec by lia. apply H. lia.
Qed.

Lemma popcount_add (n m : nat) (x : Z) :
  popcount (n + m) x = popcount n x + popcount m (Z.shiftr x (Z.of_nat n)).
Proof.
  revert x. induction n as [|n IH]; intros x.
  - simpl. now rewrite Z.shiftr_0_r.
  - cbn [Nat.add popcount]. rewrite IH, Z.shiftr_shiftr by lia.
    replace (1 + Z.of_nat n) with (Z.of_nat (S n)) by lia. lia.
Qed.

Lemma popcount_range (n : nat) (x : Z) : 0 <= popcount n x <= Z.of_nat n.
Proof.
  revert x. induction n as [|n IH]; intros x; cbn [popcount]; [lia|].
  specialize (IH (Z.shiftr x 1)). destruct (Z.testbit x 0); simpl Z.b2z; lia.
Qed.

Lemma popcount_zero (n : nat) : popcount n 0 = 0.
Proof. induction n as [|n IH]; cbn [popcount]; [reflexivity|]. now rewrite Z.shiftr_0_l, IH. Qed.

(** Bit [i] of a word made of a low byte and the rest above it. *)
Lemma testbit_low_high (lo hi i : Z) :
  0 <= lo < 2 ^ 8 -> 0 <= i ->
  Z.testbit (lo + 2 ^ 8 * hi) i = if i <? 8 then Z.testbit lo i else Z.testbit hi (i - 8).
Proof.
  intros Hlo Hi. destruct (Z.ltb_spec i 8) as [Hlt|Hge].
  - transitivity (Z.testbit ((lo + 2 ^ 8 * hi) mod 2 ^ 8) i).
    + rewrite Z.testbit_mod_pow2 by lia.
      destruct (Z.ltb_spec i 8); [reflexivity|lia].
    + f_equal. rewrite Z.mul_comm, Z.mod_add by lia. apply Z.mod_small; lia.
  - replace i with ((i - 8) + 8) at 1 by lia.
    rewrite <- Z.div_pow2_bits by lia. f_equal.
    rewrite Z.mul_comm, Z.div_add by lia. rewrite Z.div_small by lia. lia.
Qed.

Lemma popcount_low_high (k : nat) (a e A E : Z) :
  0 <= a < 2 ^ 8 -> 0 <= e < 2 ^ 8 ->
  popcount (8 + k) (Z.lxor (a + 2 ^ 8 * A) (e + 2 ^ 8 * E))
  = popcount 8 (Z.lxor a e) + popcount k (Z.lxor A E).
Proof.
  intros Ha He. rewrite popcount_add. f_equal.
  - apply popcount_ext. intros i Hi.
    rewrite !Z.lxor_spec, !testbit_low_high by lia.
    destruct (Z.ltb_spec i 8); [reflexivity|lia].
  - apply popcount_ext. intros i Hi.
    rewrite Z.shiftr_spec by lia.
    rewrite !Z.lxor_spec, !testbit_low_high by lia.
    destruct (Z.ltb_spec (i + Z.of_nat 8) 8); [lia|].
    now replace (i + Z.of_nat 8 - 8) with i by lia.
Qed.

Lemma hamming_dist32_words (a0 a1 a2 a3 e0 e1 e2 e3 : byte) :
  hamming_dist32
    (byte_val a0 + 2 ^ 8 * byte_val a1 + 2 ^ 16 * byte_val a2 + 2 ^ 24 * byte_val a3)
    (byte_val e0 + 2 ^ 8 * byte_val e1 + 2 ^ 16 * byte_val e2 + 2 ^ 24 * byte_val e3)
  = hamming_bits [a0; a1; a2; a3] [e0; e1; e2; e3].
Proof.
  unfold hamming_dist32.
  pose proof (byte_val_range a0). pose proof (byte_val_range a1).
  pose proof (byte_val_range a2). pose proof (byte_val_range a3).
  pose proof (byte_val_range e0). pose proof (byte_val_range e1).
  pose proof (byte_val_range e2). pose proof (byte_val_range e3).
  replace (byte_val a0 + 2 ^ 8 * byte_val a1 + 2 ^ 16 * byte_val a2 + 2 ^ 24 * byte_val a3)
    with (byte_val a0 + 2 ^ 8 * (byte_val a1 + 2 ^ 8 * (byte_val a2 + 2 ^ 8 * (byte_val a3 + 2 ^ 8 * 0))))
    by (change (2 ^ 16) with (2 ^ 8 * 2 ^ 8); change (2 ^ 24) with (2 ^ 8 * (2 ^ 8 * 2 ^ 8)); ring).
  replace (byte_val e0 + 2 ^ 8 * byte_val e1 + 2 ^ 16 * byte_val e2 + 2 ^ 24 * byte_val e3)
    with (byte_val e0 + 2 ^ 8 * (byte_val e1 + 2 ^ 8 * (byte_val e2 + 2 ^ 8 * (byte_val e3 + 2 ^ 8 * 0))))
    by (change (2 ^ 16) with (2 ^ 8 * 2 ^ 8); change (2 ^ 24) with (2 ^ 8 * (2 ^ 8 * 2 ^ 8)); ring).
  change 32%nat with (8 + (8 + (8 + (8 + 0))))%nat.
  rewrite !popcount_low_high by (change (2 ^ 8) with 256; lia).
  cbn [hamming_bits popcount Nat.add]. lia.
Qed.

Lemma hamming_dist32_halves (a0 a1 e0 e1 : byte) :
  hamming_dist32 (byte_val a0 + 2 ^ 8 * byte_val a1) (byte_val e0 + 2 ^ 8 * byte_val e1)
  = hamming_bits [a0; a1] [e0; e1].
Proof.
  unfold hamming_dist32.
  pose proof (byte_val_range a0). pose proof (byte_val_range a1).
  pose proof (byte_val_range e0). pose proof (byte_val_range e1).
  replace (byte_val a0 + 2 ^ 8 * byte_val a1)
    with (byte_val a0 + 2 ^ 8 * (byte_val a1 + 2 ^ 8 * 0)) by ring.
  replace (byte_val e0 + 2 ^ 8 * byte_val e1)
    with (byte_val e0 + 2 ^ 8 * (byte_val e1 + 2 ^ 8 * 0)) by ring.
  change 32%nat with (8 + (8 + 16))%nat.
  rewrite !popcount_low_high by (change (2 ^ 8) with 256; lia).
  rewrite Z.lxor_0_l, popcount_zero. cbn [hamming_bits]. lia.
Qed.

Lemma hamming_bits_app (a a' b b' : list byte) :
  length a = length b ->
  hamming_bits (a ++ a') (b ++ b') = hamming_bits a b + hamming_bits a' b'.
Proof.
  revert b. induction a as [|x a IH]; intros [|y b] Hlen; simpl in *; try discriminate.
  - reflexivity.
  - rewrite IH by congruence. lia.
Qed.

Lemma hamming_bits_range (a b : list byte) :
  0 <= hamming_bits a b <= 8 * Z.of_nat (length a).
Proof.
  revert b. induction a as [|x a IH]; intros [|y b]; cbn [hamming_bits length]; try lia.
  specialize (IH b).
  pose proof (popcount_range 8 (Z.lxor (byte_val x) (byte_val y))). lia.
Qed.

Lemma read_bytes_6 (mem : list byte) (off : Z) :
  read_bytes mem off 6
  = [read8 mem off; read8 mem (off + 1); read8 mem (off + 2); read8 mem (off + 3)]
    ++ [read8 mem (off + 4); read8 mem (off + 4 + 1)].
Proof.
  unfold read_bytes. change (Z.to_nat 6) with 6%nat. cbn [seq map app].
  repeat match goal with
         | |- _ :: _ = _ :: _ => apply f_equal2; [apply f_equal; lia|]
         end.
  reflexivity.
Qed.

(** The distance [verify_sender] computes for an address field is the number
    of bits in which its six bytes differ from the expected address. *)
Lemma addr_dist_hamming (mem : list byte) (off : Z) (expected : list byte) :
  addr_dist mem off expected
  = hamming_bits (read_bytes mem off 6) (read_bytes expected 0 6).
Proof.
  unfold addr_dist. rewrite !read_bytes_6.
  rewrite hamming_bits_app by reflexivity.
  unfold read32_le, read16_le.
  rewrite hamming_dist32_words, hamming_dist32_halves.
  unfold wrap. apply Z.mod_small.
  pose proof (hamming_bits_range
                [read8 mem off; read8 mem (off + 1); read8 mem (off + 2); read8 mem (off + 3)]
                [read8 expected 0; read8 expected (0 + 1); read8 expected (0 + 2);
                 read8 expected (0 + 3)]) as H4.
  pose proof (hamming_bits_range
                [read8 mem (off + 4); read8 mem (off + 4 + 1)]
                [read8 expected (0 + 4); read8 expected (0 + 4 + 1)]) as H2.
  cbn [length] in H4, H2. change (2 ^ 32) with 4294967296. lia.
Qed.

Section SenderVerifier.
Context {build : dxwifi_build}.


End SenderVerifier.

(** ** Frames that are not staged *)

Section Rejection.
Context {build : dxwifi_build}.

Lemma it_len_range (f : captured_frame) : 0 <= it_len f < 2 ^ 16.
Proof. apply read16_le_range. Qed.

(** A frame classified as data has a payload of exactly one block, so the
    second size test of [process_frame] never fails. *)
Lemma none_payload_size (f : captured_frame) (thr : Float.fp) :
  0 < DXWIFI_TX_PAYLOAD_SIZE < 2 ^ 31 -> sane_frame f ->
  check_frame_control f thr = DXWIFI_CONTROL_FRAME_NONE ->
  data_payload_size f = DXWIFI_TX_PAYLOAD_SIZE.
Proof.
  intros HP Hf. unfold check_frame_control.
  destruct (Z.eqb_spec (classifier_payload_size f) DXWIFI_FRAME_CONTROL_SIZE) as [_|_].
  - destruct (count_sentinels f) as [p e].
    destruct (ratio_exceeds e _ thr); [discriminate|].
    destruct (ratio_exceeds p _ thr); discriminate.
  - destruct (Z.eqb_spec (classifier_payload_size f) DXWIFI_TX_PAYLOAD_SIZE) as [Heq|_];
      [|discriminate].
    intros _. revert Heq.
    unfold classifier_payload_size, data_payload_size, fcs_off, payload_off, wrap, sane_frame in *.
    pose proof (it_len_range f) as Hit.
    unfold sizeof_ieee80211_hdr, IEEE80211_FCS_SIZE.
    change (2 ^ 16) with 65536 in *. change (2 ^ 31) with 2147483648 in *.
    change (2 ^ 32) with 4294967296 in *. change (2 ^ 64) with 18446744073709551616.
    destruct DXWIFI_TESTS; intros Heq; Z.to_euclidean_division_equations; lia.
Qed.

(** C9: a frame rejected by sender address only increments [packets_dropped];
    a frame classified UNKNOWN, in particular every frame whose payload size
    is neither the block size nor the control size, leaves the frame
    controller as it is; and no frame reaches the size warning of the data
    path, because a frame classified as data has the block size. *)
Theorem process_frame_skips (fc : frame_controller) (f : captured_frame) :
  0 < DXWIFI_TX_PAYLOAD_SIZE < 2 ^ 31 -> sane_frame f ->
  let accepted := verify_sender f (sender_addr (rx fc)) (wrap 32 (max_hamming_dist (rx fc))) in
  (accepted = false ->
     process_frame fc f = set_stats fc (count_drop (rx_stats fc))
     /\ packets_dropped (rx_stats (process_frame fc f)) = packets_dropped (rx_stats fc) + 1)
  /\ (accepted = true ->
      check_frame_control f check_threshold_066 = DXWIFI_CONTROL_FRAME_UNKNOWN ->
      process_frame fc f = fc)
  /\ (accepted = true ->
      classifier_payload_size f <> DXWIFI_TX_PAYLOAD_SIZE ->
      classifier_payload_size f <> DXWIFI_FRAME_CONTROL_SIZE ->
      process_frame fc f = fc)
  /\ (check_frame_control f check_threshold_066 = DXWIFI_CONTROL_FRAME_NONE ->
      data_payload_size f = DXWIFI_TX_PAYLOAD_SIZE).
Proof.
  intros HP Hf accepted. repeat split.
  - unfold process_frame. fold accepted. now rewrite H.
  - unfold process_frame. fold accepted. now rewrite H.
  - intros Ha Hu. unfold process_frame. fold accepted. now rewrite Ha, Hu.
  - intros Ha H1 H2. unfold process_frame. fold accepted. rewrite Ha.
    unfold check_frame_control.
    destruct (Z.eqb_spec (classifier_payload_size f) DXWIFI_FRAME_CONTROL_SIZE); [contradiction|].
    destruct (Z.eqb_spec (classifier_payload_size f) DXWIFI_TX_PAYLOAD_SIZE); [contradiction|].
    reflexivity.
  - now apply none_payload_size.
Qed.

End Rejection.

(** ** Control frames and the capture loop *)

Section Control.
Context {build : dxwifi_build}.

Lemma capture_loop_ended (evs : list poll_outcome) (activated : bool) (fc : frame_controller) :
  end_capture fc = true -> capture_loop evs activated fc = Some fc.
Proof.
  intros H. destruct evs; cbn [capture_loop]; rewrite H, andb_false_r; reflexivity.
Qed.

Lemma run_frames_cons (fc : frame_controller) (f : captured_frame) (fs : list captured_frame) :
  run_frames fc (f :: fs) = run_frames (process_frame fc f) fs.
Proof. reflexivity. Qed.

Lemma process_frame_eot (fc : frame_controller) (f : captured_frame) :
  eot_frame (rx fc) f ->
  process_frame fc f = set_flags fc true (preamble_recv fc) (end_capture fc).
Proof.
  intros [Hv He]. unfold process_frame. rewrite Hv, He. reflexivity.
Qed.

Lemma set_flags_twice (fc : frame_controller) (a b c a' b' c' : bool) :
  set_flags (set_flags fc a b c) a' b' c' = set_flags fc a' b' c'.
Proof. reflexivity. Qed.

Lemma eot_batch (r : dxwifi_receiver) (batch : list captured_frame) :
  forall fc, rx fc = r ->
  Forall (eot_frame r) batch ->
  run_frames fc batch
  = match batch with
    | [] => fc
    | _ => set_flags fc true (preamble_recv fc) (end_capture fc)
    end.
Proof.
  induction batch as [|f batch IH]; intros fc Hr Hall; [reflexivity|].
  pose proof (Forall_inv Hall) as Hf. pose proof (Forall_inv_tail Hall) as Hrest.
  rewrite <- Hr in Hf.
  rewrite run_frames_cons, (process_frame_eot fc f Hf).
  rewrite (IH (set_flags fc true (preamble_recv fc) (end_capture fc)) Hr Hrest).
  destruct batch; [reflexivity|apply set_flags_twice].
Qed.

Lemma capture_loop_ready (batch : list captured_frame) (status : Z) (stopped : bool)
      (rest : list poll_outcome) (fc : frame_controller) :
  end_capture fc = false ->
  DXWIFI_TESTS && (status =? 0) = false ->
  capture_loop (PollReady batch status stopped :: rest) true fc
  = capture_loop rest (negb stopped) (run_frames fc batch).
Proof.
  intros Hend Hst. cbn [capture_loop]. rewrite Hend. cbn [andb negb].
  unfold capture_turn. rewrite Hst. reflexivity.
Qed.

(** C8: a PREAMBLE met when packets have been processed sets [end_capture],
    and the capture loop then exits whatever is still pending; a PREAMBLE
    met before any data only sets [preamble_recv], and a second one changes
    nothing more; an EOT sets [eot_reached] and leaves [end_capture] alone,
    so after a dispatch that delivers only EOT frames the loop goes on to
    its next turn. *)
Theorem control_frame_handling (fc : frame_controller) (f : captured_frame) :
  verify_sender f (sender_addr (rx fc)) (wrap 32 (max_hamming_dist (rx fc))) = true ->
  let fc' := process_frame fc f in
  (check_frame_control f check_threshold_066 = DXWIFI_CONTROL_FRAME_PREAMBLE ->
     (0 < num_packets_processed (rx_stats fc) ->
        fc' = set_flags fc (eot_reached fc) true true
        /\ forall evs activated, capture_loop evs activated fc' = Some fc')
     /\ (num_packets_processed (rx_stats fc) = 0 ->
         fc' = set_flags fc (eot_reached fc) true (end_capture fc)
         /\ process_frame fc' f = fc'))
  /\ (check_frame_control f check_threshold_066 = DXWIFI_CONTROL_FRAME_EOT ->
      fc' = set_flags fc true (preamble_recv fc) (end_capture fc)
      /\ forall batch status rest,
          Forall (eot_frame (rx fc)) batch ->
          end_capture fc = false ->
          DXWIFI_TESTS && (status =? 0) = false ->
          capture_loop (PollReady (f :: batch) status false :: rest) true fc
          = capture_loop rest true fc').
Proof.
  intros Hv fc'. subst fc'. split.
  - intros Hp. split.
    + intros Hn. assert (process_frame fc f = set_flags fc (eot_reached fc) true true) as E.
      { unfold process_frame. rewrite Hv, Hp. cbn [handle_frame_control].
        destruct (Z.ltb_spec 0 (num_packets_processed (rx_stats fc))); [reflexivity|lia]. }
      split; [exact E|]. intros evs activated. apply capture_loop_ended.
      rewrite E. reflexivity.
    + intros Hn.
      assert (process_frame fc f = set_flags fc (eot_reached fc) true (end_capture fc)) as E.
      { unfold process_frame. rewrite Hv, Hp. cbn [handle_frame_control].
        rewrite Hn. reflexivity. }
      split; [exact E|]. rewrite E. unfold process_frame.
      cbn [rx set_flags]. rewrite Hv, Hp. cbn [handle_frame_control rx_stats set_flags].
      rewrite Hn. reflexivity.
  - intros He.
    assert (process_frame fc f = set_flags fc true (preamble_recv fc) (end_capture fc)) as E.
    { unfold process_frame. rewrite Hv, He. reflexivity. }
    split; [exact E|]. intros batch status rest Hall Hend Hst.
    rewrite (capture_loop_ready _ _ _ _ _ Hend Hst), run_frames_cons, E.
    rewrite (eot_batch (rx fc) batch (set_flags fc true (preamble_recv fc) (end_capture fc))
                       eq_refl Hall).
    destruct batch; reflexivity.
Qed.

End Control.

(** ** Flushing the packet buffer *)

Section Flush.
Context {build : dxwifi_build}.

Lemma dump_loop_step (k : nat) (fc : frame_controller) (e : Z)
      (n : packet_heap_node) (l : list packet_heap_node) :
  tree (packet_heap fc) = n :: l ->
  dump_loop (S k) fc e
  = dump_loop k (dump_node fc {| tree := l; root_slot := root_slot (packet_heap fc) |} n e)
              (to_int32 (frame_number n + 1)).
Proof. intros H. cbn [dump_loop]. unfold heap_pop. rewrite H. reflexivity. Qed.

Lemma dump_loop_stop (k : nat) (fc : frame_controller) (e : Z) :
  tree (packet_heap fc) = [] -> dump_loop k fc e = fc.
Proof. intros H. destruct k; cbn [dump_loop]; [reflexivity|]. unfold heap_pop. now rewrite H. Qed.

(** The loop ends because [heap_pop] answers false, and leaves everything
    but the heap, the statistics and the sink as it was. *)
Lemma dump_loop_frame (k : nat) :
  forall fc e, (length (tree (packet_heap fc)) < S k)%nat ->
  let fc' := dump_loop (S k) fc e in
  tree (packet_heap fc') = []
  /\ root_slot (packet_heap fc') = root_slot (packet_heap fc)
  /\ packet_buffer fc' = packet_buffer fc /\ pb_size fc' = pb_size fc
  /\ index fc' = index fc /\ rx fc' = rx fc
  /\ eot_reached fc' = eot_reached fc /\ preamble_recv fc' = preamble_recv fc
  /\ end_capture fc' = end_capture fc
  /\ num_packets_processed (rx_stats fc') = num_packets_processed (rx_stats fc)
  /\ bad_crcs (rx_stats fc') = bad_crcs (rx_stats fc)
  /\ packets_dropped (rx_stats fc') = packets_dropped (rx_stats fc).
Proof.
  induction k as [|k IH]; intros fc e Hlen fc'; subst fc';
    destruct (tree (packet_heap fc)) as [|n l] eqn:Ht.
  - rewrite dump_loop_stop by exact Ht. now rewrite Ht.
  - simpl in Hlen. lia.
  - rewrite dump_loop_stop by exact Ht. now rewrite Ht.
  - rewrite (dump_loop_step _ _ _ _ _ Ht).
    match goal with |- context [dump_loop (S k) ?x ?y] =>
      specialize (IH x y); cbv zeta in IH end.
    cbn [dump_node packet_heap tree root_slot packet_buffer pb_size index rx eot_reached
         preamble_recv end_capture rx_stats num_packets_processed bad_crcs packets_dropped]
      in IH.
    apply IH. simpl in Hlen. lia.
Qed.

Lemma dump_packet_buffer_empty (fc : frame_controller) :
  tree (packet_heap fc) = [] -> dump_packet_buffer fc = set_index fc 0.
Proof. intros H. unfold dump_packet_buffer. now rewrite dump_loop_stop. Qed.

Lemma nothing_staged_append (fc : frame_controller) (f : captured_frame) :
  0 <= num_packets_processed (rx_stats fc) -> nothing_staged (append_frame fc f).
Proof.
  intros H. unfold nothing_staged.
  assert (num_packets_processed (rx_stats (append_frame fc f))
          = num_packets_processed (rx_stats fc) + 1) as E.
  { unfold append_frame, stage_frame. cbn [rx_stats num_packets_processed].
    destruct (pb_size fc <=? wrap 64 (index fc + DXWIFI_TX_PAYLOAD_SIZE)); [|reflexivity].
    unfold dump_packet_buffer. cbn [set_index rx_stats].
    now rewrite (proj1 (proj2 (proj2 (proj2 (proj2 (proj2 (proj2 (proj2 (proj2 (proj2
           (dump_loop_frame _ fc _ (Nat.lt_succ_diag_r _)))))))))))). }
  rewrite E. split; [lia|]. intros; lia.
Qed.

Lemma nothing_staged_process (fc : frame_controller) (f : captured_frame) :
  nothing_staged fc -> nothing_staged (process_frame fc f).
Proof.
  intros Hq. unfold process_frame.
  destruct (verify_sender f _ _); [|exact Hq].
  destruct (check_frame_control f check_threshold_066); try exact Hq.
  - destruct (negb _); [exact Hq|].
    apply nothing_staged_append. apply Hq.
  - cbn [handle_frame_control]. destruct (0 <? _); exact Hq.
Qed.

Lemma nothing_staged_run (fs : list captured_frame) :
  forall fc, nothing_staged fc -> nothing_staged (run_frames fc fs).
Proof.
  induction fs as [|f fs IH]; intros fc Hq; [exact Hq|].
  rewrite run_frames_cons. apply IH, nothing_staged_process, Hq.
Qed.

Lemma nothing_staged_loop (evs : list poll_outcome) :
  forall activated fc fc', nothing_staged fc ->
  capture_loop evs activated fc = Some fc' -> nothing_staged fc'.
Proof.
  induction evs as [|ev evs IH]; intros activated fc fc' Hq; cbn [capture_loop];
    destruct (activated && negb (end_capture fc)); try discriminate;
    try (intros E; injection E as <-; exact Hq).
  destruct (capture_turn ev fc) as [a fc1] eqn:Hturn. apply IH.
  destruct ev as [|stopped|batch status stopped]; cbn [capture_turn] in Hturn.
  - injection Hturn as <- <-. exact Hq.
  - destruct stopped; injection Hturn as <- <-; exact Hq.
  - pose proof (nothing_staged_run batch fc Hq) as Hr.
    fold (run_frames fc batch) in Hturn.
    destruct (DXWIFI_TESTS && (status =? 0)); injection Hturn as <- <-; exact Hr.
Qed.

(** C10: the flush after the capture loop is unconditional; on an empty heap
    it only stores 0 into the write index, whatever the heap's first slot
    holds, and when no data frame was staged during the capture the frame
    controller and the sink stay as the loop left them. *)
Theorem final_flush_of_empty_heap (r : dxwifi_receiver) (slot : packet_heap_node)
        (evs : list poll_outcome) (fc : frame_controller) :
  capture_loop evs true (init_frame_controller r slot) = Some fc ->
  receiver_activate_capture r slot evs = Some (dump_packet_buffer fc)
  /\ (tree (packet_heap fc) = [] -> dump_packet_buffer fc = set_index fc 0)
  /\ (num_packets_processed (rx_stats fc) = 0 ->
      dump_packet_buffer fc = fc /\ fd fc = [] /\ index fc = 0).
Proof.
  intros Hloop. split; [|split].
  - unfold receiver_activate_capture. now rewrite Hloop.
  - apply dump_packet_buffer_empty.
  - intros Hn.
    assert (nothing_staged (init_frame_controller r slot)) as Hq0.
    { split; [cbn; lia|]. intros _. repeat split. }
    destruct (nothing_staged_loop _ _ _ _ Hq0 Hloop) as [_ Hq].
    destruct (Hq Hn) as (Ht & Hi & Hfd).
    rewrite (dump_packet_buffer_empty _ Ht). repeat split; try assumption.
    destruct fc; cbn in *; subst; reflexivity.
Qed.

End Flush.

(** ** Stable sorting by insertion *)

Section StableSortFacts.
Context {A : Type} (key : A -> Z).

Lemma sort_by_snoc (l : list A) (x : A) :
  sort_by key (l ++ [x]) = insert_by key x (sort_by key l).
Proof. unfold sort_by. now rewrite fold_left_app. Qed.

Lemma insert_by_perm (x : A) (l : list A) : Permutation (x :: l) (insert_by key x l).
Proof.
  induction l as [|y l IH]; cbn [insert_by]; [reflexivity|].
  destruct (key x <? key y); [reflexivity|].
  rewrite perm_swap. now constructor.
Qed.

Lemma sort_by_perm (l : list A) : Permutation l (sort_by key l).
Proof.
  induction l as [|x l IH] using rev_ind; [reflexivity|].
  rewrite sort_by_snoc, <- insert_by_perm, <- IH.
  symmetry. apply Permutation_cons_append.
Qed.

Lemma insert_by_ascending (x : A) (l : list A) :
  ascending key l -> ascending key (insert_by key x l).
Proof.
  unfold ascending. induction l as [|y l IH]; intros Hs; cbn [insert_by].
  - constructor; constructor.
  - inversion Hs as [|? ? Hl Hy]; subst.
    destruct (Z.ltb_spec (key x) (key y)) as [Hlt|Hge].
    + constructor; [exact Hs|]. constructor; [lia|].
      eapply Forall_impl; [|exact Hy]. cbv beta. intros; lia.
    + constructor; [now apply IH|].
      eapply Permutation_Forall; [apply insert_by_perm|].
      constructor; [lia|exact Hy].
Qed.

Lemma sort_by_ascending (l : list A) : ascending key (sort_by key l).
Proof.
  induction l as [|x l IH] using rev_ind; [constructor|].
  rewrite sort_by_snoc. now apply insert_by_ascending.
Qed.

Lemma with_key_above (k : Z) (l : list A) :
  Forall (fun y => k < key y) l -> with_key key k l = [].
Proof.
  induction 1 as [|y l Hy _ IH]; [reflexivity|].
  unfold with_key in *. cbn [filter]. destruct (Z.eqb_spec (key y) k); [lia|exact IH].
Qed.

Lemma with_key_insert (k : Z) (x : A) (l : list A) :
  ascending key l ->
  with_key key k (insert_by key x l)
  = with_key key k l ++ (if key x =? k then [x] else []).
Proof.
  unfold ascending. induction l as [|y l IH]; intros Hs; cbn [insert_by].
  - unfold with_key. cbn [filter]. now destruct (key x =? k).
  - inversion Hs as [|? ? Hl Hy]; subst.
    destruct (Z.ltb_spec (key x) (key y)) as [Hlt|Hge].
    + destruct (Z.eqb_spec (key x) k) as [Hk|Hk].
      * rewrite (with_key_above k (y :: l)).
        -- unfold with_key. cbn [filter].
           destruct (Z.eqb_spec (key x) k); [|contradiction].
           destruct (Z.eqb_spec (key y) k); [lia|].
           fold (with_key key k l). rewrite with_key_above; [reflexivity|].
           eapply Forall_impl; [|exact Hy]. cbv beta. intros; lia.
        -- constructor; [lia|]. eapply Forall_impl; [|exact Hy]. cbv beta. intros; lia.
      * rewrite app_nil_r. unfold with_key at 1. cbn [filter].
        destruct (Z.eqb_spec (key x) k); [contradiction|reflexivity].
    + unfold with_key in *. cbn [filter]. rewrite (IH Hl).
      destruct (key y =? k); reflexivity.
Qed.

Lemma with_key_snoc (k : Z) (x : A) (l : list A) :
  with_key key k (l ++ [x]) = with_key key k l ++ (if key x =? k then [x] else []).
Proof. unfold with_key. rewrite filter_app. cbn [filter]. now destruct (key x =? k). Qed.

(** Elements with the same key leave the sort in the order they came. *)
Lemma sort_by_stable (k : Z) (l : list A) :
  with_key key k (sort_by key l) = with_key key k l.
Proof.
  induction l as [|x l IH] using rev_ind; [reflexivity|].
  rewrite sort_by_snoc, with_key_insert by apply sort_by_ascending.
  now rewrite IH, with_key_snoc.
Qed.

End StableSortFacts.

Lemma insert_by_map {A B : Type} (keyA : A -> Z) (keyB : B -> Z) (g : A -> B) (x : A) (l : list A) :
  (forall y, keyB (g y) = keyA y) ->
  map g (insert_by keyA x l) = insert_by keyB (g x) (map g l).
Proof.
  intros Hk. induction l as [|y l IH]; cbn [insert_by map]; [reflexivity|].
  rewrite !Hk. destruct (keyA x <? keyA y); cbn [map]; [reflexivity|]. now rewrite IH.
Qed.

Lemma sort_by_map {A B : Type} (keyA : A -> Z) (keyB : B -> Z) (g : A -> B) (l : list A) :
  (forall y, keyB (g y) = keyA y) ->
  map g (sort_by keyA l) = sort_by keyB (map g l).
Proof.
  intros Hk. induction l as [|x l IH] using rev_ind; [reflexivity|].
  rewrite map_app. cbn [map]. rewrite !sort_by_snoc, <- IH. now apply insert_by_map.
Qed.

Lemma heap_insert_insert_by (n : packet_heap_node) (l : list packet_heap_node) :
  heap_insert order_by_frame_number_desc n l = insert_by frame_number n l.
Proof.
  induction l as [|m l IH]; cbn [heap_insert insert_by]; [reflexivity|].
  unfold order_by_frame_number_desc at 1. now rewrite IH.
Qed.

(** ** The packet buffer *)

Lemma nth_map_seq {B : Type} (g : nat -> B) (n i : nat) (d : B) :
  (i < n)%nat -> nth i (map g (seq 0 n)) d = g i.
Proof.
  intros Hi. rewrite (nth_indep _ d (g 0%nat)) by (rewrite length_map, length_seq; lia).
  rewrite (map_nth g (seq 0 n) 0%nat i). now rewrite seq_nth.
Qed.

Lemma write_bytes_length (mem : list byte) (off : Z) (src : list byte) :
  length (write_bytes mem off src) = length mem.
Proof. unfold write_bytes. now rewrite length_map, length_seq. Qed.

Lemma read8_write_bytes (mem : list byte) (off : Z) (src : list byte) (j : Z) :
  0 <= j < Z.of_nat (length mem) ->
  read8 (write_bytes mem off src) j
  = if (off <=? j) && (j <? off + Z.of_nat (length src))
    then read8 src (j - off) else read8 mem j.
Proof.
  intros Hj. unfold read8 at 1, write_bytes.
  destruct (Z.ltb_spec j 0); [lia|].
  rewrite nth_map_seq by lia. cbv zeta.
  rewrite Z2Nat.id by lia.
  destruct ((off <=? j) && (j <? off + Z.of_nat (length src))) eqn:Hin.
  - unfold read8. apply andb_true_iff in Hin as [H1 _]. apply Z.leb_le in H1.
    destruct (Z.ltb_spec (j - off) 0); [lia|reflexivity].
  - unfold read8. destruct (Z.ltb_spec j 0); [lia|reflexivity].
Qed.

Lemma read_bytes_ext (mem mem' : list byte) (off n : Z) :
  (forall j, off <= j < off + n -> read8 mem j = read8 mem' j) ->
  read_bytes mem off n = read_bytes mem' off n.
Proof.
  intros H. unfold read_bytes. apply map_ext_in. intros i Hi.
  apply in_seq in Hi. apply H. lia.
Qed.

(** Reading a block back from the slot it was copied to. *)
Lemma read_bytes_written (mem : list byte) (off : Z) (src : list byte) :
  0 <= off -> off + Z.of_nat (length src) <= Z.of_nat (length mem) ->
  read_bytes (write_bytes mem off src) off (Z.of_nat (length src)) = src.
Proof.
  intros Hoff Hfit. unfold read_bytes. rewrite Nat2Z.id.
  apply nth_ext with (d := x00) (d' := x00).
  - now rewrite length_map, length_seq.
  - intros i Hi. rewrite length_map, length_seq in Hi.
    rewrite nth_map_seq by lia.
    rewrite read8_write_bytes by lia.
    destruct (Z.leb_spec off (off + Z.of_nat i)); [|lia].
    destruct (Z.ltb_spec (off + Z.of_nat i) (off + Z.of_nat (length src))); [|lia].
    cbn [andb]. unfold read8. destruct (Z.ltb_spec (off + Z.of_nat i - off) 0); [lia|].
    f_equal. lia.
Qed.

(** A copy into a slot leaves the blocks below it alone. *)
Lemma read_bytes_below (mem : list byte) (off : Z) (src : list byte) (o n : Z) :
  0 <= o -> o + n <= off -> off <= Z.of_nat (length mem) ->
  read_bytes (write_bytes mem off src) o n = read_bytes mem o n.
Proof.
  intros Ho Hbelow Hfit. apply read_bytes_ext. intros j Hj.
  rewrite read8_write_bytes by lia.
  destruct (Z.leb_spec off j); [lia|reflexivity].
Qed.

(** ** Ordered output *)

Section Ordering.
Context {build : dxwifi_build}.

Lemma dump_node_quiet (fc : frame_controller) (h' : binary_heap)
      (n : packet_heap_node) (e : Z) :
  add_noise (rx fc) = false ->
  fd (dump_node fc h' n e)
  = fd fc ++ read_bytes (packet_buffer fc) (data n) DXWIFI_TX_PAYLOAD_SIZE.
Proof.
  intros Hn. unfold dump_node. cbn [fd]. rewrite Hn, andb_false_r. reflexivity.
Qed.

(** Without noise a flush writes the blocks of the heap nodes, in the order
    the heap hands them out. *)
Lemma dump_loop_quiet (k : nat) :
  forall fc e, add_noise (rx fc) = false ->
  (length (tree (packet_heap fc)) < S k)%nat ->
  fd (dump_loop (S k) fc e)
  = fd fc ++ concat (map (fun n => read_bytes (packet_buffer fc) (data n) DXWIFI_TX_PAYLOAD_SIZE)
                         (tree (packet_heap fc))).
Proof.
  induction k as [|k IH]; intros fc e Hn Hlen;
    destruct (tree (packet_heap fc)) as [|n l] eqn:Ht.
  - rewrite dump_loop_stop by exact Ht. cbn [map concat]. now rewrite app_nil_r.
  - simpl in Hlen. lia.
  - rewrite dump_loop_stop by exact Ht. cbn [map concat]. now rewrite app_nil_r.
  - rewrite (dump_loop_step _ _ _ _ _ Ht).
    rewrite IH.
    + rewrite dump_node_quiet by exact Hn. cbn [map concat].
      rewrite <- app_assoc. reflexivity.
    + exact Hn.
    + cbn [dump_node packet_heap tree]. simpl in Hlen. lia.
Qed.

Lemma dump_packet_buffer_quiet (fc : frame_controller) :
  add_noise (rx fc) = false ->
  fd (dump_packet_buffer fc)
  = fd fc ++ concat (map (fun n => read_bytes (packet_buffer fc) (data n) DXWIFI_TX_PAYLOAD_SIZE)
                         (tree (packet_heap fc))).
Proof.
  intros Hn. unfold dump_packet_buffer. cbn [set_index fd].
  apply dump_loop_quiet; [exact Hn|]. unfold heap_count. lia.
Qed.

Lemma dump_packet_buffer_frame (fc : frame_controller) :
  tree (packet_heap (dump_packet_buffer fc)) = []
  /\ packet_buffer (dump_packet_buffer fc) = packet_buffer fc
  /\ pb_size (dump_packet_buffer fc) = pb_size fc
  /\ index (dump_packet_buffer fc) = 0
  /\ rx (dump_packet_buffer fc) = rx fc.
Proof.
  unfold dump_packet_buffer. cbn [set_index packet_heap packet_buffer pb_size index rx].
  pose proof (dump_loop_frame (heap_count (packet_heap fc)) fc
                (frame_number (heap_root (packet_heap fc))) (Nat.lt_succ_diag_r _)) as H.
  cbv zeta in H. intuition.
Qed.

Lemma payload_length (f : captured_frame) :
  0 < DXWIFI_TX_PAYLOAD_SIZE -> Z.of_nat (length (payload f)) = DXWIFI_TX_PAYLOAD_SIZE.
Proof. intros H. unfold payload. rewrite read_bytes_length. lia. Qed.

(** The blocks a flush writes are the payloads of the staged frames, sorted. *)
Lemma staged_blocks (r : dxwifi_receiver) (fc : frame_controller)
      (staged : list (captured_frame * Z)) :
  staging_inv r fc staged ->
  concat (map (fun n => read_bytes (packet_buffer fc) (data n) DXWIFI_TX_PAYLOAD_SIZE)
              (tree (packet_heap fc)))
  = payloads (sort_by stamped_number (map fst staged)).
Proof.
  intros (_ & _ & _ & _ & Ht & Hall). rewrite Ht. unfold payloads.
  rewrite <- (sort_by_map (fun p => stamped_number (fst p)) stamped_number fst)
    by reflexivity.
  rewrite !map_map. f_equal. apply map_ext_in. intros p Hp.
  cbn [node_of data].
  assert (In p staged) as Hin.
  { eapply Permutation_in; [symmetry; apply sort_by_perm|exact Hp]. }
  rewrite Forall_forall in Hall. apply (Hall p Hin).
Qed.

Lemma dump_packet_buffer_inv (r : dxwifi_receiver) (fc : frame_controller)
      (staged : list (captured_frame * Z)) :
  add_noise r = false ->
  staging_inv r fc staged ->
  staging_inv r (dump_packet_buffer fc) []
  /\ fd (dump_packet_buffer fc)
     = fd fc ++ payloads (sort_by stamped_number (map fst staged)).
Proof.
  intros Hn Hinv. pose proof (staged_blocks r fc staged Hinv) as Hb.
  destruct Hinv as (Hr & Hs & Hl & Hi & Ht & Hall).
  destruct (dump_packet_buffer_frame fc) as (Dt & Db & Ds & Di & Dr).
  split.
  - unfold staging_inv. rewrite Dt, Db, Ds, Di, Dr.
    repeat split; try assumption; try lia. constructor.
  - rewrite dump_packet_buffer_quiet by (rewrite Hr; exact Hn). now rewrite Hb.
Qed.

(** Staging a data frame whose slot fits into the buffer. *)
Lemma stage_frame_inv (r : dxwifi_receiver) (fc : frame_controller)
      (staged : list (captured_frame * Z)) (f : captured_frame) :
  ordered r = true -> 0 < DXWIFI_TX_PAYLOAD_SIZE ->
  sane_frame f -> data_payload_size f = DXWIFI_TX_PAYLOAD_SIZE ->
  index fc + DXWIFI_TX_PAYLOAD_SIZE <= packet_buffer_size r ->
  packet_buffer_size r < 2 ^ 63 ->
  staging_inv r fc staged ->
  staging_inv r (stage_frame fc f) (staged ++ [(f, index fc)])
  /\ fd (stage_frame fc f) = fd fc
  /\ index (stage_frame fc f) = index fc + caplen f.
Proof.
  intros Hord HP Hf Hsize Hfit Hmax (Hr & Hs & Hl & Hi & Ht & Hall).
  assert (DXWIFI_TX_PAYLOAD_SIZE <= caplen f) as Hcap.
  { revert Hsize. unfold data_payload_size, fcs_off, payload_off.
    pose proof (it_len_range f). unfold sizeof_ieee80211_hdr, IEEE80211_FCS_SIZE.
    destruct DXWIFI_TESTS; lia. }
  assert (wrap 64 (index fc + caplen f) = index fc + caplen f) as Hw.
  { unfold wrap. apply Z.mod_small. unfold sane_frame in Hf.
    change (2 ^ 63) with 9223372036854775808 in *.
    change (2 ^ 32) with 4294967296 in *.
    change (2 ^ 64) with 18446744073709551616. lia. }
  unfold stage_frame. cbn [fd index]. rewrite Hw. split; [|split; reflexivity].
  unfold staging_inv.
  cbn [rx pb_size packet_buffer index packet_heap heap_push tree].
  rewrite write_bytes_length.
  split; [exact Hr|]. split; [exact Hs|]. split; [exact Hl|].
  split; [unfold sane_frame in Hf; change (2 ^ 63) with 9223372036854775808 in *; lia|].
  split.
  - rewrite heap_insert_insert_by, Ht, sort_by_snoc.
    rewrite (insert_by_map (fun p => stamped_number (fst p)) frame_number node_of)
      by reflexivity.
    f_equal. unfold node_of. cbn [fst snd]. rewrite Hr, Hord. reflexivity.
  - apply Forall_app. split.
    + eapply Forall_impl; [|exact Hall]. cbv beta. intros p (H0 & H1 & H2 & H3).
      repeat split; try lia.
      rewrite read_bytes_below by lia. exact H3.
    + constructor; [|constructor]. cbn [fst snd]. repeat split; try lia.
      rewrite <- (payload_length f HP) at 1.
      apply read_bytes_written; [lia|]. rewrite payload_length by exact HP. lia.
Qed.

Lemma same_staging_inv (r : dxwifi_receiver) (fc fc' : frame_controller)
      (staged : list (captured_frame * Z)) :
  same_staging fc fc' -> staging_inv r fc staged -> staging_inv r fc' staged.
Proof.
  intros (E1 & E2 & E3 & E4 & E5 & E6). unfold staging_inv.
  now rewrite E1, E2, E3, E4, E5.
Qed.

Lemma process_frame_other (r : dxwifi_receiver) (fc : frame_controller) (f : captured_frame) :
  rx fc = r -> is_data_frame r f = false -> same_staging fc (process_frame fc f).
Proof.
  intros Hr Hd. unfold is_data_frame in Hd. rewrite <- Hr in Hd.
  destruct (bool_cases (verify_sender f (sender_addr (rx fc))
                                      (wrap 32 (max_hamming_dist (rx fc))))) as [Hv|Hv].
  - rewrite Hv in Hd.
    destruct (control_cases (check_frame_control f check_threshold_066))
      as [Hc|[Hc|[Hc|Hc]]]; rewrite Hc in Hd; try discriminate Hd;
      unfold process_frame; rewrite Hv, Hc.
    + repeat split.
    + cbn [handle_frame_control]. destruct (0 <? _); repeat split.
    + repeat split.
  - unfold process_frame. rewrite Hv. repeat split.
Qed.

Lemma process_frame_data (r : dxwifi_receiver) (fc : frame_controller) (f : captured_frame) :
  rx fc = r -> is_data_frame r f = true ->
  0 < DXWIFI_TX_PAYLOAD_SIZE < 2 ^ 31 -> sane_frame f ->
  data_payload_size f = DXWIFI_TX_PAYLOAD_SIZE
  /\ process_frame fc f
     = append_frame (set_stats fc (set_rtap (rx_stats fc)
                                            (parse_radiotap_header (frame f) (caplen f)))) f.
Proof.
  intros Hr Hd HP Hf. unfold is_data_frame in Hd. apply andb_true_iff in Hd as [Hv Hc].
  assert (check_frame_control f check_threshold_066 = DXWIFI_CONTROL_FRAME_NONE) as Hn.
  { destruct (check_frame_control f check_threshold_066); cbn in Hc; congruence. }
  pose proof (none_payload_size f _ HP Hf Hn) as Hsize. split; [exact Hsize|].
  unfold process_frame. rewrite Hr, Hv, Hn, Hsize, Z.eqb_refl. reflexivity.
Qed.

Lemma set_stats_staging (fc : frame_controller) (st : dxwifi_rx_stats) :
  same_staging fc (set_stats fc st).
Proof. repeat split. Qed.

Lemma run_frames_nil (fc : frame_controller) : run_frames fc [] = fc.
Proof. reflexivity. Qed.

(** What a run adds to the sink, and what the frames still staged will add,
    is what the generations of its data frames prescribe; [rest] stands for
    the data frames that follow. *)
Lemma ordered_steps (r : dxwifi_receiver) :
  ordered r = true -> add_noise r = false -> sane_sizes r ->
  forall fs fc staged,
    Forall sane_frame fs -> staging_inv r fc staged ->
    exists staged',
      staging_inv r (run_frames fc fs) staged'
      /\ forall rest,
          fd (run_frames fc fs)
          ++ emitted r (index (run_frames fc fs)) (map fst staged') rest
          = fd fc ++ emitted r (index fc) (map fst staged) (filter (is_data_frame r) fs ++ rest).
Proof.
  intros Hord Hnoise ((HP0 & HP1) & (Hsz0 & Hsz1)).
  induction fs as [|f fs IH]; intros fc staged Hfs Hinv.
  - exists staged. rewrite run_frames_nil. split; [exact Hinv|]. reflexivity.
  - pose proof (Forall_inv Hfs) as Hf. pose proof (Forall_inv_tail Hfs) as Hrest.
    assert (rx fc = r) as Hr by apply Hinv.
    rewrite run_frames_cons. cbn [filter].
    destruct (bool_cases (is_data_frame r f)) as [Hd|Hd]; rewrite Hd.
    + destruct (process_frame_data r fc f Hr Hd (conj HP0 HP1) Hf) as [Hsize E].
      rewrite E. clear E.
      set (fc1 := set_stats fc (set_rtap (rx_stats fc)
                                         (parse_radiotap_header (frame f) (caplen f)))).
      assert (staging_inv r fc1 staged) as Hinv1
          by (apply (same_staging_inv r fc); [apply set_stats_staging|exact Hinv]).
      assert (fd fc1 = fd fc /\ index fc1 = index fc /\ pb_size fc1 = packet_buffer_size r)
        as (Hfd1 & Hidx1 & Hpb1).
      { repeat split. apply Hinv. }
      assert (0 <= index fc < 2 ^ 63 + 2 ^ 32) as Hi by apply Hinv.
      unfold append_frame. rewrite Hpb1, Hidx1.
      replace (wrap 64 (index fc + DXWIFI_TX_PAYLOAD_SIZE))
        with (index fc + DXWIFI_TX_PAYLOAD_SIZE).
      2:{ unfold wrap. symmetry. apply Z.mod_small.
          change (2 ^ 63) with 9223372036854775808 in *.
          change (2 ^ 32) with 4294967296 in *.
          change (2 ^ 31) with 2147483648 in *.
          change (2 ^ 64) with 18446744073709551616. lia. }
      unfold emitted at 2. cbn [app generations].
      destruct (Z.leb_spec (packet_buffer_size r) (index fc + DXWIFI_TX_PAYLOAD_SIZE))
        as [Hfull|Hroom].
      * destruct (dump_packet_buffer_inv r fc1 staged Hnoise Hinv1) as [Hinv2 Hfd2].
        assert (index (dump_packet_buffer fc1) = 0) as Hidx2 by apply dump_packet_buffer_frame.
        destruct (stage_frame_inv r (dump_packet_buffer fc1) [] f Hord HP0 Hf Hsize
                                  ltac:(rewrite Hidx2; lia) Hsz1 Hinv2)
          as (Hinv3 & Hfd3 & Hidx3).
        destruct (IH _ _ Hrest Hinv3) as (staged' & Hinv' & Hout).
        exists staged'. split; [exact Hinv'|]. intros rest.
        rewrite (Hout rest), Hfd3, Hfd2, Hfd1, Hidx3, Hidx2.
        cbn [app map fst concat]. rewrite Z.add_0_l, <- app_assoc. reflexivity.
      * destruct (stage_frame_inv r fc1 staged f Hord HP0 Hf Hsize
                                  ltac:(rewrite Hidx1; lia) Hsz1 Hinv1)
          as (Hinv3 & Hfd3 & Hidx3).
        destruct (IH _ _ Hrest Hinv3) as (staged' & Hinv' & Hout).
        exists staged'. split; [exact Hinv'|]. intros rest.
        rewrite (Hout rest), Hfd3, Hfd1, Hidx3, Hidx1.
        rewrite map_app. reflexivity.
    + pose proof (process_frame_other r fc f Hr Hd) as Hsame.
      destruct (IH _ staged Hrest (same_staging_inv r fc _ staged Hsame Hinv))
        as (staged' & Hinv' & Hout).
      exists staged'. split; [exact Hinv'|]. intros rest.
      destruct Hsame as (_ & _ & _ & Hidx & _ & Hfd). now rewrite (Hout rest), Hidx, Hfd.
Qed.

(** The sink after a run and the final flush, from any state between two
    frames. *)
Lemma ordered_run (r : dxwifi_receiver) :
  ordered r = true -> add_noise r = false -> sane_sizes r ->
  forall fs fc staged,
    Forall sane_frame fs -> staging_inv r fc staged ->
    fd (dump_packet_buffer (run_frames fc fs))
    = fd fc ++ emitted r (index fc) (map fst staged) (filter (is_data_frame r) fs).
Proof.
  intros Hord Hnoise Hsane fs fc staged Hfs Hinv.
  destruct (ordered_steps r Hord Hnoise Hsane fs fc staged Hfs Hinv)
    as (staged' & Hinv' & Hout).
  destruct (dump_packet_buffer_inv r _ staged' Hnoise Hinv') as [_ Hfd].
  rewrite Hfd. specialize (Hout []). rewrite app_nil_r in Hout. rewrite <- Hout.
  unfold emitted. cbn [generations map concat]. now rewrite app_nil_r.
Qed.

(** The same for a whole capture: the loop hands the dispatched frames to
    [process_frame] and besides only stores the capture state. *)
Lemma ordered_loop (r : dxwifi_receiver) :
  ordered r = true -> add_noise r = false -> sane_sizes r ->
  forall evs activated fc fc' staged,
    Forall sane_frame (concat (map batch_of evs)) ->
    staging_inv r fc staged ->
    capture_loop evs activated fc = Some fc' ->
    fd (dump_packet_buffer fc')
    = fd fc ++ emitted r (index fc) (map fst staged)
                       (filter (is_data_frame r) (dispatched evs activated fc)).
Proof.
  intros Hord Hnoise Hsane.
  induction evs as [|ev evs IH]; intros activated fc fc' staged Hfs Hinv;
    cbn [capture_loop dispatched]; destruct (activated && negb (end_capture fc)).
  - discriminate.
  - intros E. injection E as <-.
    rewrite <- (run_frames_nil fc) at 1.
    apply (ordered_run r Hord Hnoise Hsane [] fc staged); [constructor|exact Hinv].
  - cbn [map concat] in Hfs. apply Forall_app in Hfs as [Hbatch Hrest].
    destruct (capture_turn ev fc) as [a fc1] eqn:Hturn. intros Hloop.
    destruct (ordered_steps r Hord Hnoise Hsane (batch_of ev) fc staged Hbatch Hinv)
      as (staged1 & Hinv1 & Hout).
    assert (same_staging (run_frames fc (batch_of ev)) fc1) as Hsame.
    { destruct ev as [|stopped|batch status stopped]; cbn [capture_turn batch_of] in *.
      - injection Hturn as <- <-. repeat split.
      - destruct stopped; injection Hturn as <- <-; repeat split.
      - fold (run_frames fc batch) in Hturn.
        destruct (DXWIFI_TESTS && (status =? 0)); injection Hturn as <- <-; repeat split. }
    rewrite (IH a fc1 fc' staged1 Hrest (same_staging_inv r _ _ _ Hsame Hinv1) Hloop).
    destruct Hsame as (_ & _ & _ & Hidx & _ & Hfd). rewrite Hidx, Hfd, filter_app.
    apply Hout.
  - intros E. injection E as <-.
    rewrite <- (run_frames_nil fc) at 1.
    apply (ordered_run r Hord Hnoise Hsane [] fc staged); [constructor|exact Hinv].
Qed.

Lemma init_staging (r : dxwifi_receiver) (slot : packet_heap_node) :
  0 <= packet_buffer_size r ->
  staging_inv r (init_frame_controller r slot) [].
Proof.
  intros H. unfold staging_inv, init_frame_controller.
  cbn [rx pb_size packet_buffer index packet_heap init_heap tree].
  rewrite repeat_length. repeat split; try lia. constructor.
Qed.

Lemma read8_nth (mem : list byte) (i : nat) :
  read8 mem (Z.of_nat i) = nth i mem x00.
Proof.
  unfold read8. destruct (Z.ltb_spec (Z.of_nat i) 0); [lia|]. now rewrite Nat2Z.id.
Qed.

(** The number the code stamps on a heap node in ordered mode,
    [ntohl] of the 32-bit load at [mac_hdr->addr1 + 2] converted to
    [int32_t], is the frame number of the specification. *)
Lemma stamped_number_addr1 (f : captured_frame) :
  stamped_number f = addr1_frame_number f.
Proof.
  unfold stamped_number, extract_frame_number, addr1_frame_number, mac_hdr_off, it_len.
  unfold read16_le, offsetof_it_len, offsetof_addr1.
  change 2 with (Z.of_nat 2) at 1. change (2 + 1) with (Z.of_nat 3).
  rewrite !read8_nth. fold (byte_at f 2). fold (byte_at f 3).
  unfold byte_val at 1 2. fold (byte_at f 2). fold (byte_at f 3).
  assert (0 <= byte_at f 2 < 256 /\ 0 <= byte_at f 3 < 256) as [H2 H3].
  { unfold byte_at. split; apply byte_val_range. }
  set (n := Z.to_nat (byte_at f 2 + 256 * byte_at f 3)).
  assert (byte_at f 2 + 2 ^ 8 * byte_at f 3 = Z.of_nat n) as ->.
  { subst n. rewrite Z2Nat.id by lia. change (2 ^ 8) with 256. reflexivity. }
  unfold read32_be.
  replace (Z.of_nat n + 4 + 2) with (Z.of_nat (n + 4 + 2)) by lia.
  replace (Z.of_nat (n + 4 + 2) + 1) with (Z.of_nat (n + 4 + 3)) by lia.
  replace (Z.of_nat (n + 4 + 2) + 2) with (Z.of_nat (n + 4 + 4)) by lia.
  replace (Z.of_nat (n + 4 + 2) + 3) with (Z.of_nat (n + 4 + 5)) by lia.
  rewrite !read8_nth. unfold byte_val.
  fold (byte_at f (n + 4 + 2)). fold (byte_at f (n + 4 + 3)).
  fold (byte_at f (n + 4 + 4)). fold (byte_at f (n + 4 + 5)).
  cbn [map big_endian fold_left].
  assert (forall i, 0 <= byte_at f i < 256) as Hb
      by (intros i; unfold byte_at; apply byte_val_range).
  pose proof (Hb (n + 4 + 2)%nat). pose proof (Hb (n + 4 + 3)%nat).
  pose proof (Hb (n + 4 + 4)%nat). pose proof (Hb (n + 4 + 5)%nat).
  unfold to_int32, wrap.
  change (2 ^ 24) with 16777216. change (2 ^ 16) with 65536. change (2 ^ 8) with 256.
  change (2 ^ 32) with 4294967296. change (2 ^ 31) with 2147483648.
  rewrite Z.mod_small by lia.
  replace (256 * (256 * (256 * (256 * 0 + byte_at f (n + 4 + 2)) + byte_at f (n + 4 + 3))
                  + byte_at f (n + 4 + 4)) + byte_at f (n + 4 + 5))
    with (16777216 * byte_at f (n + 4 + 2) + 65536 * byte_at f (n + 4 + 3)
          + 256 * byte_at f (n + 4 + 4) + byte_at f (n + 4 + 5)) by lia.
  reflexivity.
Qed.

Lemma ascending_ext {A : Type} (key key' : A -> Z) (l : list A) :
  (forall x, key x = key' x) -> ascending key l -> ascending key' l.
Proof.
  intros E. unfold ascending. induction 1 as [|a l _ IH Hall]; constructor; [exact IH|].
  eapply Forall_impl; [|exact Hall]. cbv beta. intros b. now rewrite !E.
Qed.

Lemma with_key_ext {A : Type} (key key' : A -> Z) (k : Z) (l : list A) :
  (forall x, key x = key' x) -> with_key key k l = with_key key' k l.
Proof. intros E. unfold with_key. apply filter_ext. intros x. now rewrite E. Qed.

Lemma emitted_ordered (r : dxwifi_receiver) (fs : list captured_frame) :
  ordered_output r fs (emitted r 0 [] fs).
Proof.
  unfold ordered_output, emitted.
  exists (map (sort_by stamped_number) (generations (packet_buffer_size r) 0 [] fs)). split.
  - induction (generations (packet_buffer_size r) 0 [] fs) as [|g gens IH];
      cbn [map]; constructor; [|exact IH].
    split; [apply sort_by_perm|].
    split; [apply (ascending_ext stamped_number _ _ stamped_number_addr1),
                  sort_by_ascending|].
    intros k. rewrite <- !(with_key_ext stamped_number _ _ _ stamped_number_addr1).
    apply sort_by_stable.
  - now rewrite map_map.
Qed.


End Ordering.

(** ** The write index and the slots of the heap nodes *)

Section Slots.
Context {build : dxwifi_build}.

Lemma slots_same_staging (r : dxwifi_receiver) (fc fc' : frame_controller) :
  same_staging fc fc' -> slots_inv r fc -> slots_inv r fc'.
Proof.
  intros (E1 & E2 & E3 & E4 & E5 & E6). unfold slots_inv.
  now rewrite E1, E3, E4, E5.
Qed.

Lemma slots_dump (r : dxwifi_receiver) (fc : frame_controller) :
  slots_inv r fc -> slots_inv r (dump_packet_buffer fc).
Proof.
  intros (Hr & Hs & Hi & Hall).
  destruct (dump_packet_buffer_frame fc) as (Dt & Db & Ds & Di & Dr).
  unfold slots_inv. rewrite Dt, Ds, Di, Dr.
  repeat split; try assumption; try lia. constructor.
Qed.

Lemma slots_stage (r : dxwifi_receiver) (fc : frame_controller) (f : captured_frame) :
  0 < DXWIFI_TX_PAYLOAD_SIZE -> sane_frame f ->
  data_payload_size f = DXWIFI_TX_PAYLOAD_SIZE ->
  index fc + DXWIFI_TX_PAYLOAD_SIZE <= packet_buffer_size r ->
  packet_buffer_size r < 2 ^ 63 ->
  slots_inv r fc ->
  slots_inv r (stage_frame fc f) /\ index (stage_frame fc f) = index fc + caplen f.
Proof.
  intros HP Hf Hsize Hfit Hmax (Hr & Hs & Hi & Hall).
  assert (DXWIFI_TX_PAYLOAD_SIZE <= caplen f) as Hcap.
  { revert Hsize. unfold data_payload_size, fcs_off, payload_off.
    pose proof (it_len_range f). unfold sizeof_ieee80211_hdr, IEEE80211_FCS_SIZE.
    destruct DXWIFI_TESTS; lia. }
  assert (wrap 64 (index fc + caplen f) = index fc + caplen f) as Hw.
  { unfold wrap. apply Z.mod_small. unfold sane_frame in Hf.
    change (2 ^ 63) with 9223372036854775808 in *.
    change (2 ^ 32) with 4294967296 in *.
    change (2 ^ 64) with 18446744073709551616. lia. }
  unfold stage_frame. cbn [index]. rewrite Hw. split; [|reflexivity].
  unfold slots_inv. cbn [rx pb_size index packet_heap heap_push tree].
  split; [exact Hr|]. split; [exact Hs|].
  split; [unfold sane_frame in Hf; change (2 ^ 63) with 9223372036854775808 in *; lia|].
  rewrite heap_insert_insert_by.
  eapply Permutation_Forall; [apply insert_by_perm|].
  constructor.
  - cbn [data]. lia.
  - eapply Forall_impl; [|exact Hall]. cbv beta. intros n (H0 & H1 & H2). lia.
Qed.

Lemma slots_append (r : dxwifi_receiver) (fc : frame_controller) (f : captured_frame) :
  sane_sizes r -> sane_frame f ->
  data_payload_size f = DXWIFI_TX_PAYLOAD_SIZE ->
  slots_inv r fc ->
  slots_inv r (append_frame fc f)
  /\ index (append_frame fc f)
     = (if packet_buffer_size r <=? index fc + DXWIFI_TX_PAYLOAD_SIZE then 0 else index fc)
       + caplen f.
Proof.
  intros ((HP0 & HP1) & (Hsz0 & Hsz1)) Hf Hsize Hinv.
  assert (pb_size fc = packet_buffer_size r /\ 0 <= index fc < 2 ^ 63 + 2 ^ 32)
    as (Hpb & Hi) by (split; apply Hinv).
  unfold append_frame. rewrite Hpb.
  replace (wrap 64 (index fc + DXWIFI_TX_PAYLOAD_SIZE))
    with (index fc + DXWIFI_TX_PAYLOAD_SIZE).
  2:{ unfold wrap. symmetry. apply Z.mod_small.
      change (2 ^ 63) with 9223372036854775808 in *.
      change (2 ^ 32) with 4294967296 in *.
      change (2 ^ 31) with 2147483648 in *.
      change (2 ^ 64) with 18446744073709551616. lia. }
  destruct (Z.leb_spec (packet_buffer_size r) (index fc + DXWIFI_TX_PAYLOAD_SIZE))
    as [Hfull|Hroom].
  - assert (index (dump_packet_buffer fc) = 0) as Hidx by apply dump_packet_buffer_frame.
    destruct (slots_stage r (dump_packet_buffer fc) f HP0 Hf Hsize
                          ltac:(rewrite Hidx; lia) Hsz1 (slots_dump r fc Hinv)) as [H1 H2].
    split; [exact H1|]. now rewrite H2, Hidx.
  - apply (slots_stage r fc f HP0 Hf Hsize ltac:(lia) Hsz1 Hinv).
Qed.

Lemma slots_process (r : dxwifi_receiver) (fc : frame_controller) (f : captured_frame) :
  sane_sizes r -> sane_frame f -> slots_inv r fc -> slots_inv r (process_frame fc f).
Proof.
  intros Hsane Hf Hinv. assert (rx fc = r) as Hr by apply Hinv.
  destruct (bool_cases (is_data_frame r f)) as [Hd|Hd].
  - destruct (process_frame_data r fc f Hr Hd (proj1 Hsane) Hf) as [Hsize E].
    rewrite E. apply slots_append; [exact Hsane|exact Hf|exact Hsize|].
    apply (slots_same_staging r fc); [apply set_stats_staging|exact Hinv].
  - apply (slots_same_staging r fc); [|exact Hinv].
    now apply (process_frame_other r).
Qed.

Lemma slots_run (r : dxwifi_receiver) (fs : list captured_frame) :
  sane_sizes r -> Forall sane_frame fs ->
  forall fc, slots_inv r fc -> slots_inv r (run_frames fc fs).
Proof.
  intros Hsane. induction fs as [|f fs IH]; intros Hfs fc Hinv; [exact Hinv|].
  rewrite run_frames_cons. apply IH; [exact (Forall_inv_tail Hfs)|].
  apply slots_process; [exact Hsane|exact (Forall_inv Hfs)|exact Hinv].
Qed.

Lemma slots_init (r : dxwifi_receiver) (slot : packet_heap_node) :
  slots_inv r (init_frame_controller r slot).
Proof.
  unfold slots_inv, init_frame_controller.
  cbn [rx pb_size index packet_heap init_heap tree]. repeat split; try lia. constructor.
Qed.

(** C5, amended: after a [process_frame] that appends a data frame the write
    index is the index the frame was staged at (0 after a flush) plus the
    frame's [caplen], and every heap node's payload lies inside the packet
    buffer, below the write index. *)
Theorem write_index_and_slots (r : dxwifi_receiver) (slot : packet_heap_node)
        (fs : list captured_frame) (f : captured_frame) :
  sane_sizes r -> Forall sane_frame fs -> sane_frame f ->
  is_data_frame r f = true ->
  let fc := run_frames (init_frame_controller r slot) fs in
  let fc' := process_frame fc f in
  index fc'
  = (if packet_buffer_size r <=? index fc + DXWIFI_TX_PAYLOAD_SIZE then 0 else index fc)
    + caplen f
  /\ Forall (fun n => 0 <= data n
                      /\ data n + DXWIFI_TX_PAYLOAD_SIZE <= pb_size fc'
                      /\ data n < index fc')
            (tree (packet_heap fc')).
Proof.
  intros Hsane Hfs Hf Hd fc fc'.
  assert (slots_inv r fc) as Hinv by (apply slots_run; auto using slots_init).
  assert (rx fc = r) as Hr by apply Hinv.
  destruct (process_frame_data r fc f Hr Hd (proj1 Hsane) Hf) as [Hsize E].
  subst fc'. rewrite E.
  destruct (slots_append r (set_stats fc (set_rtap (rx_stats fc)
                              (parse_radiotap_header (frame f) (caplen f)))) f
              Hsane Hf Hsize) as [(Hr' & Hs' & Hi' & Hall) Hidx].
  { apply (slots_same_staging r fc); [apply set_stats_staging|exact Hinv]. }
  split; [exact Hidx|].
  rewrite Hs'. eapply Forall_impl; [|exact Hall]. cbv beta.
  destruct Hsane as [[HP0 HP1] _]. intros n (H0 & H1 & H2). lia.
Qed.

End Slots.

(** ** The classifier *)

Section Rounding.
Import Float.

Lemma pow2_double (z : Z) : 0 <= z -> 2 ^ (z + 1) = 2 * 2 ^ z.
Proof. intros H. rewrite Z.pow_add_r by lia. change (2 ^ 1) with 2. lia. Qed.

Lemma exponent_spec (n d : Z) :
  0 < n -> 0 < d -> pow2_le (exponent n d) n d /\ pow2_gt (exponent n d + 1) n d.
Proof.
  intros Hn Hd. unfold exponent, pow2_le, pow2_gt.
  pose proof (Z.log2_spec n Hn) as Ln. pose proof (Z.log2_spec d Hd) as Ld.
  pose proof (Z.log2_nonneg n) as Hln. pose proof (Z.log2_nonneg d) as Hld.
  set (ln := Z.log2 n) in *. set (ld := Z.log2 d) in *.
  replace (Z.succ ln) with (ln + 1) in Ln by lia.
  replace (Z.succ ld) with (ld + 1) in Ld by lia.
  rewrite pow2_double in Ln, Ld by lia.
  destruct (Z.leb_spec 0 (ln - ld)) as [He0|He0].
  - assert (2 ^ ln = 2 ^ ld * 2 ^ (ln - ld)) as Hsplit
        by (rewrite <- Z.pow_add_r by lia; f_equal; lia).
    pose proof (Z.pow_pos_nonneg 2 (ln - ld) ltac:(lia) He0) as HB.
    pose proof (Z.pow_pos_nonneg 2 ld ltac:(lia) Hld) as HA.
    destruct (Z.leb_spec (d * 2 ^ (ln - ld)) n) as [Hab|Hab].
    + destruct (Z.leb_spec 0 (ln - ld)); [|lia].
      destruct (Z.leb_spec 0 (ln - ld + 1)); [|lia].
      split; [exact Hab|]. rewrite pow2_double by lia. nia.
    + destruct (Z.leb_spec 0 (ln - ld - 1)) as [He|He].
      * replace (ln - ld - 1 + 1) with (ln - ld) by lia.
        destruct (Z.leb_spec 0 (ln - ld)); [|lia]. split; [|exact Hab].
        assert (2 ^ (ln - ld) = 2 * 2 ^ (ln - ld - 1)) as HB2.
        { rewrite <- pow2_double by lia. f_equal. lia. }
        pose proof (Z.pow_pos_nonneg 2 (ln - ld - 1) ltac:(lia) He). nia.
      * assert (ln - ld = 0) as E0 by lia. rewrite E0 in *.
        change (0 - 1 + 1) with 0. change (- (0 - 1)) with 1. cbn [Z.leb Z.compare].
        change (2 ^ 0) with 1 in *. change (2 ^ 1) with 2. split; nia.
  - assert (2 ^ ld = 2 ^ ln * 2 ^ (- (ln - ld))) as Hsplit
        by (rewrite <- Z.pow_add_r by lia; f_equal; lia).
    pose proof (Z.pow_pos_nonneg 2 (- (ln - ld)) ltac:(lia) ltac:(lia)) as HB.
    pose proof (Z.pow_pos_nonneg 2 ln ltac:(lia) Hln) as HC.
    assert (2 ^ (- (ln - ld)) = 2 * 2 ^ (- (ln - ld) - 1)) as HB2.
    { rewrite <- pow2_double by lia. f_equal. lia. }
    pose proof (Z.pow_pos_nonneg 2 (- (ln - ld) - 1) ltac:(lia) ltac:(lia)) as HB'.
    destruct (Z.leb_spec d (n * 2 ^ (- (ln - ld)))) as [Hab|Hab].
    + destruct (Z.leb_spec 0 (ln - ld)); [lia|]. split; [exact Hab|].
      destruct (Z.leb_spec 0 (ln - ld + 1)) as [He|He].
      * assert (ln - ld = -1) as E0 by lia. rewrite E0 in *.
        change (-1 + 1) with 0. change (2 ^ 0) with 1. change (- -1) with 1 in *.
        change (2 ^ 1) with 2 in *. nia.
      * replace (- (ln - ld + 1)) with (- (ln - ld) - 1) by lia. nia.
    + destruct (Z.leb_spec 0 (ln - ld - 1)); [lia|].
      replace (ln - ld - 1 + 1) with (ln - ld) by lia.
      destruct (Z.leb_spec 0 (ln - ld)); [lia|]. split; [|exact Hab].
      replace (- (ln - ld - 1)) with (- (ln - ld) + 1) by lia.
      rewrite pow2_double by lia. nia.
Qed.

Lemma round_single_cases (n d : Z) :
  0 < n -> 0 < d ->
  exists s den num m,
    (if 0 <=? s then den = d * 2 ^ s /\ num = n /\ round_to 24 n d = Fin (m * 2 ^ s) 1
     else den = d /\ num = n * 2 ^ (- s) /\ round_to 24 n d = Fin m (2 ^ (- s)))
    /\ 0 < den
    /\ den * 2 ^ 23 <= num < den * 2 ^ 24
    /\ num / den <= m <= num / den + 1
    /\ (num mod den = 0 -> m = num / den).
Proof.
  intros Hn Hd. destruct (exponent_spec n d Hn Hd) as [Hle Hgt].
  unfold round_to. destruct (Z.eqb_spec n 0) as [|_]; [lia|].
  change (24 - 1) with 23. set (e := exponent n d) in *.
  set (s := e - 23).
  set (num := if 0 <=? s then n else n * 2 ^ (- s)).
  set (den := if 0 <=? s then d * 2 ^ s else d).
  set (m := if (den <? 2 * (num mod den)) || ((den =? 2 * (num mod den)) && Z.odd (num / den))
            then num / den + 1 else num / den).
  exists s, den, num, m.
  assert (0 < den /\ den * 2 ^ 23 <= num < den * 2 ^ 24) as [Hden Hq].
  { unfold pow2_le, pow2_gt in Hle, Hgt. subst num den.
    destruct (Z.leb_spec 0 s) as [Hs|Hs].
    - destruct (Z.leb_spec 0 e); [|lia]. destruct (Z.leb_spec 0 (e + 1)); [|lia].
      pose proof (Z.pow_pos_nonneg 2 s ltac:(lia) Hs).
      assert (2 ^ e = 2 ^ s * 2 ^ 23) as E1
          by (rewrite <- Z.pow_add_r by lia; f_equal; lia).
      assert (2 ^ (e + 1) = 2 ^ s * 2 ^ 24) as E2
          by (rewrite <- Z.pow_add_r by lia; f_equal; lia).
      rewrite E1 in Hle. rewrite E2 in Hgt. split; nia.
    - pose proof (Z.pow_pos_nonneg 2 (- s) ltac:(lia) ltac:(lia)).
      split; [lia|].
      destruct (Z.leb_spec 0 e) as [He|He].
      + destruct (Z.leb_spec 0 (e + 1)); [|lia].
        pose proof (Z.pow_pos_nonneg 2 e ltac:(lia) He).
        assert (2 ^ 23 = 2 ^ e * 2 ^ (- s)) as E1
            by (rewrite <- Z.pow_add_r by lia; f_equal; lia).
        assert (2 ^ 24 = 2 ^ (e + 1) * 2 ^ (- s)) as E2
            by (rewrite <- Z.pow_add_r by lia; f_equal; lia).
        rewrite E1, E2. split; nia.
      + pose proof (Z.pow_pos_nonneg 2 (- e) ltac:(lia) ltac:(lia)).
        assert (2 ^ (- s) = 2 ^ (- e) * 2 ^ 23) as E1
            by (rewrite <- Z.pow_add_r by lia; f_equal; lia).
        destruct (Z.leb_spec 0 (e + 1)) as [He1|He1].
        * assert (e = -1) as E by lia. rewrite E in *.
          change (-1 + 1) with 0 in Hgt. change (2 ^ 0) with 1 in Hgt.
          change (- -1) with 1 in *. change (2 ^ 1) with 2 in *.
          rewrite E1. change (2 ^ 24) with (2 * 2 ^ 23). split; nia.
        * pose proof (Z.pow_pos_nonneg 2 (- (e + 1)) ltac:(lia) ltac:(lia)).
          assert (2 ^ (- s) = 2 ^ (- (e + 1)) * 2 ^ 24) as E2
              by (rewrite <- Z.pow_add_r by lia; f_equal; lia).
          split; [rewrite E1; nia|rewrite E2; nia]. }
  split; [|split; [exact Hden|split; [exact Hq|]]].
  - subst num den. destruct (0 <=? s); repeat split.
  - pose proof (Z.mod_pos_bound num den Hden) as Hr.
    subst m. split.
    + destruct ((den <? 2 * (num mod den)) || _); lia.
    + intros Hr0. rewrite Hr0.
      destruct (Z.ltb_spec den (2 * 0)); [lia|].
      destruct (Z.eqb_spec den (2 * 0)); [lia|]. reflexivity.
Qed.

(** Rounding does not cross a single precision value [M / 2^24] of the binade
    below one. *)
Lemma round_single_ge (n d M : Z) :
  0 < n -> 0 < d -> 2 ^ 23 <= M < 2 ^ 24 -> M * d <= n * 2 ^ 24 ->
  exists n' d', round_to 24 n d = Fin n' d' /\ 0 < d' /\ M * d' <= n' * 2 ^ 24.
Proof.
  intros Hn Hd HM Hx.
  destruct (round_single_cases n d Hn Hd) as (s & den & num & m & Hform & Hden & Hq & Hm & _).
  assert (2 ^ 23 <= num / den) as Hq23 by (apply Z.div_le_lower_bound; lia).
  change (2 ^ 23) with 8388608 in *. change (2 ^ 24) with 16777216 in *.
  destruct (Z.leb_spec 0 s) as [Hs|Hs].
  - destruct Hform as (-> & -> & ->).
    pose proof (Z.pow_pos_nonneg 2 s ltac:(lia) Hs).
    exists (m * 2 ^ s), 1. split; [reflexivity|]. split; [lia|]. nia.
  - destruct Hform as (-> & -> & ->).
    pose proof (Z.pow_pos_nonneg 2 (- s) ltac:(lia) ltac:(lia)) as Hk.
    exists m, (2 ^ (- s)). split; [reflexivity|]. split; [exact Hk|].
    destruct (Z.le_gt_cases (- s) 23) as [Hk23|Hk23].
    + pose proof (Z.pow_le_mono_r 2 (- s) 23 ltac:(lia) Hk23) as Hp.
      change (2 ^ 23) with 8388608 in Hp. nia.
    + destruct (Z.eq_dec (- s) 24) as [E|E].
      * rewrite E in *. change (2 ^ 24) with 16777216 in *.
        assert (M <= n * 16777216 / d) by (apply Z.div_le_lower_bound; lia). nia.
      * exfalso. pose proof (Z.pow_le_mono_r 2 25 (- s) ltac:(lia) ltac:(lia)) as Hp.
        change (2 ^ 25) with 33554432 in Hp. nia.
Qed.

Lemma round_single_le (n d M : Z) :
  0 < n -> 0 < d -> 2 ^ 23 <= M < 2 ^ 24 -> n * 2 ^ 24 <= M * d ->
  exists n' d', round_to 24 n d = Fin n' d' /\ 0 < d' /\ n' * 2 ^ 24 <= M * d'.
Proof.
  intros Hn Hd HM Hx.
  destruct (round_single_cases n d Hn Hd) as (s & den & num & m & Hform & Hden & Hq & Hm & Hex).
  assert (num / den < 2 ^ 24) as Hq24 by (apply Z.div_lt_upper_bound; lia).
  change (2 ^ 23) with 8388608 in *. change (2 ^ 24) with 16777216 in *.
  destruct (Z.leb_spec 0 s) as [Hs|Hs].
  - destruct Hform as (-> & -> & ->).
    pose proof (Z.pow_pos_nonneg 2 s ltac:(lia) Hs). exfalso. nia.
  - destruct Hform as (-> & -> & ->).
    pose proof (Z.pow_pos_nonneg 2 (- s) ltac:(lia) ltac:(lia)) as Hk.
    exists m, (2 ^ (- s)). split; [reflexivity|]. split; [exact Hk|].
    destruct (Z.le_gt_cases (- s) 23) as [Hk23|Hk23].
    + exfalso. pose proof (Z.pow_le_mono_r 2 (- s) 23 ltac:(lia) Hk23) as Hp.
      change (2 ^ 23) with 8388608 in Hp. nia.
    + destruct (Z.eq_dec (- s) 24) as [E|E].
      * rewrite E in *. change (2 ^ 24) with 16777216 in *.
        pose proof (Z.div_mod (n * 16777216) d ltac:(lia)) as Hdm.
        pose proof (Z.mod_pos_bound (n * 16777216) d Hd) as Hr.
        destruct (Z.eq_dec ((n * 16777216) mod d) 0) as [R0|R0].
        -- rewrite (Hex R0). nia.
        -- assert (n * 16777216 / d < M) by nia. nia.
      * pose proof (Z.pow_le_mono_r 2 25 (- s) ltac:(lia) ltac:(lia)) as Hp.
        change (2 ^ 25) with 33554432 in Hp. nia.
Qed.

Lemma single_of_int_exact (c : Z) :
  0 < c < 2 ^ 24 -> exists k, 0 < k /\ single_of_int c = Fin (c * k) k.
Proof.
  intros Hc. unfold single_of_int.
  destruct (round_single_cases c 1 ltac:(lia) ltac:(lia))
    as (s & den & num & m & Hform & Hden & Hq & Hm & Hex).
  change (2 ^ 23) with 8388608 in *. change (2 ^ 24) with 16777216 in *.
  destruct (Z.leb_spec 0 s) as [Hs|Hs].
  - destruct Hform as (-> & -> & ->).
    pose proof (Z.pow_pos_nonneg 2 s ltac:(lia) Hs).
    assert (2 ^ s = 1) as E by nia. rewrite E in *.
    exists 1. split; [lia|]. rewrite Hex.
    + rewrite Z.div_1_r. reflexivity.
    + apply Z.mod_1_r.
  - destruct Hform as (-> & -> & ->).
    exists (2 ^ (- s)). split; [apply Z.pow_pos_nonneg; lia|].
    rewrite Hex.
    + now rewrite Z.div_1_r.
    + apply Z.mod_1_r.
Qed.

(** For counters below 2^16 the comparison in [float] agrees with the exact
    comparison of the ratio with 66/100. *)
Lemma ratio_exceeds_exact (count size : Z) :
  0 <= count < 2 ^ 16 -> 0 < size < 2 ^ 16 ->
  ratio_exceeds count size check_threshold_066 = (66 * size <? 100 * count).
Proof.
  intros Hc Hp.
  assert (check_threshold_066 = Fin 11072963 16777216) as -> by (vm_compute; reflexivity).
  unfold ratio_exceeds.
  change (2 ^ 16) with 65536 in *.
  destruct (single_of_int_exact size ltac:(change (2 ^ 24) with 16777216; lia))
    as (k2 & Hk2 & ->).
  destruct (Z.eq_dec count 0) as [->|Hc0].
  - change (single_of_int 0) with (Fin 0 1). cbn [div_single].
    destruct (Z.eqb_spec (size * k2) 0); [nia|].
    replace (0 * k2) with 0 by lia. unfold round_to. rewrite Z.eqb_refl. unfold gt.
    destruct (Z.ltb_spec (66 * size) (100 * 0)); [lia|].
    destruct (Z.ltb_spec (11072963 * 1) (0 * 16777216)); [lia|reflexivity].
  - destruct (single_of_int_exact count ltac:(change (2 ^ 24) with 16777216; lia))
      as (k1 & Hk1 & ->).
    cbn [div_single]. destruct (Z.eqb_spec (size * k2) 0); [nia|].
    destruct (Z.ltb_spec (66 * size) (100 * count)) as [Hgt|Hle].
    + destruct (round_single_ge (count * k1 * k2) (k1 * (size * k2)) 11072964)
        as (n' & d' & -> & Hd' & Hv);
        try (change (2 ^ 23) with 8388608; change (2 ^ 24) with 16777216; nia).
      cbn [gt]. change (2 ^ 24) with 16777216 in Hv.
      destruct (Z.ltb_spec (11072963 * d') (n' * 16777216)); [reflexivity|lia].
    + destruct (round_single_le (count * k1 * k2) (k1 * (size * k2)) 11072963)
        as (n' & d' & -> & Hd' & Hv);
        try (change (2 ^ 23) with 8388608; change (2 ^ 24) with 16777216; nia).
      cbn [gt]. change (2 ^ 24) with 16777216 in Hv.
      destruct (Z.ltb_spec (11072963 * d') (n' * 16777216)); [lia|reflexivity].
Qed.

End Rounding.

Section Classifier.
Context {build : dxwifi_build}.

Lemma count_sentinels_occurrences (l : list byte) :
  PREAMBLE_value <> EOT_value ->
  forall p e,
    fold_left count_byte l (p, e)
    = (p + occurrences PREAMBLE_value l, e + occurrences EOT_value l).
Proof.
  intros Hne. unfold occurrences.
  induction l as [|b l IH]; intros p e; cbn [fold_left filter length].
  - f_equal; cbn; lia.
  - unfold count_byte at 2.
    destruct (Byte.eqb b PREAMBLE_value) eqn:Hp.
    + apply Byte.byte_dec_bl in Hp. subst b.
      destruct (Byte.eqb PREAMBLE_value EOT_value) eqn:He;
        [apply Byte.byte_dec_bl in He; contradiction|].
      rewrite IH. cbn [length]. f_equal; lia.
    + destruct (Byte.eqb b EOT_value); rewrite IH; cbn [length]; f_equal; lia.
Qed.

Lemma occurrences_range (b : byte) (l : list byte) :
  0 <= occurrences b l <= Z.of_nat (length l).
Proof.
  unfold occurrences. pose proof (filter_length_le (fun x => Byte.eqb x b) l). lia.
Qed.


End Classifier.

(** ** Checksums and loss accounting *)

Section Accounting.
Context {build : dxwifi_build}.

(** [crc_valid] can only be set for a CRC that fits into one byte. *)
Lemma check_crc_fits_byte (f : captured_frame) :
  check_crc f = true -> 0 <= frame_crc f < 256.
Proof.
  unfold check_crc. intros H. apply Z.eqb_eq in H. rewrite H. apply byte_val_range.
Qed.

(** [bad_crcs] goes up with every staged frame whose [crc_valid] is set. *)
Lemma staged_bad_crcs (fc : frame_controller) (f : captured_frame) :
  bad_crcs (rx_stats (stage_frame fc f))
  = bad_crcs (rx_stats fc) + (if check_crc f then 1 else 0).
Proof.
  unfold stage_frame. cbn [rx_stats bad_crcs]. destruct (check_crc f); reflexivity.
Qed.

(** In ordered mode a node that repeats the number of the node before it
    takes one block off the loss counter. *)
Lemma dump_node_repeated_number (fc : frame_controller) (h' : binary_heap)
      (n : packet_heap_node) :
  ordered (rx fc) = true ->
  total_blocks_lost (rx_stats (dump_node fc h' n (frame_number n + 1)))
  = total_blocks_lost (rx_stats fc) - 1.
Proof.
  intros Hord. unfold dump_node. cbn [rx_stats total_blocks_lost]. rewrite Hord.
  destruct (Z.eqb_spec (frame_number n + 1) (frame_number n)) as [E|_]; [lia|].
  cbn [andb negb].
  replace (frame_number n - (frame_number n + 1)) with (-1) by lia.
  reflexivity.
Qed.

End Accounting.

(** ** Runs of the small build *)

Section SmallBuild.
Local Existing Instance small_build.


(** A capture of two dispatches that a timeout ends. *)
Example capture_ends_and_flushes :
  option_map fd
    (receiver_activate_capture
       (small_rx true false 1000) blank_node
       [PollReady [good_frame 1 (block x01)] 1 false;
        PollReady [good_frame 0 (block x00)] 1 false; PollTimeout])
  = Some (block x00 ++ block x01).
Proof. vm_compute. reflexivity. Qed.

(** S2 of the specification: frames 2, 0, 3, 1 leave in the order 0, 1, 2, 3. *)
Example reorder_within_one_buffer :
  fd (small_capture (small_rx true false 1000)
                    [good_frame 2 (block x02); good_frame 0 (block x00);
                     good_frame 3 (block x03); good_frame 1 (block x01)])
  = block x00 ++ block x01 ++ block x02 ++ block x03.
Proof. vm_compute. reflexivity. Qed.

(** Two generations: a buffer of 60 bytes holds one frame of 52 bytes. *)
Example reorder_stops_at_flush :
  fd (small_capture (small_rx true false 60)
                    [good_frame 2 (block x02); good_frame 0 (block x00)])
  = block x02 ++ block x00.
Proof. vm_compute. reflexivity. Qed.

(** C2: a frame number that arrives twice in one generation takes the gap
    branch with a negative count; the loss counter goes down and no longer
    matches the noise written. *)
Theorem duplicate_frame_counts_as_gap :
  let fc := small_capture (small_rx true true 1000)
                          [good_frame 0 (block x00); good_frame 0 (block x00);
                           good_frame 2 (block x02)] in
  total_blocks_lost (rx_stats fc) = 0
  /\ total_noise_added (rx_stats fc) = 16
  /\ total_noise_added (rx_stats fc)
     <> total_blocks_lost (rx_stats fc) * DXWIFI_TX_PAYLOAD_SIZE
  /\ total_blocks_lost
       (rx_stats (small_capture (small_rx true true 1000)
                                [good_frame 0 (block x00); good_frame 0 (block x00)]))
     = -1.
Proof. vm_compute. repeat split. discriminate. Qed.

(** S3 of the specification: a real gap is filled and accounted. *)
Example gap_with_noise :
  let fc := small_capture (small_rx true true 1000)
                          [good_frame 0 (block x00); good_frame 1 (block x01);
                           good_frame 3 (block x03)] in
  fd fc = block x00 ++ block x01 ++ block xff ++ block x03
  /\ total_blocks_lost (rx_stats fc) = 1
  /\ total_noise_added (rx_stats fc) = 16.
Proof. vm_compute. repeat split. Qed.

(** C3: a data frame with a wrong FCS is delivered, and [bad_crcs] stays 0. *)
Theorem wrong_fcs_not_counted :
  let fc := small_capture (small_rx true false 1000) [wrong_fcs_frame] in
  read32_le (frame wrong_fcs_frame) (fcs_off wrong_fcs_frame) <> frame_crc wrong_fcs_frame
  /\ fd fc = block x01
  /\ num_packets_processed (rx_stats fc) = 1
  /\ bad_crcs (rx_stats fc) = 0.
Proof. vm_compute. repeat split. discriminate. Qed.

(** C4: the four FCS bytes of this frame hold the CRC-32 of MAC header and
    payload, yet the frame is recorded with [crc_valid] false: the CRC is
    compared with the first FCS byte only. *)
Theorem fcs_compared_as_byte :
  let f := good_frame 0 (block x01) in
  check_frame_control f check_threshold_066 = DXWIFI_CONTROL_FRAME_NONE
  /\ read32_le (frame f) (fcs_off f) = frame_crc f
  /\ check_crc f = false
  /\ map crc_valid
         (tree (packet_heap (process_frame
                               (init_frame_controller (small_rx true false 1000) blank_node) f)))
     = [false].
Proof. vm_compute. repeat split. Qed.

(** C5: one data frame of 52 bytes leaves the write index at 52, which is
    not a multiple of the block size 16. *)
Lemma write_index_not_block_multiple :
  let fc := process_frame (init_frame_controller (small_rx true false 1000) blank_node)
                          (good_frame 0 (block x00)) in
  num_packets_processed (rx_stats fc) = 1
  /\ index fc = 52
  /\ index fc mod DXWIFI_TX_PAYLOAD_SIZE <> 0.
Proof. vm_compute. repeat split. discriminate. Qed.

Lemma write_index_and_slots_witness :
  let fc := run_frames (init_frame_controller (small_rx true false 1000) blank_node)
                       [good_frame 1 (block x01)] in
  let fc' := process_frame fc (good_frame 0 (block x00)) in
  index fc'
  = (if packet_buffer_size (small_rx true false 1000) <=? index fc + DXWIFI_TX_PAYLOAD_SIZE
     then 0 else index fc)
    + caplen (good_frame 0 (block x00))
  /\ Forall (fun n => 0 <= data n
                      /\ data n + DXWIFI_TX_PAYLOAD_SIZE <= pb_size fc'
                      /\ data n < index fc')
            (tree (packet_heap fc')).
Proof.
  apply (write_index_and_slots (small_rx true false 1000) blank_node
                               [good_frame 1 (block x01)] (good_frame 0 (block x00))).
  - unfold sane_sizes. simpl. lia.
  - repeat constructor; unfold sane_frame; simpl; lia.
  - unfold sane_frame. simpl. lia.
  - vm_compute. reflexivity.
Defined.


(** S4 of the specification: preamble, three data frames, EOT, preamble. *)
Example eot_then_preamble :
  let fc := run_frames (init_frame_controller (small_rx true false 1000) blank_node)
                       [preamble_frame; good_frame 0 (block x00); good_frame 1 (block x01);
                        good_frame 2 (block x02); eot_control_frame] in
  (preamble_recv fc, eot_reached fc, end_capture fc) = (true, true, false)
  /\ end_capture (process_frame fc preamble_frame) = true.
Proof. vm_compute. split; reflexivity. Qed.

Lemma control_frame_handling_witness :
  process_frame (init_frame_controller (small_rx true false 1000) blank_node)
                eot_control_frame
  = set_flags (init_frame_controller (small_rx true false 1000) blank_node)
              true false false.
Proof.
  refine (proj1 (proj2 (control_frame_handling
                          (init_frame_controller (small_rx true false 1000) blank_node)
                          eot_control_frame _) _)).
  - vm_compute. reflexivity.
  - vm_compute. reflexivity.
Defined.

Lemma process_frame_skips_witness :
  packets_dropped
    (rx_stats (process_frame (init_frame_controller (small_rx true false 1000) blank_node)
                             stranger_frame))
  = 1.
Proof.
  refine (proj2 (proj1 (process_frame_skips
                          (init_frame_controller (small_rx true false 1000) blank_node)
                          stranger_frame _ _) _)).
  - simpl. lia.
  - unfold sane_frame. simpl. lia.
  - vm_compute. reflexivity.
Defined.

(** S5 of the specification: frames of another sender are dropped. *)
Example bad_sender :
  let fc := small_capture (small_rx true false 1000)
                          [stranger_frame; stranger_frame; stranger_frame;
                           stranger_frame; stranger_frame] in
  packets_dropped (rx_stats fc) = 5 /\ fd fc = [].
Proof. vm_compute. split; reflexivity. Qed.

Lemma final_flush_of_empty_heap_witness :
  receiver_activate_capture (small_rx true false 1000) blank_node [PollTimeout]
  = Some (dump_packet_buffer
            (with_state (init_frame_controller (small_rx true false 1000) blank_node)
                        DXWIFI_RX_TIMED_OUT)).
Proof.
  refine (proj1 (final_flush_of_empty_heap (small_rx true false 1000) blank_node
                                           [PollTimeout] _ _)).
  reflexivity.
Defined.

End SmallBuild.

(** * Further properties of the receiver *)

(** ** Byte and block accounting *)

Section Accounts.
Context {build : dxwifi_build}.

Lemma concat_repeat_length (l : list byte) (n : nat) :
  length (concat (repeat l n)) = (n * length l)%nat.
Proof.
  induction n as [|n IH]; cbn [repeat concat]; [reflexivity|].
  rewrite length_app, IH. lia.
Qed.

(** What one turn of the flush loop does to the counters and the sink. *)
Lemma dump_node_account (fc : frame_controller) (h' : binary_heap)
      (n : packet_heap_node) (e : Z) :
  0 <= DXWIFI_TX_PAYLOAD_SIZE ->
  let fc' := dump_node fc h' n e in
  total_payload_size (rx_stats fc') = total_payload_size (rx_stats fc)
  /\ total_caplen (rx_stats fc') = total_caplen (rx_stats fc)
  /\ capture_state (rx_stats fc') = capture_state (rx_stats fc)
  /\ total_writelen (rx_stats fc') = total_writelen (rx_stats fc) + DXWIFI_TX_PAYLOAD_SIZE
  /\ total_noise_added (rx_stats fc) <= total_noise_added (rx_stats fc')
  /\ Z.of_nat (length (fd fc')) - Z.of_nat (length (fd fc))
     = DXWIFI_TX_PAYLOAD_SIZE
       + (total_noise_added (rx_stats fc') - total_noise_added (rx_stats fc)).
Proof.
  intros HP. unfold dump_node.
  cbn [rx_stats total_payload_size total_caplen capture_state total_writelen
       total_noise_added fd].
  repeat split; try lia; try nia.
  rewrite !length_app, concat_repeat_length, repeat_length, read_bytes_length. nia.
Qed.

Lemma dump_loop_account (k : nat) :
  0 <= DXWIFI_TX_PAYLOAD_SIZE ->
  forall fc e, (length (tree (packet_heap fc)) < S k)%nat ->
  let fc' := dump_loop (S k) fc e in
  total_payload_size (rx_stats fc') = total_payload_size (rx_stats fc)
  /\ total_caplen (rx_stats fc') = total_caplen (rx_stats fc)
  /\ capture_state (rx_stats fc') = capture_state (rx_stats fc)
  /\ total_writelen (rx_stats fc')
     = total_writelen (rx_stats fc)
       + DXWIFI_TX_PAYLOAD_SIZE * Z.of_nat (length (tree (packet_heap fc)))
  /\ total_noise_added (rx_stats fc) <= total_noise_added (rx_stats fc')
  /\ Z.of_nat (length (fd fc')) - Z.of_nat (length (fd fc))
     = (total_writelen (rx_stats fc') - total_writelen (rx_stats fc))
       + (total_noise_added (rx_stats fc') - total_noise_added (rx_stats fc)).
Proof.
  intros HP. induction k as [|k IH]; intros fc e Hlen fc'; subst fc';
    destruct (tree (packet_heap fc)) as [|n l] eqn:Ht.
  - rewrite dump_loop_stop by exact Ht. cbn [length]. repeat split; lia.
  - simpl in Hlen. lia.
  - rewrite dump_loop_stop by exact Ht. cbn [length]. repeat split; lia.
  - rewrite (dump_loop_step _ _ _ _ _ Ht).
    set (h' := {| tree := l; root_slot := root_slot (packet_heap fc) |}).
    pose proof (dump_node_account fc h' n e HP) as Hn. cbv zeta in Hn.
    specialize (IH (dump_node fc h' n e) (to_int32 (frame_number n + 1))).
    cbv zeta in IH.
    assert (tree (packet_heap (dump_node fc h' n e)) = l) as Hl by reflexivity.
    rewrite Hl in IH. specialize (IH ltac:(simpl in Hlen; lia)).
    cbn [length]. rewrite Nat2Z.inj_succ.
    destruct Hn as (N1 & N2 & N3 & N4 & N5 & N6).
    destruct IH as (I1 & I2 & I3 & I4 & I5 & I6).
    repeat split; try congruence; try lia.
Qed.

Lemma dump_packet_buffer_account (fc : frame_controller) :
  0 <= DXWIFI_TX_PAYLOAD_SIZE ->
  let fc' := dump_packet_buffer fc in
  total_payload_size (rx_stats fc') = total_payload_size (rx_stats fc)
  /\ total_caplen (rx_stats fc') = total_caplen (rx_stats fc)
  /\ capture_state (rx_stats fc') = capture_state (rx_stats fc)
  /\ total_writelen (rx_stats fc')
     = total_writelen (rx_stats fc)
       + DXWIFI_TX_PAYLOAD_SIZE * Z.of_nat (heap_count (packet_heap fc))
  /\ total_noise_added (rx_stats fc) <= total_noise_added (rx_stats fc')
  /\ Z.of_nat (length (fd fc')) - Z.of_nat (length (fd fc))
     = (total_writelen (rx_stats fc') - total_writelen (rx_stats fc))
       + (total_noise_added (rx_stats fc') - total_noise_added (rx_stats fc))
  /\ num_packets_processed (rx_stats fc') = num_packets_processed (rx_stats fc)
  /\ bad_crcs (rx_stats fc') = bad_crcs (rx_stats fc)
  /\ packets_dropped (rx_stats fc') = packets_dropped (rx_stats fc).
Proof.
  intros HP fc'. subst fc'. unfold dump_packet_buffer.
  cbn [set_index rx_stats fd].
  pose proof (dump_loop_account (heap_count (packet_heap fc)) HP fc
                (frame_number (heap_root (packet_heap fc))) (Nat.lt_succ_diag_r _)) as H.
  pose proof (dump_loop_frame (heap_count (packet_heap fc)) fc
                (frame_number (heap_root (packet_heap fc))) (Nat.lt_succ_diag_r _)) as F.
  cbv zeta in H, F. unfold heap_count in *. intuition.
Qed.
End Accounts.

(** ** What the frame controller keeps between two frames *)

Section Reach.
Context {build : dxwifi_build}.

Lemma heap_insert_length (lt : packet_heap_node -> packet_heap_node -> bool)
      (n : packet_heap_node) (l : list packet_heap_node) :
  length (heap_insert lt n l) = S (length l).
Proof.
  induction l as [|m l IH]; cbn [heap_insert length]; [reflexivity|].
  destruct (lt n m); cbn [length]; [reflexivity|]. now rewrite IH.
Qed.

Lemma set_flags_self (fc : frame_controller) :
  set_flags fc (eot_reached fc) (preamble_recv fc) (end_capture fc) = fc.
Proof. destruct fc; reflexivity. Qed.

(** The three ways of [process_frame]: the frame is rejected and counted as
    dropped; or it is a control or unknown frame and at most flags change,
    never back to false; or it is staged by the data path. *)
Lemma process_frame_cases (r : dxwifi_receiver) (fc : frame_controller) (f : captured_frame) :
  rx fc = r -> 0 < DXWIFI_TX_PAYLOAD_SIZE < 2 ^ 31 -> sane_frame f ->
  (is_rejected r f = true /\ is_data_frame r f = false
   /\ process_frame fc f = set_stats fc (count_drop (rx_stats fc)))
  \/ (is_rejected r f = false /\ is_data_frame r f = false
      /\ exists a b c,
          process_frame fc f = set_flags fc a b c
          /\ (eot_reached fc = true -> a = true)
          /\ (preamble_recv fc = true -> b = true)
          /\ (end_capture fc = true -> c = true)
          /\ (c = true -> end_capture fc = true
                          \/ (b = true /\ 0 < num_packets_processed (rx_stats fc))))
  \/ (is_rejected r f = false /\ is_data_frame r f = true
      /\ data_payload_size f = DXWIFI_TX_PAYLOAD_SIZE
      /\ process_frame fc f
         = append_frame (set_stats fc (set_rtap (rx_stats fc)
                                                (parse_radiotap_header (frame f) (caplen f)))) f).
Proof.
  intros Hr HP Hf. unfold is_rejected.
  destruct (bool_cases (is_data_frame r f)) as [Hd|Hd].
  - right. right. destruct (process_frame_data r fc f Hr Hd HP Hf) as [Hs E].
    unfold is_data_frame in Hd. apply andb_true_iff in Hd as [Hv Hc].
    rewrite Hv. unfold is_data_frame. rewrite Hv, Hc. repeat split; assumption.
  - unfold is_data_frame in Hd. rewrite <- Hr in *.
    destruct (bool_cases (verify_sender f (sender_addr (rx fc))
                                        (wrap 32 (max_hamming_dist (rx fc))))) as [Hv|Hv].
    + right. left. rewrite Hv in Hd. unfold is_data_frame. rewrite Hv.
      split; [reflexivity|]. split; [exact Hd|].
      destruct (control_cases (check_frame_control f check_threshold_066))
        as [Hc|[Hc|[Hc|Hc]]]; rewrite Hc in Hd; try discriminate Hd;
        unfold process_frame; rewrite Hv, Hc.
      * exists (eot_reached fc), (preamble_recv fc), (end_capture fc).
        rewrite set_flags_self. repeat split; auto.
      * cbn [handle_frame_control].
        destruct (Z.ltb_spec 0 (num_packets_processed (rx_stats fc))).
        -- exists (eot_reached fc), true, true. repeat split; auto.
        -- exists (eot_reached fc), true, (end_capture fc). repeat split; auto.
      * cbn [handle_frame_control].
        exists true, (preamble_recv fc), (end_capture fc). repeat split; auto.
    + left. unfold is_data_frame. rewrite Hv. repeat split.
      unfold process_frame. now rewrite Hv.
Qed.

Lemma append_frame_fields (fc : frame_controller) (f : captured_frame) :
  rx (append_frame fc f) = rx fc
  /\ pb_size (append_frame fc f) = pb_size fc
  /\ eot_reached (append_frame fc f) = eot_reached fc
  /\ preamble_recv (append_frame fc f) = preamble_recv fc
  /\ end_capture (append_frame fc f) = end_capture fc
  /\ num_packets_processed (rx_stats (append_frame fc f))
     = num_packets_processed (rx_stats fc) + 1
  /\ packets_dropped (rx_stats (append_frame fc f)) = packets_dropped (rx_stats fc)
  /\ bad_crcs (rx_stats (append_frame fc f))
     = bad_crcs (rx_stats fc) + (if check_crc f then 1 else 0).
Proof.
  unfold append_frame.
  destruct (pb_size fc <=? wrap 64 (index fc + DXWIFI_TX_PAYLOAD_SIZE)).
  - pose proof (dump_loop_frame (heap_count (packet_heap fc)) fc
                  (frame_number (heap_root (packet_heap fc))) (Nat.lt_succ_diag_r _)) as F.
    cbv zeta in F. unfold stage_frame, dump_packet_buffer.
    cbn [rx pb_size eot_reached preamble_recv end_capture rx_stats num_packets_processed
         packets_dropped bad_crcs set_index].
    destruct F as (_ & _ & _ & F1 & _ & F2 & F3 & F4 & F5 & F6 & F7 & F8).
    rewrite F1, F2, F3, F4, F5, F6, F7, F8.
    destruct (check_crc f); repeat split.
  - unfold stage_frame.
    cbn [rx pb_size eot_reached preamble_recv end_capture rx_stats num_packets_processed
         packets_dropped bad_crcs].
    destruct (check_crc f); repeat split.
Qed.

Lemma accounting_same (r : dxwifi_receiver) (fc fc' : frame_controller) :
  same_staging fc fc' ->
  total_payload_size (rx_stats fc') = total_payload_size (rx_stats fc) ->
  num_packets_processed (rx_stats fc') = num_packets_processed (rx_stats fc) ->
  total_writelen (rx_stats fc') = total_writelen (rx_stats fc) ->
  total_noise_added (rx_stats fc') = total_noise_added (rx_stats fc) ->
  accounting_inv r fc -> accounting_inv r fc'.
Proof.
  intros (E1 & E2 & E3 & E4 & E5 & E6) S1 S2 S3 S4. unfold accounting_inv.
  now rewrite E1, E3, E4, E5, E6, S1, S2, S3, S4.
Qed.

Lemma accounting_dump (r : dxwifi_receiver) (fc : frame_controller) :
  0 < DXWIFI_TX_PAYLOAD_SIZE -> 0 <= packet_buffer_size r ->
  accounting_inv r fc -> accounting_inv r (dump_packet_buffer fc).
Proof.
  intros HP Hpb (Hr & Hs & Hi & HA & HF & HB & HC & HD & HN).
  destruct (dump_packet_buffer_frame fc) as (Dt & Db & Ds & Di & Dr).
  pose proof (dump_packet_buffer_account fc ltac:(lia)) as H. cbv zeta in H.
  destruct H as (A1 & A2 & A3 & A4 & A5 & A6 & A7 & A8 & A9).
  unfold accounting_inv, heap_count. rewrite Dt, Ds, Di, Dr, A1, A7. cbn [length].
  unfold heap_count in *.
  repeat split; try assumption; try lia.
Qed.

Lemma accounting_stage (r : dxwifi_receiver) (fc : frame_controller) (f : captured_frame) :
  0 < DXWIFI_TX_PAYLOAD_SIZE -> sane_frame f ->
  data_payload_size f = DXWIFI_TX_PAYLOAD_SIZE ->
  index fc + DXWIFI_TX_PAYLOAD_SIZE <= packet_buffer_size r ->
  packet_buffer_size r < 2 ^ 63 ->
  accounting_inv r fc -> accounting_inv r (stage_frame fc f).
Proof.
  intros HP Hf Hsize Hfit Hmax (Hr & Hs & Hi & HA & HF & HB & HC & HD & HN).
  assert (DXWIFI_TX_PAYLOAD_SIZE <= caplen f) as Hcap.
  { revert Hsize. unfold data_payload_size, fcs_off, payload_off.
    pose proof (it_len_range f). unfold sizeof_ieee80211_hdr, IEEE80211_FCS_SIZE.
    destruct DXWIFI_TESTS; lia. }
  assert (wrap 64 (index fc + caplen f) = index fc + caplen f) as Hw.
  { unfold wrap. apply Z.mod_small. unfold sane_frame in Hf.
    change (2 ^ 63) with 9223372036854775808 in *.
    change (2 ^ 32) with 4294967296 in *.
    change (2 ^ 64) with 18446744073709551616. lia. }
  unfold accounting_inv, stage_frame, heap_count in *.
  cbn [rx pb_size index packet_heap heap_push tree rx_stats total_payload_size
       num_packets_processed total_writelen total_noise_added fd].
  rewrite Hw, heap_insert_length, Nat2Z.inj_succ, Hsize.
  unfold sane_frame in Hf. change (2 ^ 63) with 9223372036854775808 in *.
  repeat split; try assumption; try lia; try nia.
Qed.

Lemma accounting_append (r : dxwifi_receiver) (fc : frame_controller) (f : captured_frame) :
  sane_sizes r -> sane_frame f ->
  data_payload_size f = DXWIFI_TX_PAYLOAD_SIZE ->
  accounting_inv r fc -> accounting_inv r (append_frame fc f).
Proof.
  intros ((HP0 & HP1) & (Hsz0 & Hsz1)) Hf Hsize Hinv.
  assert (pb_size fc = packet_buffer_size r /\ 0 <= index fc < 2 ^ 63 + 2 ^ 32)
    as (Hpb & Hi) by (split; apply Hinv).
  unfold append_frame. rewrite Hpb.
  replace (wrap 64 (index fc + DXWIFI_TX_PAYLOAD_SIZE))
    with (index fc + DXWIFI_TX_PAYLOAD_SIZE).
  2:{ unfold wrap. symmetry. apply Z.mod_small.
      change (2 ^ 63) with 9223372036854775808 in *.
      change (2 ^ 32) with 4294967296 in *.
      change (2 ^ 31) with 2147483648 in *.
      change (2 ^ 64) with 18446744073709551616. lia. }
  destruct (Z.leb_spec (packet_buffer_size r) (index fc + DXWIFI_TX_PAYLOAD_SIZE))
    as [Hfull|Hroom].
  - assert (index (dump_packet_buffer fc) = 0) as Hidx by apply dump_packet_buffer_frame.
    apply (accounting_stage r _ f HP0 Hf Hsize); [rewrite Hidx; lia|exact Hsz1|].
    apply accounting_dump; [exact HP0|lia|exact Hinv].
  - apply (accounting_stage r _ f HP0 Hf Hsize); [lia|exact Hsz1|exact Hinv].
Qed.

Lemma accounting_process (r : dxwifi_receiver) (fc : frame_controller) (f : captured_frame) :
  sane_sizes r -> sane_frame f ->
  accounting_inv r fc -> accounting_inv r (process_frame fc f).
Proof.
  intros Hsane Hf Hinv. assert (rx fc = r) as Hr by apply Hinv.
  destruct (process_frame_cases r fc f Hr (proj1 Hsane) Hf)
    as [(_ & _ & E)|[(_ & _ & a & b & c & E & _)|(_ & _ & Hsize & E)]]; rewrite E.
  - apply (accounting_same r fc); try reflexivity; [repeat split|exact Hinv].
  - apply (accounting_same r fc); try reflexivity; [repeat split|exact Hinv].
  - apply (accounting_append r _ f Hsane Hf Hsize).
    apply (accounting_same r fc); try reflexivity; [repeat split|exact Hinv].
Qed.

Lemma accounting_run (r : dxwifi_receiver) (fs : list captured_frame) :
  sane_sizes r -> Forall sane_frame fs ->
  forall fc, accounting_inv r fc -> accounting_inv r (run_frames fc fs).
Proof.
  intros Hsane. induction fs as [|f fs IH]; intros Hfs fc Hinv; [exact Hinv|].
  rewrite run_frames_cons. apply IH; [exact (Forall_inv_tail Hfs)|].
  apply accounting_process; [exact Hsane|exact (Forall_inv Hfs)|exact Hinv].
Qed.

Lemma accounting_init (r : dxwifi_receiver) (slot : packet_heap_node) :
  0 <= packet_buffer_size r ->
  accounting_inv r (init_frame_controller r slot).
Proof.
  intros H. unfold accounting_inv, init_frame_controller, heap_count.
  cbn [rx pb_size index packet_heap init_heap tree rx_stats zero_stats total_payload_size
       num_packets_processed total_writelen total_noise_added fd length].
  repeat split; lia.
Qed.

End Reach.

(** ** Which blocks reach the sink *)

Section Delivered.
Context {build : dxwifi_build}.

Lemma dump_node_blocks (fc : frame_controller) (h' : binary_heap)
      (n : packet_heap_node) (e : Z) :
  exists runs : nat,
    fd (dump_node fc h' n e)
    = fd fc ++ concat (repeat (noise_block (rx fc)) runs)
            ++ read_bytes (packet_buffer fc) (data n) DXWIFI_TX_PAYLOAD_SIZE
    /\ total_noise_added (rx_stats (dump_node fc h' n e))
       = total_noise_added (rx_stats fc) + Z.of_nat runs * DXWIFI_TX_PAYLOAD_SIZE
    /\ packet_buffer (dump_node fc h' n e) = packet_buffer fc
    /\ rx (dump_node fc h' n e) = rx fc
    /\ packet_heap (dump_node fc h' n e) = h'.
Proof.
  unfold dump_node. cbn [fd rx_stats total_noise_added packet_buffer rx packet_heap].
  eexists. repeat split.
Qed.

(** A flush writes the block of every heap node once, and besides only
    blocks of noise, which it counts in [total_noise_added]. *)
Lemma dump_loop_blocks (k : nat) :
  forall fc e, (length (tree (packet_heap fc)) < S k)%nat ->
  exists (blocks : list (list byte)) (runs : nat),
    fd (dump_loop (S k) fc e) = fd fc ++ concat blocks
    /\ Permutation blocks
         (map (fun n => read_bytes (packet_buffer fc) (data n) DXWIFI_TX_PAYLOAD_SIZE)
              (tree (packet_heap fc))
          ++ repeat (noise_block (rx fc)) runs)
    /\ total_noise_added (rx_stats (dump_loop (S k) fc e))
       = total_noise_added (rx_stats fc) + Z.of_nat runs * DXWIFI_TX_PAYLOAD_SIZE.
Proof.
  induction k as [|k IH]; intros fc e Hlen;
    destruct (tree (packet_heap fc)) as [|n l] eqn:Ht.
  - rewrite dump_loop_stop by exact Ht. exists [], O. cbn [map concat repeat app Z.of_nat].
    rewrite app_nil_r. repeat split; [constructor|lia].
  - simpl in Hlen. lia.
  - rewrite dump_loop_stop by exact Ht. exists [], O. cbn [map concat repeat app Z.of_nat].
    rewrite app_nil_r. repeat split; [constructor|lia].
  - rewrite (dump_loop_step _ _ _ _ _ Ht).
    set (h' := {| tree := l; root_slot := root_slot (packet_heap fc) |}).
    destruct (dump_node_blocks fc h' n e) as (m & N1 & N2 & N3 & N4 & N5).
    destruct (IH (dump_node fc h' n e) (to_int32 (frame_number n + 1)))
      as (bs & runs & I1 & I2 & I3).
    { rewrite N5. cbn [tree h']. simpl in Hlen. lia. }
    rewrite N3, N4, N5 in I2. cbn [tree h'] in I2.
    exists (repeat (noise_block (rx fc)) m
            ++ read_bytes (packet_buffer fc) (data n) DXWIFI_TX_PAYLOAD_SIZE :: bs),
           (m + runs)%nat.
    split; [|split].
    + rewrite I1, N1, concat_app. cbn [concat]. now rewrite <- !app_assoc.
    + cbn [map app]. rewrite <- Permutation_middle. constructor.
      rewrite I2, repeat_app.
      rewrite (Permutation_app_comm (repeat (noise_block (rx fc)) m)), <- app_assoc.
      apply Permutation_app_head. apply Permutation_app_comm.
    + rewrite I3, N2. lia.
Qed.

Lemma dump_packet_buffer_blocks (fc : frame_controller) :
  exists (blocks : list (list byte)) (runs : nat),
    fd (dump_packet_buffer fc) = fd fc ++ concat blocks
    /\ Permutation blocks
         (map (fun n => read_bytes (packet_buffer fc) (data n) DXWIFI_TX_PAYLOAD_SIZE)
              (tree (packet_heap fc))
          ++ repeat (noise_block (rx fc)) runs)
    /\ total_noise_added (rx_stats (dump_packet_buffer fc))
       = total_noise_added (rx_stats fc) + Z.of_nat runs * DXWIFI_TX_PAYLOAD_SIZE.
Proof.
  unfold dump_packet_buffer. cbn [set_index fd rx_stats].
  apply dump_loop_blocks. unfold heap_count. lia.
Qed.

Lemma delivery_dump (r : dxwifi_receiver) (fc : frame_controller)
      (flushed : list captured_frame) (staged : list (captured_frame * Z)) (runs : nat) :
  delivery_inv r fc flushed staged runs ->
  exists runs',
    delivery_inv r (dump_packet_buffer fc) (flushed ++ map fst staged) [] runs'.
Proof.
  intros (Hr & Hs & Hl & Hi & Ht & Hall & (bs0 & Hfd & Hperm) & Hn).
  destruct (dump_packet_buffer_frame fc) as (Dt & Db & Ds & Di & Dr).
  destruct (dump_packet_buffer_blocks fc) as (bs & m & B1 & B2 & B3).
  exists (runs + m)%nat. unfold delivery_inv.
  rewrite Dt, Db, Ds, Di, Dr, B1, B3, Hn.
  split; [exact Hr|]. split; [exact Hs|]. split; [exact Hl|]. split; [lia|].
  split; [constructor|]. split; [constructor|]. split; [|lia].
  exists (bs0 ++ bs). split; [now rewrite Hfd, concat_app|].
  rewrite Hperm, B2, Hr.
  assert (Permutation
            (map (fun n => read_bytes (packet_buffer fc) (data n) DXWIFI_TX_PAYLOAD_SIZE)
                 (tree (packet_heap fc)))
            (map payload (map fst staged))) as ->.
  { rewrite <- (map_map data (fun i => read_bytes (packet_buffer fc) i DXWIFI_TX_PAYLOAD_SIZE)).
    rewrite Ht, !map_map. 
    replace (map (fun x => read_bytes (packet_buffer fc) (snd x) DXWIFI_TX_PAYLOAD_SIZE) staged)
      with (map (fun x => payload (fst x)) staged); [reflexivity|].
    apply map_ext_in. intros p Hp. rewrite Forall_forall in Hall. symmetry. apply (Hall p Hp). }
  rewrite map_app, repeat_app, <- !app_assoc.
  apply Permutation_app_head.
  rewrite (app_assoc (repeat _ runs)), (Permutation_app_comm (repeat _ runs)), <- app_assoc.
  reflexivity.
Qed.

Lemma delivery_stage (r : dxwifi_receiver) (fc : frame_controller)
      (flushed : list captured_frame) (staged : list (captured_frame * Z)) (runs : nat)
      (f : captured_frame) :
  0 < DXWIFI_TX_PAYLOAD_SIZE ->
  sane_frame f -> data_payload_size f = DXWIFI_TX_PAYLOAD_SIZE ->
  index fc + DXWIFI_TX_PAYLOAD_SIZE <= packet_buffer_size r ->
  packet_buffer_size r < 2 ^ 63 ->
  delivery_inv r fc flushed staged runs ->
  delivery_inv r (stage_frame fc f) flushed (staged ++ [(f, index fc)]) runs.
Proof.
  intros HP Hf Hsize Hfit Hmax (Hr & Hs & Hl & Hi & Ht & Hall & Hw & Hn).
  assert (DXWIFI_TX_PAYLOAD_SIZE <= caplen f) as Hcap.
  { revert Hsize. unfold data_payload_size, fcs_off, payload_off.
    pose proof (it_len_range f). unfold sizeof_ieee80211_hdr, IEEE80211_FCS_SIZE.
    destruct DXWIFI_TESTS; lia. }
  assert (wrap 64 (index fc + caplen f) = index fc + caplen f) as Hwrap.
  { unfold wrap. apply Z.mod_small. unfold sane_frame in Hf.
    change (2 ^ 63) with 9223372036854775808 in *.
    change (2 ^ 32) with 4294967296 in *.
    change (2 ^ 64) with 18446744073709551616. lia. }
  unfold delivery_inv, stage_frame.
  cbn [rx pb_size packet_buffer index packet_heap heap_push tree fd rx_stats
       total_noise_added].
  rewrite write_bytes_length, Hwrap.
  split; [exact Hr|]. split; [exact Hs|]. split; [exact Hl|].
  split; [unfold sane_frame in Hf; change (2 ^ 63) with 9223372036854775808 in *; lia|].
  split; [|split; [|split; [exact Hw|exact Hn]]].
  - rewrite heap_insert_insert_by, <- insert_by_perm. cbn [map data].
    rewrite map_app. cbn [map snd]. rewrite Ht. apply Permutation_cons_append.
  - apply Forall_app. split.
    + eapply Forall_impl; [|exact Hall]. cbv beta. intros p (H0 & H1 & H2 & H3).
      repeat split; try lia.
      rewrite read_bytes_below by lia. exact H3.
    + constructor; [|constructor]. cbn [fst snd]. repeat split; try lia.
      rewrite <- (payload_length f HP) at 1.
      apply read_bytes_written; [lia|]. rewrite payload_length by exact HP. lia.
Qed.

Lemma delivery_same (r : dxwifi_receiver) (fc fc' : frame_controller)
      (flushed : list captured_frame) (staged : list (captured_frame * Z)) (runs : nat) :
  same_staging fc fc' ->
  total_noise_added (rx_stats fc') = total_noise_added (rx_stats fc) ->
  delivery_inv r fc flushed staged runs -> delivery_inv r fc' flushed staged runs.
Proof.
  intros (E1 & E2 & E3 & E4 & E5 & E6) En. unfold delivery_inv.
  now rewrite E1, E2, E3, E4, E5, E6, En.
Qed.

Lemma delivery_append (r : dxwifi_receiver) (fc1 : frame_controller)
      (flushed : list captured_frame) (staged : list (captured_frame * Z)) (runs : nat)
      (f : captured_frame) :
  sane_sizes r -> sane_frame f ->
  data_payload_size f = DXWIFI_TX_PAYLOAD_SIZE ->
  delivery_inv r fc1 flushed staged runs ->
  exists flushed' staged' runs',
    delivery_inv r (append_frame fc1 f) flushed' staged' runs'
    /\ flushed' ++ map fst staged' = (flushed ++ map fst staged) ++ [f].
Proof.
  intros ((HP0 & HP1) & (Hsz0 & Hsz1)) Hf Hsize Hinv1.
  assert (pb_size fc1 = packet_buffer_size r) as Hpb1 by apply Hinv1.
  assert (0 <= index fc1 < 2 ^ 63 + 2 ^ 32) as Hi by apply Hinv1.
  unfold append_frame. rewrite Hpb1.
  replace (wrap 64 (index fc1 + DXWIFI_TX_PAYLOAD_SIZE))
    with (index fc1 + DXWIFI_TX_PAYLOAD_SIZE).
  2:{ unfold wrap. symmetry. apply Z.mod_small.
      change (2 ^ 63) with 9223372036854775808 in *.
      change (2 ^ 32) with 4294967296 in *.
      change (2 ^ 31) with 2147483648 in *.
      change (2 ^ 64) with 18446744073709551616. lia. }
  destruct (Z.leb_spec (packet_buffer_size r) (index fc1 + DXWIFI_TX_PAYLOAD_SIZE))
    as [Hfull|Hroom].
  - destruct (delivery_dump r fc1 flushed staged runs Hinv1) as (runs' & Hinv2).
    assert (index (dump_packet_buffer fc1) = 0) as Hidx2 by apply dump_packet_buffer_frame.
    exists (flushed ++ map fst staged), [(f, index (dump_packet_buffer fc1))], runs'.
    split; [|reflexivity].
    apply (delivery_stage r _ _ [] runs' f HP0 Hf Hsize); [rewrite Hidx2; lia|exact Hsz1|].
    exact Hinv2.
  - exists flushed, (staged ++ [(f, index fc1)]), runs.
    split; [|now rewrite map_app, app_assoc].
    apply (delivery_stage r _ _ staged runs f HP0 Hf Hsize); [lia|exact Hsz1|exact Hinv1].
Qed.

Lemma delivery_process (r : dxwifi_receiver) (fc : frame_controller)
      (flushed : list captured_frame) (staged : list (captured_frame * Z)) (runs : nat)
      (f : captured_frame) :
  sane_sizes r -> sane_frame f ->
  delivery_inv r fc flushed staged runs ->
  exists flushed' staged' runs',
    delivery_inv r (process_frame fc f) flushed' staged' runs'
    /\ flushed' ++ map fst staged'
       = (flushed ++ map fst staged) ++ (if is_data_frame r f then [f] else []).
Proof.
  intros Hsane Hf Hinv.
  assert (rx fc = r) as Hr by apply Hinv.
  destruct (process_frame_cases r fc f Hr ltac:(apply Hsane) Hf)
    as [(_ & Hd & E)|[(_ & Hd & a & b & c & E & _)|(_ & Hd & Hsize & E)]];
    rewrite Hd, E; clear E Hd.
  - exists flushed, staged, runs. split; [|now rewrite app_nil_r].
    apply (delivery_same r fc); [apply set_stats_staging|reflexivity|exact Hinv].
  - exists flushed, staged, runs. split; [|now rewrite app_nil_r].
    apply (delivery_same r fc); [repeat split|reflexivity|exact Hinv].
  - apply (delivery_append r _ flushed staged runs f Hsane Hf Hsize).
    apply (delivery_same r fc); [apply set_stats_staging|reflexivity|exact Hinv].
Qed.

Lemma filter_cons_app {A : Type} (p : A -> bool) (x : A) (l : list A) :
  filter p (x :: l) = (if p x then [x] else []) ++ filter p l.
Proof. cbn [filter]. destruct (p x); reflexivity. Qed.

Lemma delivery_run (r : dxwifi_receiver) :
  sane_sizes r ->
  forall fs fc flushed staged runs,
    Forall sane_frame fs -> delivery_inv r fc flushed staged runs ->
    exists flushed' staged' runs',
      delivery_inv r (run_frames fc fs) flushed' staged' runs'
      /\ flushed' ++ map fst staged'
         = (flushed ++ map fst staged) ++ filter (is_data_frame r) fs.
Proof.
  intros Hsane. induction fs as [|f fs IH]; intros fc flushed staged runs Hfs Hinv.
  - exists flushed, staged, runs. rewrite run_frames_nil. split; [exact Hinv|].
    cbn [filter]. now rewrite app_nil_r.
  - rewrite run_frames_cons.
    destruct (delivery_process r fc flushed staged runs f Hsane (Forall_inv Hfs) Hinv)
      as (fl1 & st1 & r1 & Hinv1 & E1).
    destruct (IH _ fl1 st1 r1 (Forall_inv_tail Hfs) Hinv1) as (fl2 & st2 & r2 & Hinv2 & E2).
    exists fl2, st2, r2. split; [exact Hinv2|].
    rewrite E2, E1, filter_cons_app, <- app_assoc. reflexivity.
Qed.

Lemma delivery_init (r : dxwifi_receiver) (slot : packet_heap_node) :
  0 <= packet_buffer_size r ->
  delivery_inv r (init_frame_controller r slot) [] [] 0.
Proof.
  intros H. unfold delivery_inv, init_frame_controller.
  cbn [rx pb_size packet_buffer index packet_heap init_heap tree rx_stats zero_stats
       total_noise_added map fd].
  rewrite repeat_length. repeat split; try lia; try constructor.
  exists []. split; [reflexivity|constructor].
Qed.

End Delivered.

(** ** Counters of a capture *)

Section Tally.
Context {build : dxwifi_build}.

Lemma append_frame_caplen (fc : frame_controller) (f : captured_frame) :
  0 <= DXWIFI_TX_PAYLOAD_SIZE ->
  total_caplen (rx_stats (append_frame fc f)) = total_caplen (rx_stats fc) + caplen f.
Proof.
  intros HP. unfold append_frame.
  destruct (pb_size fc <=? wrap 64 (index fc + DXWIFI_TX_PAYLOAD_SIZE)).
  - pose proof (dump_packet_buffer_account fc HP) as H. cbv zeta in H.
    unfold stage_frame. cbn [rx_stats total_caplen]. now rewrite (proj1 (proj2 H)).
  - reflexivity.
Qed.

(** What a run of frames adds to the counters of [process_frame]. *)
Lemma tally_run (r : dxwifi_receiver) (fs : list captured_frame) :
  0 < DXWIFI_TX_PAYLOAD_SIZE < 2 ^ 31 -> Forall sane_frame fs ->
  forall fc, rx fc = r ->
  rx (run_frames fc fs) = r
  /\ num_packets_processed (rx_stats (run_frames fc fs))
     = num_packets_processed (rx_stats fc) + count_frames (is_data_frame r) fs
  /\ packets_dropped (rx_stats (run_frames fc fs))
     = packets_dropped (rx_stats fc) + count_frames (is_rejected r) fs
  /\ bad_crcs (rx_stats (run_frames fc fs))
     = bad_crcs (rx_stats fc)
       + count_frames (fun f => is_data_frame r f && check_crc f) fs
  /\ total_caplen (rx_stats (run_frames fc fs))
     = total_caplen (rx_stats fc) + sum_caplen (filter (is_data_frame r) fs).
Proof.
  intros HP. unfold count_frames.
  induction fs as [|f fs IH]; intros Hfs fc Hr.
  - rewrite run_frames_nil. cbn [filter length sum_caplen fold_right].
    repeat split; try assumption; lia.
  - pose proof (Forall_inv Hfs) as Hf. pose proof (Forall_inv_tail Hfs) as Hrest.
    rewrite run_frames_cons. cbn [filter].
    destruct (process_frame_cases r fc f Hr HP Hf)
      as [(Hj & Hd & E)|[(Hj & Hd & a & b & c & E & _)|(Hj & Hd & Hsize & E)]];
      rewrite Hj, Hd, E; clear E; cbn [andb].
    + destruct (IH Hrest (set_stats fc (count_drop (rx_stats fc))) Hr)
        as (I0 & I1 & I2 & I3 & I4).
      rewrite I1, I2, I3, I4.
      cbn [set_stats rx_stats count_drop num_packets_processed packets_dropped bad_crcs
           total_caplen length].
      repeat split; try assumption; lia.
    + destruct (IH Hrest (set_flags fc a b c) Hr) as (I0 & I1 & I2 & I3 & I4).
      rewrite I1, I2, I3, I4.
      cbn [set_flags rx_stats]. repeat split; try assumption; lia.
    + set (fc1 := set_stats fc (set_rtap (rx_stats fc)
                                         (parse_radiotap_header (frame f) (caplen f)))).
      destruct (append_frame_fields fc1 f) as (F0 & _ & _ & _ & _ & F1 & F2 & F3).
      destruct (IH Hrest (append_frame fc1 f)) as (I0 & I1 & I2 & I3 & I4).
      { rewrite F0. exact Hr. }
      rewrite I1, I2, I3, I4, F1, F2, F3, append_frame_caplen by lia.
      subst fc1.
      cbn [set_stats rx_stats set_rtap num_packets_processed packets_dropped bad_crcs
           total_caplen].
      destruct (check_crc f); cbn [length sum_caplen fold_right];
        fold (sum_caplen (filter (is_data_frame r) fs));
        repeat split; try assumption; lia.
Qed.

(** X1: [num_packets_processed] counts the frames that pass the sender test
    and are classified as data, [packets_dropped] the frames the sender test
    rejects, [bad_crcs] the data frames whose [crc_valid] is set, and
    [total_caplen] adds up the capture lengths of the data frames; control
    and unknown frames are counted nowhere. *)
Theorem counters_tally (r : dxwifi_receiver) (slot : packet_heap_node)
        (fs : list captured_frame) :
  0 < DXWIFI_TX_PAYLOAD_SIZE < 2 ^ 31 -> Forall sane_frame fs ->
  let s := rx_stats (run_frames (init_frame_controller r slot) fs) in
  num_packets_processed s = count_frames (is_data_frame r) fs
  /\ packets_dropped s = count_frames (is_rejected r) fs
  /\ bad_crcs s = count_frames (fun f => is_data_frame r f && check_crc f) fs
  /\ total_caplen s = sum_caplen (filter (is_data_frame r) fs).
Proof.
  intros HP Hfs s. subst s.
  destruct (tally_run r fs HP Hfs (init_frame_controller r slot) eq_refl)
    as (_ & I1 & I2 & I3 & I4).
  rewrite I1, I2, I3, I4. cbn [init_frame_controller rx_stats zero_stats
    num_packets_processed packets_dropped bad_crcs total_caplen]. repeat split; lia.
Qed.

(** X2: the heap never holds more nodes than blocks fit into the packet
    buffer, so a heap with room for [packet_buffer_size / block size] nodes is
    never pushed beyond its capacity. *)
Theorem heap_fits_buffer (r : dxwifi_receiver) (slot : packet_heap_node)
        (fs : list captured_frame) :
  sane_sizes r -> Forall sane_frame fs ->
  Z.of_nat (heap_count (packet_heap (run_frames (init_frame_controller r slot) fs)))
  <= packet_buffer_size r / DXWIFI_TX_PAYLOAD_SIZE.
Proof.
  intros Hsane Hfs.
  assert (0 <= packet_buffer_size r) as H0 by (destruct Hsane as [[? ?] [? ?]]; lia).
  pose proof (accounting_run r fs Hsane Hfs _ (accounting_init r slot H0)) as Hinv.
  destruct Hinv as (_ & _ & _ & _ & HF & _).
  apply Z.div_le_lower_bound; [apply Hsane|]. lia.
Qed.


End Tally.

(** ** Flags of the frame controller *)

Section Flags.
Context {build : dxwifi_build}.

Lemma stage_or_skip_fields (fc : frame_controller) (f : captured_frame) (skip : bool) :
  let fc' := if skip then fc else append_frame fc f in
  eot_reached fc' = eot_reached fc /\ preamble_recv fc' = preamble_recv fc
  /\ end_capture fc' = end_capture fc
  /\ num_packets_processed (rx_stats fc) <= num_packets_processed (rx_stats fc').
Proof.
  destruct skip; cbv zeta; [repeat split; lia|].
  destruct (append_frame_fields fc f) as (_ & _ & F1 & F2 & F3 & F4 & _).
  rewrite F1, F2, F3, F4. repeat split; lia.
Qed.

(** One frame: no flag goes back to false, [end_capture] is only set together
    with [preamble_recv] when packets have been processed, and the packet
    counter does not go down. *)
Lemma process_frame_flags (fc : frame_controller) (f : captured_frame) :
  (eot_reached fc = true -> eot_reached (process_frame fc f) = true)
  /\ (preamble_recv fc = true -> preamble_recv (process_frame fc f) = true)
  /\ (end_capture fc = true -> end_capture (process_frame fc f) = true)
  /\ (end_capture (process_frame fc f) = true ->
      end_capture fc = true
      \/ (preamble_recv (process_frame fc f) = true
          /\ 0 < num_packets_processed (rx_stats fc)))
  /\ num_packets_processed (rx_stats fc)
     <= num_packets_processed (rx_stats (process_frame fc f)).
Proof.
  destruct (bool_cases (verify_sender f (sender_addr (rx fc))
                                      (wrap 32 (max_hamming_dist (rx fc))))) as [Hv|Hv].
  - destruct (control_cases (check_frame_control f check_threshold_066))
      as [Hc|[Hc|[Hc|Hc]]]; unfold process_frame; rewrite Hv, Hc.
    + repeat split; auto; lia.
    + pose proof (stage_or_skip_fields
                    (set_stats fc (set_rtap (rx_stats fc)
                                            (parse_radiotap_header (frame f) (caplen f))))
                    f (negb (data_payload_size f =? DXWIFI_TX_PAYLOAD_SIZE))) as H.
      cbv zeta in H. destruct H as (F1 & F2 & F3 & F4).
      rewrite F1, F2, F3. cbn [set_stats eot_reached preamble_recv end_capture].
      repeat split; auto.
    + cbn [handle_frame_control].
      destruct (Z.ltb_spec 0 (num_packets_processed (rx_stats fc)));
        cbn [set_flags eot_reached preamble_recv end_capture rx_stats];
        repeat split; auto; lia.
    + cbn [handle_frame_control set_flags eot_reached preamble_recv end_capture rx_stats].
      repeat split; auto; lia.
  - unfold process_frame. rewrite Hv.
    cbn [set_stats eot_reached preamble_recv end_capture rx_stats count_drop
         num_packets_processed].
    repeat split; auto; lia.
Qed.

(** X4: during a capture the flags [eot_reached], [preamble_recv] and
    [end_capture] are only ever set, never cleared. *)
Theorem flags_never_cleared (fs : list captured_frame) (fc : frame_controller) :
  (eot_reached fc = true -> eot_reached (run_frames fc fs) = true)
  /\ (preamble_recv fc = true -> preamble_recv (run_frames fc fs) = true)
  /\ (end_capture fc = true -> end_capture (run_frames fc fs) = true).
Proof.
  revert fc. induction fs as [|f fs IH]; intros fc; [rewrite run_frames_nil; auto|].
  rewrite run_frames_cons. destruct (IH (process_frame fc f)) as (I1 & I2 & I3).
  destruct (process_frame_flags fc f) as (P1 & P2 & P3 & _).
  repeat split; auto.
Qed.

Lemma end_capture_run (fs : list captured_frame) :
  forall fc,
    0 <= num_packets_processed (rx_stats fc) ->
    (end_capture fc = true ->
     preamble_recv fc = true /\ 0 < num_packets_processed (rx_stats fc)) ->
    0 <= num_packets_processed (rx_stats (run_frames fc fs))
    /\ (end_capture (run_frames fc fs) = true ->
        preamble_recv (run_frames fc fs) = true
        /\ 0 < num_packets_processed (rx_stats (run_frames fc fs))).
Proof.
  induction fs as [|f fs IH]; intros fc H0 Hinv; [rewrite run_frames_nil; auto|].
  rewrite run_frames_cons.
  destruct (process_frame_flags fc f) as (_ & P2 & _ & P4 & P5).
  apply IH; [lia|]. intros He. destruct (P4 He) as [Hold|[Hp Hn]].
  - destruct (Hinv Hold). split; [auto|lia].
  - split; [exact Hp|lia].
Qed.

(** X5: [end_capture] is set only by a preamble that arrives after at least
    one data frame has been processed; a capture that starts with preambles,
    or sees EOT frames only, never ends by itself. *)
Theorem end_capture_needs_preamble_after_data (r : dxwifi_receiver)
        (slot : packet_heap_node) (fs : list captured_frame) :
  end_capture (run_frames (init_frame_controller r slot) fs) = true ->
  preamble_recv (run_frames (init_frame_controller r slot) fs) = true
  /\ 0 < num_packets_processed (rx_stats (run_frames (init_frame_controller r slot) fs)).
Proof.
  apply (end_capture_run fs (init_frame_controller r slot)).
  - cbn. lia.
  - cbn. discriminate.
Qed.

End Flags.

(** ** The end of the capture loop *)

Section LoopExit.
Context {build : dxwifi_build}.

Lemma capture_loop_inactive (evs : list poll_outcome) (fc : frame_controller) :
  capture_loop evs false fc = Some fc.
Proof. destruct evs; reflexivity. Qed.

(** X6: a timeout always ends the capture: with a timeout among the poll
    outcomes [receiver_activate_capture] returns, whatever else happens. *)
Theorem timeout_ends_capture (r : dxwifi_receiver) (slot : packet_heap_node)
        (evs : list poll_outcome) :
  In PollTimeout evs -> exists fc, receiver_activate_capture r slot evs = Some fc.
Proof.
  intros Hin. unfold receiver_activate_capture.
  assert (forall activated fc0, exists fc1, capture_loop evs activated fc0 = Some fc1) as H.
  { induction evs as [|ev evs IH]; [contradiction|]. intros activated fc0.
    cbn [capture_loop]. destruct (activated && negb (end_capture fc0)); [|eauto].
    destruct Hin as [->|Hin].
    - cbn [capture_turn]. rewrite capture_loop_inactive. eauto.
    - destruct (capture_turn ev fc0) as [a fc1]. apply (IH Hin). }
  destruct (H true (init_frame_controller r slot)) as [fc1 ->]. eauto.
Qed.

Lemma dump_loop_capture_state (k : nat) :
  forall fc e,
    capture_state (rx_stats (dump_loop k fc e)) = capture_state (rx_stats fc).
Proof.
  induction k as [|k IH]; intros fc e; cbn [dump_loop]; [reflexivity|].
  destruct (heap_pop (packet_heap fc)) as [[n h']|]; [|reflexivity].
  rewrite IH. reflexivity.
Qed.

Lemma process_frame_capture_state (fc : frame_controller) (f : captured_frame) :
  capture_state (rx_stats (process_frame fc f)) = capture_state (rx_stats fc).
Proof.
  destruct (bool_cases (verify_sender f (sender_addr (rx fc))
                                      (wrap 32 (max_hamming_dist (rx fc))))) as [Hv|Hv].
  - destruct (control_cases (check_frame_control f check_threshold_066))
      as [Hc|[Hc|[Hc|Hc]]]; unfold process_frame; rewrite Hv, Hc.
    + reflexivity.
    + destruct (negb (data_payload_size f =? DXWIFI_TX_PAYLOAD_SIZE)); [reflexivity|].
      unfold append_frame, stage_frame. cbn [rx_stats capture_state].
      destruct (pb_size _ <=? _); [|reflexivity].
      unfold dump_packet_buffer. cbn [set_index rx_stats].
      now rewrite dump_loop_capture_state.
    + cbn [handle_frame_control]. destruct (0 <? _); reflexivity.
    + reflexivity.
  - unfold process_frame. rewrite Hv. reflexivity.
Qed.

Lemma run_frames_capture_state (fs : list captured_frame) :
  forall fc, capture_state (rx_stats (run_frames fc fs)) = capture_state (rx_stats fc).
Proof.
  induction fs as [|f fs IH]; intros fc; [reflexivity|].
  now rewrite run_frames_cons, IH, process_frame_capture_state.
Qed.

(** X7: the capture state never goes back to NORMAL: processing frames leaves
    it alone, and a poll error the loop survives still marks the finished
    capture, unless a timeout or a deactivation overwrites it. *)
Theorem capture_state_never_back_to_normal (evs : list poll_outcome) (activated : bool)
        (fc fc' : frame_controller) :
  capture_loop evs activated fc = Some fc' ->
  capture_state (rx_stats fc) <> DXWIFI_RX_NORMAL ->
  capture_state (rx_stats (dump_packet_buffer fc')) <> DXWIFI_RX_NORMAL.
Proof.
  unfold dump_packet_buffer. cbn [set_index rx_stats]. rewrite dump_loop_capture_state.
  revert activated fc. induction evs as [|ev evs IH]; intros activated fc;
    cbn [capture_loop]; destruct (activated && negb (end_capture fc));
    try discriminate; try (intros E; injection E as <-; auto).
  destruct (capture_turn ev fc) as [a fc1] eqn:Hturn. intros Hloop Hs.
  apply (IH a fc1 Hloop).
  destruct ev as [|stopped|batch status stopped]; cbn [capture_turn] in Hturn.
  - injection Hturn as <- <-. cbn. discriminate.
  - destruct stopped; injection Hturn as <- <-; cbn; discriminate.
  - fold (run_frames fc batch) in Hturn.
    destruct (DXWIFI_TESTS && (status =? 0)); injection Hturn as <- <-.
    + cbn. discriminate.
    + now rewrite run_frames_capture_state.
Qed.

End LoopExit.

(** ** The threshold of the sender test *)

Section Thresholds.
Context {build : dxwifi_build}.

Lemma addr_dist_range (mem : list byte) (off : Z) (expected : list byte) :
  0 <= addr_dist mem off expected <= 48.
Proof.
  rewrite addr_dist_hamming.
  pose proof (hamming_bits_range (read_bytes mem off 6) (read_bytes expected 0 6)) as H.
  rewrite read_bytes_length in H. change (Z.of_nat (Z.to_nat 6)) with 6 in H. lia.
Qed.

Lemma verify_sender_zero (f : captured_frame) (expected : list byte) :
  verify_sender f expected 0 = false.
Proof.
  unfold verify_sender.
  pose proof (addr_dist_range (frame f) (mac_hdr_off f + offsetof_addr1) expected).
  pose proof (addr_dist_range (frame f) (mac_hdr_off f + offsetof_addr2) expected).
  pose proof (addr_dist_range (frame f) (mac_hdr_off f + offsetof_addr3) expected).
  cbv zeta.
  destruct (Z.ltb_spec (addr_dist (frame f) (mac_hdr_off f + offsetof_addr1) expected) 0);
    [lia|].
  destruct (Z.ltb_spec (addr_dist (frame f) (mac_hdr_off f + offsetof_addr2) expected) 0);
    [lia|].
  destruct (Z.ltb_spec (addr_dist (frame f) (mac_hdr_off f + offsetof_addr3) expected) 0);
    [lia|reflexivity].
Qed.

(** X8: raising the threshold never rejects a frame that was accepted; a
    threshold of 0 rejects every frame, even one whose three addresses all
    match exactly, and a threshold above 48 accepts every frame. *)
Theorem verify_sender_threshold (f : captured_frame) (expected : list byte) (t t' : Z) :
  (t <= t' -> verify_sender f expected t = true -> verify_sender f expected t' = true)
  /\ (t <= 0 -> verify_sender f expected t = false)
  /\ (48 < t -> verify_sender f expected t = true).
Proof.
  unfold verify_sender.
  pose proof (addr_dist_range (frame f) (mac_hdr_off f + offsetof_addr1) expected).
  pose proof (addr_dist_range (frame f) (mac_hdr_off f + offsetof_addr2) expected).
  pose proof (addr_dist_range (frame f) (mac_hdr_off f + offsetof_addr3) expected).
  set (d1 := addr_dist (frame f) (mac_hdr_off f + offsetof_addr1) expected) in *.
  set (d2 := addr_dist (frame f) (mac_hdr_off f + offsetof_addr2) expected) in *.
  set (d3 := addr_dist (frame f) (mac_hdr_off f + offsetof_addr3) expected) in *.
  cbv zeta.
  destruct (Z.ltb_spec d1 t); destruct (Z.ltb_spec d2 t); destruct (Z.ltb_spec d3 t);
    destruct (Z.ltb_spec d1 t'); destruct (Z.ltb_spec d2 t'); destruct (Z.ltb_spec d3 t');
    cbn [orb]; repeat split; intros; try reflexivity; try discriminate; lia.
Qed.

(** X9: a receiver whose [max_hamming_dist] is 0 (or any multiple of 2^32)
    drops every frame: nothing is staged or written, the flags stay as they
    are and [packets_dropped] grows by the number of frames. *)
Theorem zero_distance_drops_all (fc : frame_controller) (fs : list captured_frame) :
  wrap 32 (max_hamming_dist (rx fc)) = 0 ->
  same_staging fc (run_frames fc fs)
  /\ eot_reached (run_frames fc fs) = eot_reached fc
  /\ preamble_recv (run_frames fc fs) = preamble_recv fc
  /\ end_capture (run_frames fc fs) = end_capture fc
  /\ num_packets_processed (rx_stats (run_frames fc fs)) = num_packets_processed (rx_stats fc)
  /\ packets_dropped (rx_stats (run_frames fc fs))
     = packets_dropped (rx_stats fc) + Z.of_nat (length fs).
Proof.
  revert fc. induction fs as [|f fs IH]; intros fc Hz.
  - rewrite run_frames_nil. cbn [length]. repeat split. lia.
  - rewrite run_frames_cons.
    assert (process_frame fc f = set_stats fc (count_drop (rx_stats fc))) as E.
    { unfold process_frame. rewrite Hz.
      now rewrite verify_sender_zero. }
    rewrite E.
    destruct (IH (set_stats fc (count_drop (rx_stats fc))) Hz)
      as ((S1 & S2 & S3 & S4 & S5 & S6) & F1 & F2 & F3 & N & D).
    cbn [set_stats packet_heap packet_buffer pb_size index rx fd eot_reached preamble_recv
         end_capture rx_stats count_drop num_packets_processed packets_dropped] in *.
    repeat split; try assumption. rewrite D. cbn [length]. lia.
Qed.

End Thresholds.

(** ** The bytes the classifier counts *)

Section Window.
Context {build : dxwifi_build}.

(** X10: the classifier counts sentinels among the first
    [DXWIFI_TX_PAYLOAD_SIZE] bytes of the payload but divides by the control
    frame size.  So when 100 * DXWIFI_TX_PAYLOAD_SIZE <= 66 *
    DXWIFI_FRAME_CONTROL_SIZE no frame is ever classified as EOT or
    PREAMBLE, and in general a control-size frame whose counted bytes are all
    EOT (PREAMBLE) sentinels is classified as EOT (PREAMBLE) exactly when
    66 * DXWIFI_FRAME_CONTROL_SIZE < 100 * DXWIFI_TX_PAYLOAD_SIZE. *)
Theorem control_frames_need_wide_window (f : captured_frame) :
  0 < DXWIFI_FRAME_CONTROL_SIZE < 2 ^ 16 -> 0 < DXWIFI_TX_PAYLOAD_SIZE < 2 ^ 16 ->
  PREAMBLE_value <> EOT_value ->
  let type := check_frame_control f check_threshold_066 in
  let wide := 66 * DXWIFI_FRAME_CONTROL_SIZE <? 100 * DXWIFI_TX_PAYLOAD_SIZE in
  (wide = false ->
   type <> DXWIFI_CONTROL_FRAME_EOT /\ type <> DXWIFI_CONTROL_FRAME_PREAMBLE)
  /\ (classifier_payload_size f = DXWIFI_FRAME_CONTROL_SIZE ->
      Forall (fun b => b = EOT_value) (payload f) ->
      type = if wide then DXWIFI_CONTROL_FRAME_EOT else DXWIFI_CONTROL_FRAME_UNKNOWN)
  /\ (classifier_payload_size f = DXWIFI_FRAME_CONTROL_SIZE ->
      Forall (fun b => b = PREAMBLE_value) (payload f) ->
      type = if wide then DXWIFI_CONTROL_FRAME_PREAMBLE else DXWIFI_CONTROL_FRAME_UNKNOWN).
Proof.
  intros HC HP Hsent type wide.
  assert (Z.of_nat (length (payload f)) = DXWIFI_TX_PAYLOAD_SIZE) as Hlen
      by (apply payload_length; lia).
  pose proof (occurrences_range EOT_value (payload f)) as He.
  pose proof (occurrences_range PREAMBLE_value (payload f)) as Hp.
  assert (forall b l, Forall (fun x => x = b) l -> occurrences b l = Z.of_nat (length l)) as Hall.
  { intros b l H. unfold occurrences. induction H as [|x l -> _ IH]; [reflexivity|].
    cbn [filter].
    destruct (Byte.eqb b b) eqn:Hb; [cbn [length]; lia|].
    exfalso. pose proof (@Byte.byte_dec_lb b b eq_refl). congruence. }
  assert (forall b c l, b <> c -> Forall (fun x => x = b) l -> occurrences c l = 0) as Hnone.
  { intros b c l Hbc H. unfold occurrences. induction H as [|x l -> _ IH]; [reflexivity|].
    cbn [filter].
    destruct (Byte.eqb b c) eqn:Hb; [apply Byte.byte_dec_bl in Hb; contradiction|exact IH]. }
  assert (classifier_payload_size f = DXWIFI_FRAME_CONTROL_SIZE ->
          type = if 66 * DXWIFI_FRAME_CONTROL_SIZE <? 100 * occurrences EOT_value (payload f)
                 then DXWIFI_CONTROL_FRAME_EOT
                 else if 66 * DXWIFI_FRAME_CONTROL_SIZE
                         <? 100 * occurrences PREAMBLE_value (payload f)
                      then DXWIFI_CONTROL_FRAME_PREAMBLE
                      else DXWIFI_CONTROL_FRAME_UNKNOWN) as Hctl.
  { intros Hs. subst type. unfold check_frame_control.
    rewrite Hs, Z.eqb_refl. unfold count_sentinels.
    rewrite (count_sentinels_occurrences _ Hsent). cbn [Z.add].
    rewrite !ratio_exceeds_exact by lia. reflexivity. }
  split; [|split].
  - intros Hw. subst wide. apply Z.ltb_ge in Hw.
    destruct (Z.eq_dec (classifier_payload_size f) DXWIFI_FRAME_CONTROL_SIZE) as [Hs|Hs].
    + rewrite (Hctl Hs).
      destruct (Z.ltb_spec (66 * DXWIFI_FRAME_CONTROL_SIZE)
                           (100 * occurrences EOT_value (payload f))); [lia|].
      destruct (Z.ltb_spec (66 * DXWIFI_FRAME_CONTROL_SIZE)
                           (100 * occurrences PREAMBLE_value (payload f))); [lia|].
      split; discriminate.
    + subst type. unfold check_frame_control.
      destruct (Z.eqb_spec (classifier_payload_size f) DXWIFI_FRAME_CONTROL_SIZE);
        [contradiction|].
      destruct (negb _); split; discriminate.
  - intros Hs Hf. rewrite (Hctl Hs), (Hall _ _ Hf), Hlen. subst wide.
    destruct (66 * DXWIFI_FRAME_CONTROL_SIZE <? 100 * DXWIFI_TX_PAYLOAD_SIZE) eqn:Hw;
      [reflexivity|].
    rewrite (Hnone EOT_value PREAMBLE_value _ (fun E => Hsent (eq_sym E)) Hf).
    destruct (Z.ltb_spec (66 * DXWIFI_FRAME_CONTROL_SIZE) (100 * 0)); [lia|reflexivity].
  - intros Hs Hf. rewrite (Hctl Hs), (Hall _ _ Hf), Hlen.
    rewrite (Hnone PREAMBLE_value EOT_value _ Hsent Hf). subst wide.
    destruct (Z.ltb_spec (66 * DXWIFI_FRAME_CONTROL_SIZE) (100 * 0)); [lia|reflexivity].
Qed.

End Window.

(** ** Flushing twice, and the fields of a data frame *)

Section DataPath.
Context {build : dxwifi_build}.

(** X11: a second flush right after a flush changes nothing: the heap is
    empty, so nothing is written or counted and the write index is 0 already. *)
Theorem dump_packet_buffer_twice (fc : frame_controller) :
  dump_packet_buffer (dump_packet_buffer fc) = dump_packet_buffer fc.
Proof.
  destruct (dump_packet_buffer_frame fc) as (Dt & _).
  rewrite (dump_packet_buffer_empty _ Dt).
  unfold dump_packet_buffer at 1 2. reflexivity.
Qed.

(** X12: the size test that [process_frame] repeats on a frame classified as
    data never fails for a frame that libpcap can deliver, so every such
    frame is staged and counted: it adds one to [num_packets_processed], its
    [caplen] to [total_caplen] and one block to [total_payload_size]. *)
Theorem data_frame_always_staged (fc : frame_controller) (f : captured_frame) :
  0 < DXWIFI_TX_PAYLOAD_SIZE < 2 ^ 31 -> sane_frame f ->
  verify_sender f (sender_addr (rx fc)) (wrap 32 (max_hamming_dist (rx fc))) = true ->
  check_frame_control f check_threshold_066 = DXWIFI_CONTROL_FRAME_NONE ->
  let fc' := process_frame fc f in
  num_packets_processed (rx_stats fc') = num_packets_processed (rx_stats fc) + 1
  /\ total_caplen (rx_stats fc') = total_caplen (rx_stats fc) + caplen f
  /\ total_payload_size (rx_stats fc')
     = total_payload_size (rx_stats fc) + DXWIFI_TX_PAYLOAD_SIZE
  /\ heap_count (packet_heap fc') = S (if pb_size fc <=? wrap 64 (index fc + DXWIFI_TX_PAYLOAD_SIZE)
                                       then O else heap_count (packet_heap fc)).
Proof.
  intros HP Hf Hv Hn fc'. subst fc'.
  pose proof (none_payload_size f _ HP Hf Hn) as Hsize.
  unfold process_frame. rewrite Hv, Hn, Hsize, Z.eqb_refl. cbn [negb].
  unfold append_frame.
  cbn [set_stats pb_size index].
  destruct (pb_size fc <=? wrap 64 (index fc + DXWIFI_TX_PAYLOAD_SIZE)).
  - set (fc1 := set_stats fc _).
    destruct (dump_packet_buffer_frame fc1) as (Dt & _).
    pose proof (dump_packet_buffer_account fc1 ltac:(lia)) as A. cbv zeta in A.
    destruct A as (A1 & A2 & _ & _ & _ & _ & A7 & _ & _).
    unfold stage_frame, heap_count.
    cbn [rx_stats num_packets_processed total_caplen total_payload_size packet_heap heap_push
         tree].
    rewrite heap_insert_length, Dt. cbn [length].
    rewrite Hsize, A1, A2, A7. repeat split.
  - unfold stage_frame, heap_count.
    cbn [rx_stats num_packets_processed total_caplen total_payload_size packet_heap heap_push
         tree set_stats set_rtap].
    rewrite heap_insert_length, Hsize. repeat split.
Qed.

(** X13: in a frame classified as data the fields [parse_rx_frame_fields]
    points to lie inside the captured bytes: the MAC header starts at or
    after byte 0, the payload follows it and ends where the FCS begins, at or
    before [caplen]; the byte [*rx_frame.fcs] that is compared with the CRC
    lies inside the capture exactly when the build is not a DXWIFI_TESTS
    build. *)
Theorem data_frame_fields_in_bounds (f : captured_frame) :
  0 < DXWIFI_TX_PAYLOAD_SIZE < 2 ^ 31 -> sane_frame f ->
  check_frame_control f check_threshold_066 = DXWIFI_CONTROL_FRAME_NONE ->
  0 <= mac_hdr_off f
  /\ mac_hdr_off f + sizeof_ieee80211_hdr = payload_off f
  /\ payload_off f + DXWIFI_TX_PAYLOAD_SIZE = fcs_off f
  /\ fcs_off f <= caplen f
  /\ (fcs_off f < caplen f <-> DXWIFI_TESTS = false).
Proof.
  intros HP Hf Hn. pose proof (none_payload_size f _ HP Hf Hn) as Hsize.
  pose proof (it_len_range f) as Hit.
  unfold data_payload_size in Hsize. unfold mac_hdr_off, payload_off in *.
  unfold fcs_off in *. unfold IEEE80211_FCS_SIZE in *.
  destruct DXWIFI_TESTS; repeat split; try lia; try discriminate; intros; lia.
Qed.

End DataPath.

(** ** Unordered mode *)

Section Unordered.
Context {build : dxwifi_build}.

Lemma heap_insert_last (n : packet_heap_node) (l : list packet_heap_node) :
  Forall (fun m => frame_number m <= frame_number n) l ->
  heap_insert order_by_frame_number_desc n l = l ++ [n].
Proof.
  induction 1 as [|m l Hm _ IH]; cbn [heap_insert app]; [reflexivity|].
  unfold order_by_frame_number_desc at 1.
  destruct (Z.ltb_spec (frame_number n) (frame_number m)); [lia|]. now rewrite IH.
Qed.

Lemma dump_node_unordered (fc : frame_controller) (h' : binary_heap)
      (n : packet_heap_node) (e : Z) :
  ordered (rx fc) = false ->
  fd (dump_node fc h' n e)
  = fd fc ++ read_bytes (packet_buffer fc) (data n) DXWIFI_TX_PAYLOAD_SIZE
  /\ total_blocks_lost (rx_stats (dump_node fc h' n e)) = total_blocks_lost (rx_stats fc)
  /\ total_noise_added (rx_stats (dump_node fc h' n e)) = total_noise_added (rx_stats fc).
Proof.
  intros Ho. unfold dump_node.
  cbn [fd rx_stats total_blocks_lost total_noise_added]. rewrite Ho. cbn [andb].
  repeat split. cbn. lia.
Qed.

(** In unordered mode a flush writes the blocks of the heap nodes in the
    order the heap hands them out, and counts neither loss nor noise. *)
Lemma dump_loop_unordered (k : nat) :
  forall fc e, ordered (rx fc) = false ->
  (length (tree (packet_heap fc)) < S k)%nat ->
  fd (dump_loop (S k) fc e)
  = fd fc ++ concat (map (fun n => read_bytes (packet_buffer fc) (data n) DXWIFI_TX_PAYLOAD_SIZE)
                         (tree (packet_heap fc)))
  /\ total_blocks_lost (rx_stats (dump_loop (S k) fc e)) = total_blocks_lost (rx_stats fc)
  /\ total_noise_added (rx_stats (dump_loop (S k) fc e)) = total_noise_added (rx_stats fc).
Proof.
  induction k as [|k IH]; intros fc e Ho Hlen;
    destruct (tree (packet_heap fc)) as [|n l] eqn:Ht.
  - rewrite dump_loop_stop by exact Ht. cbn [map concat]. now rewrite app_nil_r.
  - simpl in Hlen. lia.
  - rewrite dump_loop_stop by exact Ht. cbn [map concat]. now rewrite app_nil_r.
  - rewrite (dump_loop_step _ _ _ _ _ Ht).
    set (h' := {| tree := l; root_slot := root_slot (packet_heap fc) |}).
    destruct (dump_node_unordered fc h' n e Ho) as (N1 & N2 & N3).
    destruct (IH (dump_node fc h' n e) (to_int32 (frame_number n + 1)))
      as (I1 & I2 & I3).
    + exact Ho.
    + cbn [dump_node packet_heap tree h']. simpl in Hlen. lia.
    + rewrite I1, I2, I3, N1, N2, N3. cbn [map concat].
      rewrite <- app_assoc. repeat split.
Qed.

Lemma dump_packet_buffer_unordered (fc : frame_controller) :
  ordered (rx fc) = false ->
  fd (dump_packet_buffer fc)
  = fd fc ++ concat (map (fun n => read_bytes (packet_buffer fc) (data n) DXWIFI_TX_PAYLOAD_SIZE)
                         (tree (packet_heap fc)))
  /\ total_blocks_lost (rx_stats (dump_packet_buffer fc)) = total_blocks_lost (rx_stats fc)
  /\ total_noise_added (rx_stats (dump_packet_buffer fc)) = total_noise_added (rx_stats fc).
Proof.
  intros Ho. unfold dump_packet_buffer. cbn [set_index fd rx_stats].
  apply dump_loop_unordered; [exact Ho|]. unfold heap_count. lia.
Qed.

Lemma arrival_blocks (r : dxwifi_receiver) (fc : frame_controller)
      (staged : list (captured_frame * Z)) :
  arrival_inv r fc staged ->
  concat (map (fun n => read_bytes (packet_buffer fc) (data n) DXWIFI_TX_PAYLOAD_SIZE)
              (tree (packet_heap fc)))
  = payloads (map fst staged).
Proof.
  intros (_ & _ & _ & _ & Ht & _ & _ & Hall). unfold payloads.
  rewrite <- (map_map data (fun i => read_bytes (packet_buffer fc) i DXWIFI_TX_PAYLOAD_SIZE)).
  rewrite Ht, !map_map. f_equal. apply map_ext_in. intros p Hp.
  rewrite Forall_forall in Hall. apply (Hall p Hp).
Qed.

Lemma dump_packet_buffer_arrival (r : dxwifi_receiver) (fc : frame_controller)
      (staged : list (captured_frame * Z)) :
  ordered r = false -> 0 < DXWIFI_TX_PAYLOAD_SIZE ->
  arrival_inv r fc staged ->
  arrival_inv r (dump_packet_buffer fc) []
  /\ fd (dump_packet_buffer fc) = fd fc ++ payloads (map fst staged)
  /\ total_blocks_lost (rx_stats (dump_packet_buffer fc)) = total_blocks_lost (rx_stats fc)
  /\ total_noise_added (rx_stats (dump_packet_buffer fc)) = total_noise_added (rx_stats fc)
  /\ num_packets_processed (rx_stats (dump_packet_buffer fc))
     = num_packets_processed (rx_stats fc).
Proof.
  intros Ho HP Hinv. pose proof (arrival_blocks r fc staged Hinv) as Hb.
  destruct Hinv as (Hr & Hs & Hl & Hi & Ht & Hk & Hn & Hall).
  destruct (dump_packet_buffer_frame fc) as (Dt & Db & Ds & Di & Dr).
  destruct (dump_packet_buffer_unordered fc ltac:(rewrite Hr; exact Ho)) as (U1 & U2 & U3).
  pose proof (dump_packet_buffer_account fc ltac:(lia)) as A. cbv zeta in A.
  destruct A as (_ & _ & _ & _ & _ & _ & A7 & _ & _).
  split; [|split; [now rewrite U1, Hb|repeat split; assumption]].
  unfold arrival_inv. rewrite Dt, Db, Ds, Di, Dr, A7.
  repeat split; try assumption; try lia; constructor.
Qed.

Lemma stage_frame_arrival (r : dxwifi_receiver) (fc : frame_controller)
      (staged : list (captured_frame * Z)) (f : captured_frame) :
  ordered r = false -> 0 < DXWIFI_TX_PAYLOAD_SIZE ->
  sane_frame f -> data_payload_size f = DXWIFI_TX_PAYLOAD_SIZE ->
  index fc + DXWIFI_TX_PAYLOAD_SIZE <= packet_buffer_size r ->
  packet_buffer_size r < 2 ^ 63 ->
  num_packets_processed (rx_stats fc) < 2 ^ 31 ->
  arrival_inv r fc staged ->
  arrival_inv r (stage_frame fc f) (staged ++ [(f, index fc)])
  /\ fd (stage_frame fc f) = fd fc
  /\ index (stage_frame fc f) = index fc + caplen f
  /\ total_blocks_lost (rx_stats (stage_frame fc f)) = total_blocks_lost (rx_stats fc)
  /\ total_noise_added (rx_stats (stage_frame fc f)) = total_noise_added (rx_stats fc)
  /\ num_packets_processed (rx_stats (stage_frame fc f))
     = num_packets_processed (rx_stats fc) + 1.
Proof.
  intros Hord HP Hf Hsize Hfit Hmax Hcount (Hr & Hs & Hl & Hi & Ht & Hk & Hn & Hall).
  assert (DXWIFI_TX_PAYLOAD_SIZE <= caplen f) as Hcap.
  { revert Hsize. unfold data_payload_size, fcs_off, payload_off.
    pose proof (it_len_range f). unfold sizeof_ieee80211_hdr, IEEE80211_FCS_SIZE.
    destruct DXWIFI_TESTS; lia. }
  assert (wrap 64 (index fc + caplen f) = index fc + caplen f) as Hw.
  { unfold wrap. apply Z.mod_small. unfold sane_frame in Hf.
    change (2 ^ 63) with 9223372036854775808 in *.
    change (2 ^ 32) with 4294967296 in *.
    change (2 ^ 64) with 18446744073709551616. lia. }
  unfold stage_frame.
  cbn [fd index rx_stats total_blocks_lost total_noise_added num_packets_processed].
  rewrite Hw. split; [|repeat split].
  unfold arrival_inv.
  cbn [rx pb_size packet_buffer index packet_heap heap_push tree rx_stats
       num_packets_processed].
  rewrite write_bytes_length, Hr, Hord.
  rewrite (to_int32_small (num_packets_processed (rx_stats fc)))
    by (change (2 ^ 31) with 2147483648 in *; lia).
  rewrite heap_insert_last
    by (cbn [frame_number]; eapply Forall_impl; [|exact Hk]; cbv beta; intros; lia).
  split; [reflexivity|]. split; [exact Hs|]. split; [exact Hl|].
  split; [unfold sane_frame in Hf; change (2 ^ 63) with 9223372036854775808 in *; lia|].
  split; [now rewrite !map_app, Ht|].
  split.
  { apply Forall_app. split.
    - eapply Forall_impl; [|exact Hk]. cbv beta. intros; lia.
    - constructor; [cbn [frame_number]; lia|constructor]. }
  split; [lia|].
  apply Forall_app. split.
  - eapply Forall_impl; [|exact Hall]. cbv beta. intros p (H0 & H1 & H2 & H3).
    repeat split; try lia.
    rewrite read_bytes_below by lia. exact H3.
  - constructor; [|constructor]. cbn [fst snd]. repeat split; try lia.
    rewrite <- (payload_length f HP) at 1.
    apply read_bytes_written; [lia|]. rewrite payload_length by exact HP. lia.
Qed.

Lemma arrival_same (r : dxwifi_receiver) (fc fc' : frame_controller)
      (staged : list (captured_frame * Z)) :
  same_staging fc fc' ->
  num_packets_processed (rx_stats fc') = num_packets_processed (rx_stats fc) ->
  arrival_inv r fc staged -> arrival_inv r fc' staged.
Proof.
  intros (E1 & E2 & E3 & E4 & E5 & E6) En. unfold arrival_inv.
  now rewrite E1, E2, E3, E4, E5, En.
Qed.

(** A data frame in unordered mode is staged behind the frames already
    staged, after a flush when the buffer is full. *)
Lemma arrival_append (r : dxwifi_receiver) (fc1 : frame_controller)
      (staged : list (captured_frame * Z)) (f : captured_frame) :
  ordered r = false -> sane_sizes r -> sane_frame f ->
  data_payload_size f = DXWIFI_TX_PAYLOAD_SIZE ->
  arrival_inv r fc1 staged ->
  num_packets_processed (rx_stats fc1) < 2 ^ 31 ->
  exists staged',
    arrival_inv r (append_frame fc1 f) staged'
    /\ fd (append_frame fc1 f) ++ payloads (map fst staged')
       = fd fc1 ++ payloads (map fst staged) ++ payload f
    /\ total_blocks_lost (rx_stats (append_frame fc1 f)) = total_blocks_lost (rx_stats fc1)
    /\ total_noise_added (rx_stats (append_frame fc1 f)) = total_noise_added (rx_stats fc1)
    /\ num_packets_processed (rx_stats (append_frame fc1 f))
       = num_packets_processed (rx_stats fc1) + 1.
Proof.
  intros Hord ((HP0 & HP1) & (Hsz0 & Hsz1)) Hf Hsize Hinv1 Hcount.
  assert (pb_size fc1 = packet_buffer_size r) as Hpb1 by apply Hinv1.
  assert (0 <= index fc1 < 2 ^ 63 + 2 ^ 32) as Hi by apply Hinv1.
  unfold append_frame. rewrite Hpb1.
  replace (wrap 64 (index fc1 + DXWIFI_TX_PAYLOAD_SIZE))
    with (index fc1 + DXWIFI_TX_PAYLOAD_SIZE).
  2:{ unfold wrap. symmetry. apply Z.mod_small.
      change (2 ^ 63) with 9223372036854775808 in *.
      change (2 ^ 32) with 4294967296 in *.
      change (2 ^ 31) with 2147483648 in *.
      change (2 ^ 64) with 18446744073709551616. lia. }
  destruct (Z.leb_spec (packet_buffer_size r) (index fc1 + DXWIFI_TX_PAYLOAD_SIZE))
    as [Hfull|Hroom].
  - destruct (dump_packet_buffer_arrival r fc1 staged Hord HP0 Hinv1)
      as (Hinv2 & Hfd2 & L2 & N2 & C2).
    assert (index (dump_packet_buffer fc1) = 0) as Hidx2 by apply dump_packet_buffer_frame.
    destruct (stage_frame_arrival r (dump_packet_buffer fc1) [] f Hord HP0 Hf Hsize
                ltac:(rewrite Hidx2; lia) Hsz1 ltac:(rewrite C2; exact Hcount) Hinv2)
      as (Hinv3 & Hfd3 & Hidx3 & L3 & N3 & C3).
    exists [(f, index (dump_packet_buffer fc1))]. split; [exact Hinv3|].
    rewrite Hfd3, Hfd2, L3, L2, N3, N2, C3, C2.
    unfold payloads. cbn [map fst concat]. rewrite app_nil_r, <- app_assoc.
    repeat split.
  - destruct (stage_frame_arrival r fc1 staged f Hord HP0 Hf Hsize
                ltac:(lia) Hsz1 Hcount Hinv1)
      as (Hinv3 & Hfd3 & Hidx3 & L3 & N3 & C3).
    exists (staged ++ [(f, index fc1)]). split; [exact Hinv3|].
    rewrite Hfd3, L3, N3, C3.
    unfold payloads. rewrite !map_app, concat_app. cbn [map fst concat].
    rewrite app_nil_r. repeat split.
Qed.

Lemma arrival_process (r : dxwifi_receiver) (fc : frame_controller)
      (staged : list (captured_frame * Z)) (f : captured_frame) :
  ordered r = false -> sane_sizes r -> sane_frame f ->
  arrival_inv r fc staged ->
  num_packets_processed (rx_stats fc) + (if is_data_frame r f then 1 else 0) <= 2 ^ 31 ->
  exists staged',
    arrival_inv r (process_frame fc f) staged'
    /\ fd (process_frame fc f) ++ payloads (map fst staged')
       = fd fc ++ payloads (map fst staged) ++ (if is_data_frame r f then payload f else [])
    /\ total_blocks_lost (rx_stats (process_frame fc f)) = total_blocks_lost (rx_stats fc)
    /\ total_noise_added (rx_stats (process_frame fc f)) = total_noise_added (rx_stats fc)
    /\ num_packets_processed (rx_stats (process_frame fc f))
       = num_packets_processed (rx_stats fc) + (if is_data_frame r f then 1 else 0).
Proof.
  intros Hord Hsane Hf Hinv Hcount.
  assert (rx fc = r) as Hr by apply Hinv.
  destruct (process_frame_cases r fc f Hr ltac:(apply Hsane) Hf)
    as [(_ & Hd & E)|[(_ & Hd & a & b & c & E & _)|(_ & Hd & Hsize & E)]];
    rewrite Hd in Hcount; rewrite Hd, E; clear E Hd.
  - exists staged. split.
    { apply (arrival_same r fc); [apply set_stats_staging|reflexivity|exact Hinv]. }
    cbn [set_stats fd rx_stats count_drop total_blocks_lost total_noise_added
         num_packets_processed].
    rewrite app_nil_r. repeat split. lia.
  - exists staged. split.
    { apply (arrival_same r fc); [repeat split|reflexivity|exact Hinv]. }
    cbn [set_flags fd rx_stats total_blocks_lost total_noise_added num_packets_processed].
    rewrite app_nil_r. repeat split. lia.
  - set (fc1 := set_stats fc (set_rtap (rx_stats fc)
                                       (parse_radiotap_header (frame f) (caplen f)))).
    destruct (arrival_append r fc1 staged f Hord Hsane Hf Hsize) as (staged' & I & O & L & N & C).
    + apply (arrival_same r fc); [apply set_stats_staging|reflexivity|exact Hinv].
    + cbn [fc1 set_stats rx_stats set_rtap num_packets_processed]. lia.
    + exists staged'. split; [exact I|]. rewrite O, L, N, C. repeat split.
Qed.

Lemma count_frames_cons {A : Type} (p : A -> bool) (x : A) (l : list A) :
  Z.of_nat (length (filter p (x :: l)))
  = (if p x then 1 else 0) + Z.of_nat (length (filter p l)).
Proof. cbn [filter]. destruct (p x); cbn [length]; lia. Qed.

Lemma payloads_filter_cons (p : captured_frame -> bool) (f : captured_frame)
      (fs : list captured_frame) :
  payloads (filter p (f :: fs)) = (if p f then payload f else []) ++ payloads (filter p fs).
Proof. unfold payloads. cbn [filter]. destruct (p f); reflexivity. Qed.

(** What a run in unordered mode adds to the sink, and what the frames still
    staged will add, are the payloads of its data frames as they arrived. *)
Lemma arrival_steps (r : dxwifi_receiver) :
  ordered r = false -> sane_sizes r ->
  forall fs fc staged,
    Forall sane_frame fs -> arrival_inv r fc staged ->
    num_packets_processed (rx_stats fc) + count_frames (is_data_frame r) fs <= 2 ^ 31 ->
    exists staged',
      arrival_inv r (run_frames fc fs) staged'
      /\ fd (run_frames fc fs) ++ payloads (map fst staged')
         = fd fc ++ payloads (map fst staged) ++ payloads (filter (is_data_frame r) fs)
      /\ total_blocks_lost (rx_stats (run_frames fc fs)) = total_blocks_lost (rx_stats fc)
      /\ total_noise_added (rx_stats (run_frames fc fs)) = total_noise_added (rx_stats fc).
Proof.
  intros Hord Hsane. unfold count_frames.
  induction fs as [|f fs IH]; intros fc staged Hfs Hinv Hcount.
  - exists staged. rewrite run_frames_nil. split; [exact Hinv|].
    cbn [filter]. unfold payloads at 3. cbn [map concat]. rewrite app_nil_r.
    repeat split.
  - pose proof (Forall_inv Hfs) as Hf. pose proof (Forall_inv_tail Hfs) as Hrest.
    pose proof (Zle_0_nat (length (filter (is_data_frame r) fs))) as Hpos.
    rewrite count_frames_cons in Hcount.
    rewrite payloads_filter_cons, run_frames_cons.
    destruct (arrival_process r fc staged f Hord Hsane Hf Hinv ltac:(lia))
      as (staged1 & Hinv1 & Hout1 & L1 & N1 & C1).
    destruct (IH (process_frame fc f) staged1 Hrest Hinv1 ltac:(rewrite C1; lia))
      as (staged' & Hinv' & Hout & L & N).
    exists staged'. split; [exact Hinv'|].
    rewrite Hout, L, N, L1, N1, app_assoc, Hout1, <- !app_assoc. repeat split.
Qed.

Lemma arrival_init (r : dxwifi_receiver) (slot : packet_heap_node) :
  0 <= packet_buffer_size r ->
  arrival_inv r (init_frame_controller r slot) [].
Proof.
  intros H. unfold arrival_inv, init_frame_controller.
  cbn [rx pb_size packet_buffer index packet_heap init_heap tree rx_stats zero_stats
       num_packets_processed map].
  rewrite repeat_length. repeat split; try lia; constructor.
Qed.


End Unordered.

(** ** Noise for missing frames *)

Section GapFill.
Context {build : dxwifi_build}.

Lemma numbers_from_length (a : Z) (n : nat) : length (numbers_from a n) = n.
Proof. revert a. induction n as [|n IH]; intros a; cbn [numbers_from length]; auto. Qed.

Lemma numbers_from_in (n : nat) :
  forall a k, In k (numbers_from a n) -> a <= k < a + Z.of_nat n.
Proof.
  induction n as [|n IH]; intros a k; cbn [numbers_from In]; [tauto|].
  intros [<-|H]; [lia|]. apply IH in H. lia.
Qed.

Lemma numbers_from_app (n m : nat) :
  forall a, numbers_from a (n + m) = numbers_from a n ++ numbers_from (a + Z.of_nat n) m.
Proof.
  induction n as [|n IH]; intros a.
  - cbn [numbers_from app Nat.add Z.of_nat]. now rewrite Z.add_0_r.
  - cbn [numbers_from app Nat.add]. rewrite IH. do 3 f_equal. lia.
Qed.

Lemma last_default {A : Type} (x : A) (l : list A) (d d' : A) :
  last (x :: l) d = last (x :: l) d'.
Proof.
  revert x. induction l as [|y l IH]; intros x; [reflexivity|].
  change (last (x :: y :: l) d) with (last (y :: l) d).
  change (last (x :: y :: l) d') with (last (y :: l) d'). apply IH.
Qed.

Lemma block_for_noise (fc : frame_controller) (nodes : list packet_heap_node) (k : Z) :
  Forall (fun n => k < frame_number n) nodes ->
  block_for fc nodes k = repeat (noise_value (rx fc)) (Z.to_nat DXWIFI_TX_PAYLOAD_SIZE).
Proof.
  intros H. unfold block_for.
  replace (find (fun n => frame_number n =? k) nodes) with (@None packet_heap_node);
    [reflexivity|].
  induction H as [|n l Hn _ IH]; cbn [find]; [reflexivity|].
  destruct (Z.eqb_spec (frame_number n) k); [lia|exact IH].
Qed.

(** One turn of the flush loop on a node numbered [e] or later: the loss
    grows by the numbers skipped, and so many blocks of noise go out before
    the block when noise is asked for. *)
Lemma dump_node_gap (fc : frame_controller) (h' : binary_heap)
      (n : packet_heap_node) (e : Z) :
  ordered (rx fc) = true ->
  0 <= frame_number n - e < 2 ^ 31 ->
  let fc' := dump_node fc h' n e in
  total_blocks_lost (rx_stats fc') = total_blocks_lost (rx_stats fc) + (frame_number n - e)
  /\ total_noise_added (rx_stats fc')
     = total_noise_added (rx_stats fc)
       + (if add_noise (rx fc) then (frame_number n - e) * DXWIFI_TX_PAYLOAD_SIZE else 0)
  /\ (add_noise (rx fc) = true ->
      fd fc' = fd fc
               ++ concat (repeat (repeat (noise_value (rx fc)) (Z.to_nat DXWIFI_TX_PAYLOAD_SIZE))
                                 (Z.to_nat (frame_number n - e)))
               ++ read_bytes (packet_buffer fc) (data n) DXWIFI_TX_PAYLOAD_SIZE)
  /\ packet_buffer fc' = packet_buffer fc /\ rx fc' = rx fc /\ packet_heap fc' = h'.
Proof.
  intros Ho Hm fc'. subst fc'. unfold dump_node.
  cbn [rx_stats total_blocks_lost total_noise_added fd packet_buffer rx packet_heap].
  rewrite Ho. cbn [andb].
  rewrite (to_int32_small (frame_number n - e))
    by (change (2 ^ 31) with 2147483648 in *; lia).
  destruct (Z.eqb_spec e (frame_number n)) as [He|He]; cbn [negb andb].
  - replace (frame_number n - e) with 0 by lia.
    change (Z.to_nat 0) with O. cbn [repeat concat Z.of_nat Z.mul].
    destruct (add_noise (rx fc)); repeat split; lia.
  - destruct (add_noise (rx fc)); repeat split; try lia; try discriminate.
Qed.

(** The flush loop on nodes numbered in strictly ascending order from [e]
    on. *)
Lemma dump_loop_gaps (nodes : list packet_heap_node) :
  forall k fc e,
    ordered (rx fc) = true ->
    tree (packet_heap fc) = nodes ->
    (length nodes < S k)%nat ->
    numbered_from e nodes ->
    let last_number := last (map frame_number nodes) (e - 1) in
    let lost := last_number + 1 - e - Z.of_nat (length nodes) in
    let fc' := dump_loop (S k) fc e in
    e - 1 <= last_number /\ 0 <= lost
    /\ total_blocks_lost (rx_stats fc') = total_blocks_lost (rx_stats fc) + lost
    /\ total_noise_added (rx_stats fc')
       = total_noise_added (rx_stats fc)
         + (if add_noise (rx fc) then lost * DXWIFI_TX_PAYLOAD_SIZE else 0)
    /\ (add_noise (rx fc) = true ->
        fd fc' = fd fc ++ concat (map (block_for fc nodes)
                                      (numbers_from e (Z.to_nat (last_number + 1 - e))))).
Proof.
  induction nodes as [|n l IH]; intros k fc e Ho Ht Hlen (Hsorted & Hall);
    intros last_number lost fc'; subst last_number lost fc'.
  - rewrite dump_loop_stop by exact Ht. cbn [map last length Z.of_nat].
    replace (e - 1 + 1 - e) with 0 by lia. change (Z.to_nat 0) with O.
    cbn [numbers_from map concat]. rewrite app_nil_r.
    destruct (add_noise (rx fc)); repeat split; lia.
  - destruct k as [|k]; [cbn [length] in Hlen; lia|].
    rewrite (dump_loop_step _ _ _ _ _ Ht).
    set (h' := {| tree := l; root_slot := root_slot (packet_heap fc) |}).
    pose proof (Forall_inv Hall) as (Hrange & Hle & Hspan).
    pose proof (Forall_inv_tail Hall) as Hall'.
    apply StronglySorted_inv in Hsorted as [Hsorted' Hhead].
    pose proof (dump_node_gap fc h' n e Ho ltac:(lia)) as G. cbv zeta in G.
    destruct G as (G1 & G2 & G3 & G4 & G5 & G6).
    set (fc1 := dump_node fc h' n e) in *.
    set (e1 := to_int32 (frame_number n + 1)).
    assert (numbered_from e1 l /\ (l <> [] -> e1 = frame_number n + 1)) as [Hnum He1].
    { destruct l as [|m l']; [split; [split; constructor|congruence]|].
      assert (e1 = frame_number n + 1) as ->.
      { apply to_int32_small. pose proof (Forall_inv Hhead) as Hm. cbv beta in Hm.
        pose proof (Forall_inv Hall') as (Hr & _ & _).
        change (2 ^ 31) with 2147483648 in *. lia. }
      split; [|reflexivity]. split; [exact Hsorted'|].
      rewrite Forall_forall in *. intros x Hx.
      specialize (Hall' x Hx). specialize (Hhead x Hx). cbv beta in *. lia. }
    destruct (IH k fc1 e1 ltac:(rewrite G5; exact Ho) ltac:(rewrite G6; reflexivity)
                 ltac:(cbn [length] in Hlen; lia) Hnum) as (I0 & Il & I1 & I2 & I3).
    rewrite I1, I2, G1, G2, G5.
    assert (last (map frame_number (n :: l)) (e - 1) + 1 - e
            = (frame_number n - e) + 1 + (last (map frame_number l) (e1 - 1) + 1 - e1)
            /\ 0 <= last (map frame_number l) (e1 - 1) + 1 - e1) as [Hlast Hpos].
    { destruct l as [|m l'].
      - cbn [map last]. lia.
      - rewrite (He1 ltac:(discriminate)) in *. cbn [map] in *.
        change (last (frame_number n :: frame_number m :: map frame_number l') (e - 1))
          with (last (frame_number m :: map frame_number l') (e - 1)).
        rewrite (last_default _ _ (e - 1) (frame_number n + 1 - 1)). lia. }
    split; [lia|]. split; [cbn [length]; lia|]. split; [cbn [length]; lia|].
    split; [destruct (add_noise (rx fc)); cbn [length]; lia|].
    intros Hn. rewrite (I3 ltac:(rewrite G5; exact Hn)), (G3 Hn), Hlast.
    rewrite <- !app_assoc. f_equal.
    rewrite !Z2Nat.inj_add by lia. change (Z.to_nat 1) with 1%nat.
    rewrite <- Nat.add_assoc, numbers_from_app, map_app, concat_app.
    rewrite Z2Nat.id by lia. replace (e + (frame_number n - e)) with (frame_number n) by lia.
    cbn [Nat.add numbers_from map concat].
    f_equal; [|f_equal].
    + rewrite <- (numbers_from_length e (Z.to_nat (frame_number n - e))) at 1.
      rewrite <- map_const. f_equal. apply map_ext_in. intros x Hx.
      apply numbers_from_in in Hx. symmetry. apply block_for_noise.
      constructor; [lia|]. eapply Forall_impl; [|exact Hhead]. cbv beta. intros; lia.
    + unfold block_for. cbn [find]. now rewrite Z.eqb_refl.
    + destruct l as [|m l'].
      * cbn [map last]. replace (e1 - 1 + 1 - e1) with 0 by lia. reflexivity.
      * rewrite (He1 ltac:(discriminate)). f_equal. apply map_ext_in. intros x Hx.
        apply numbers_from_in in Hx. unfold block_for at 1 2. cbn [find].
        destruct (Z.eqb_spec (frame_number n) x); [lia|].
        subst fc1. rewrite G4, G5. reflexivity.
Qed.

(** X15: a flush in ordered mode of a heap whose frame numbers are strictly
    ascending within a span of 2^31 counts as lost exactly the numbers
    missing between the first and the last, adds one block of noise for each
    of them when [add_noise] is set, and then the sink receives one block for
    every number from the first to the last: the payload where a frame
    carried the number, noise where none did.  Numbers missing before the
    first staged frame are never counted. *)
Theorem gaps_filled_with_noise (fc : frame_controller) (first : packet_heap_node)
        (rest : list packet_heap_node) :
  ordered (rx fc) = true ->
  tree (packet_heap fc) = first :: rest ->
  numbered_from (frame_number first) (first :: rest) ->
  let last_number := frame_number (last rest first) in
  let lost := last_number - frame_number first + 1 - Z.of_nat (length (first :: rest)) in
  let fc' := dump_packet_buffer fc in
  0 <= lost
  /\ total_blocks_lost (rx_stats fc') = total_blocks_lost (rx_stats fc) + lost
  /\ total_noise_added (rx_stats fc')
     = total_noise_added (rx_stats fc)
       + (if add_noise (rx fc) then lost * DXWIFI_TX_PAYLOAD_SIZE else 0)
  /\ (add_noise (rx fc) = true ->
      fd fc' = fd fc
               ++ concat (map (block_for fc (first :: rest))
                              (numbers_from (frame_number first)
                                            (Z.to_nat (last_number - frame_number first + 1))))).
Proof.
  intros Ho Ht Hnum last_number lost fc'. subst last_number lost fc'.
  unfold dump_packet_buffer. cbn [set_index rx_stats fd].
  unfold heap_root, heap_count. rewrite Ht.
  pose proof (dump_loop_gaps (first :: rest) (length (first :: rest)) fc (frame_number first)
                             Ho Ht (Nat.lt_succ_diag_r _) Hnum) as H.
  cbv zeta in H. destruct H as (H0 & Hl & H1 & H2 & H3).
  assert (last (map frame_number (first :: rest)) (frame_number first - 1)
          = frame_number (last rest first)) as E.
  { clear. generalize (frame_number first - 1). revert first.
    induction rest as [|m l IH]; intros first d; [reflexivity|].
    change (last (map frame_number (first :: m :: l)) d)
      with (last (map frame_number (m :: l)) d).
    rewrite IH. destruct l as [|p l']; [reflexivity|].
    change (last (m :: p :: l') first) with (last (p :: l') first).
    now rewrite (last_default p l' m first). }
  rewrite E in *.
  replace (frame_number (last rest first) - frame_number first + 1)
    with (frame_number (last rest first) + 1 - frame_number first) by lia.
  repeat split; assumption.
Qed.

End GapFill.

(** ** The further properties on the small build *)

Section SmallCaptures.
Local Existing Instance small_build.

Lemma counters_tally_witness :
  let fs := [good_frame 1 (block x01); stranger_frame; preamble_frame;
             wrong_fcs_frame] in
  let s := rx_stats (run_frames (init_frame_controller (small_rx true false 1000) blank_node)
                                fs) in
  num_packets_processed s = count_frames (is_data_frame (small_rx true false 1000)) fs
  /\ packets_dropped s = count_frames (is_rejected (small_rx true false 1000)) fs
  /\ bad_crcs s
     = count_frames (fun f => is_data_frame (small_rx true false 1000) f && check_crc f) fs
  /\ total_caplen s = sum_caplen (filter (is_data_frame (small_rx true false 1000)) fs).
Proof.
  apply (counters_tally (small_rx true false 1000) blank_node
                        [good_frame 1 (block x01); stranger_frame; preamble_frame;
                         wrong_fcs_frame]).
  - simpl. lia.
  - repeat constructor; unfold sane_frame; simpl; lia.
Defined.

Lemma heap_fits_buffer_witness :
  Z.of_nat (heap_count
              (packet_heap
                 (run_frames (init_frame_controller (small_rx true false 40) blank_node)
                             [good_frame 0 (block x00); good_frame 1 (block x01);
                              good_frame 2 (block x02)])))
  <= packet_buffer_size (small_rx true false 40) / DXWIFI_TX_PAYLOAD_SIZE.
Proof.
  apply (heap_fits_buffer (small_rx true false 40) blank_node
                          [good_frame 0 (block x00); good_frame 1 (block x01);
                           good_frame 2 (block x02)]).
  - unfold sane_sizes. simpl. lia.
  - repeat constructor; unfold sane_frame; simpl; lia.
Defined.


Lemma end_capture_needs_preamble_after_data_witness :
  let fc := run_frames (init_frame_controller (small_rx true false 1000) blank_node)
                       [preamble_frame; good_frame 0 (block x00); preamble_frame] in
  preamble_recv fc = true /\ 0 < num_packets_processed (rx_stats fc).
Proof.
  apply (end_capture_needs_preamble_after_data
           (small_rx true false 1000) blank_node
           [preamble_frame; good_frame 0 (block x00); preamble_frame]).
  vm_compute. reflexivity.
Defined.

Lemma timeout_ends_capture_witness :
  exists fc,
    receiver_activate_capture (small_rx true false 1000) blank_node
      [PollReady [good_frame 0 (block x00)] 1 false; PollError false; PollTimeout]
    = Some fc.
Proof.
  apply (timeout_ends_capture (small_rx true false 1000) blank_node
           [PollReady [good_frame 0 (block x00)] 1 false; PollError false; PollTimeout]).
  right. right. left. reflexivity.
Defined.

Lemma capture_state_never_back_to_normal_witness :
  let fc := with_state (init_frame_controller (small_rx true false 1000) blank_node)
                       DXWIFI_RX_ERROR in
  capture_state (rx_stats (dump_packet_buffer (run_frames fc [stranger_frame])))
  <> DXWIFI_RX_NORMAL.
Proof.
  refine (capture_state_never_back_to_normal
            [PollReady [stranger_frame] 1 true] true
            (with_state (init_frame_controller (small_rx true false 1000) blank_node)
                        DXWIFI_RX_ERROR)
            (run_frames
               (with_state (init_frame_controller (small_rx true false 1000) blank_node)
                           DXWIFI_RX_ERROR)
               [stranger_frame]) _ _).
  - reflexivity.
  - simpl. discriminate.
Defined.

Lemma zero_distance_drops_all_witness :
  let r := {| packet_buffer_size := 1000; max_hamming_dist := 0; ordered := true;
              add_noise := false; noise_value := xff; sender_addr := oresat_addr |} in
  let fc := init_frame_controller r blank_node in
  let fs := [good_frame 0 (block x00); preamble_frame; eot_control_frame] in
  same_staging fc (run_frames fc fs)
  /\ eot_reached (run_frames fc fs) = eot_reached fc
  /\ preamble_recv (run_frames fc fs) = preamble_recv fc
  /\ end_capture (run_frames fc fs) = end_capture fc
  /\ num_packets_processed (rx_stats (run_frames fc fs)) = num_packets_processed (rx_stats fc)
  /\ packets_dropped (rx_stats (run_frames fc fs))
     = packets_dropped (rx_stats fc) + Z.of_nat (length fs).
Proof.
  apply (zero_distance_drops_all
           (init_frame_controller
              {| packet_buffer_size := 1000; max_hamming_dist := 0; ordered := true;
                 add_noise := false; noise_value := xff; sender_addr := oresat_addr |}
              blank_node)
           [good_frame 0 (block x00); preamble_frame; eot_control_frame]).
  reflexivity.
Defined.

(** With blocks of 16 bytes and control frames of 8 the counted window is
    wide enough: a control frame whose 16 counted bytes all hold the sentinel
    is recognised.  With control frames of 32 bytes it is not: a control
    frame made of the sentinel alone is classified as UNKNOWN. *)
Lemma control_frames_need_wide_window_witness :
  @check_frame_control small_build (sentinel_frame xaa 8 16) check_threshold_066
  = DXWIFI_CONTROL_FRAME_EOT
  /\ @check_frame_control small_build (sentinel_frame xff 8 16) check_threshold_066
     = DXWIFI_CONTROL_FRAME_PREAMBLE
  /\ @check_frame_control long_control_build (sentinel_frame xaa 32 32) check_threshold_066
     = DXWIFI_CONTROL_FRAME_UNKNOWN
  /\ @check_frame_control long_control_build (sentinel_frame xff 32 32) check_threshold_066
     = DXWIFI_CONTROL_FRAME_UNKNOWN
  /\ @check_frame_control long_control_build (sentinel_frame xaa 32 32) check_threshold_066
     <> DXWIFI_CONTROL_FRAME_EOT
  /\ @check_frame_control long_control_build (sentinel_frame xff 32 32) check_threshold_066
     <> DXWIFI_CONTROL_FRAME_PREAMBLE.
Proof.
  pose proof (@control_frames_need_wide_window small_build (sentinel_frame xaa 8 16)
                ltac:(simpl; lia) ltac:(simpl; lia) ltac:(simpl; discriminate)) as He.
  pose proof (@control_frames_need_wide_window small_build (sentinel_frame xff 8 16)
                ltac:(simpl; lia) ltac:(simpl; lia) ltac:(simpl; discriminate)) as Hp.
  pose proof (@control_frames_need_wide_window long_control_build (sentinel_frame xaa 32 32)
                ltac:(simpl; lia) ltac:(simpl; lia) ltac:(simpl; discriminate)) as Le.
  pose proof (@control_frames_need_wide_window long_control_build (sentinel_frame xff 32 32)
                ltac:(simpl; lia) ltac:(simpl; lia) ltac:(simpl; discriminate)) as Lp.
  cbv zeta in He, Hp, Le, Lp.
  destruct He as (_ & He & _). destruct Hp as (_ & _ & Hp).
  destruct Le as (Le1 & Le2 & _). destruct Lp as (Lp1 & _ & Lp2).
  assert (@payload small_build (sentinel_frame xaa 8 16) = repeat xaa 16) as Ea
      by (vm_compute; reflexivity).
  assert (@payload small_build (sentinel_frame xff 8 16) = repeat xff 16) as Ef
      by (vm_compute; reflexivity).
  assert (@payload long_control_build (sentinel_frame xaa 32 32) = repeat xaa 16) as La
      by (vm_compute; reflexivity).
  assert (@payload long_control_build (sentinel_frame xff 32 32) = repeat xff 16) as Lf
      by (vm_compute; reflexivity).
  rewrite Ea in He. rewrite Ef in Hp. rewrite La in Le2. rewrite Lf in Lp2.
  split; [exact (He ltac:(vm_compute; reflexivity) ltac:(simpl; repeat constructor))|].
  split; [exact (Hp ltac:(vm_compute; reflexivity) ltac:(simpl; repeat constructor))|].
  split; [exact (Le2 ltac:(vm_compute; reflexivity) ltac:(simpl; repeat constructor))|].
  split; [exact (Lp2 ltac:(vm_compute; reflexivity) ltac:(simpl; repeat constructor))|].
  split; [exact (proj1 (Le1 ltac:(vm_compute; reflexivity)))
         |exact (proj2 (Lp1 ltac:(vm_compute; reflexivity)))].
Defined.

Lemma data_frame_always_staged_witness :
  let fc := init_frame_controller (small_rx true false 1000) blank_node in
  let fc' := process_frame fc (good_frame 7 (block x07)) in
  num_packets_processed (rx_stats fc') = num_packets_processed (rx_stats fc) + 1
  /\ total_caplen (rx_stats fc')
     = total_caplen (rx_stats fc) + caplen (good_frame 7 (block x07))
  /\ total_payload_size (rx_stats fc')
     = total_payload_size (rx_stats fc) + DXWIFI_TX_PAYLOAD_SIZE
  /\ heap_count (packet_heap fc')
     = S (if pb_size fc <=? wrap 64 (index fc + DXWIFI_TX_PAYLOAD_SIZE)
          then O else heap_count (packet_heap fc)).
Proof.
  apply (data_frame_always_staged
           (init_frame_controller (small_rx true false 1000) blank_node)
           (good_frame 7 (block x07))).
  - simpl. lia.
  - unfold sane_frame. simpl. lia.
  - vm_compute. reflexivity.
  - vm_compute. reflexivity.
Defined.

Lemma data_frame_fields_in_bounds_witness :
  0 <= mac_hdr_off (good_frame 7 (block x07))
  /\ mac_hdr_off (good_frame 7 (block x07)) + sizeof_ieee80211_hdr
     = payload_off (good_frame 7 (block x07))
  /\ payload_off (good_frame 7 (block x07)) + DXWIFI_TX_PAYLOAD_SIZE
     = fcs_off (good_frame 7 (block x07))
  /\ fcs_off (good_frame 7 (block x07)) <= caplen (good_frame 7 (block x07))
  /\ (fcs_off (good_frame 7 (block x07)) < caplen (good_frame 7 (block x07))
      <-> DXWIFI_TESTS = false).
Proof.
  apply (data_frame_fields_in_bounds (good_frame 7 (block x07))).
  - simpl. lia.
  - unfold sane_frame. simpl. lia.
  - vm_compute. reflexivity.
Defined.


Lemma gaps_filled_with_noise_witness :
  let fc := run_frames (init_frame_controller (small_rx true true 1000) blank_node)
                       [good_frame 6 (block x06); good_frame 3 (block x03);
                        good_frame 5 (block x05)] in
  let first := heap_root (packet_heap fc) in
  let rest := tl (tree (packet_heap fc)) in
  let last_number := frame_number (last rest first) in
  let lost := last_number - frame_number first + 1 - Z.of_nat (length (first :: rest)) in
  let fc' := dump_packet_buffer fc in
  0 <= lost
  /\ total_blocks_lost (rx_stats fc') = total_blocks_lost (rx_stats fc) + lost
  /\ total_noise_added (rx_stats fc')
     = total_noise_added (rx_stats fc)
       + (if add_noise (rx fc) then lost * DXWIFI_TX_PAYLOAD_SIZE else 0)
  /\ (add_noise (rx fc) = true ->
      fd fc' = fd fc
               ++ concat (map (block_for fc (first :: rest))
                              (numbers_from (frame_number first)
                                            (Z.to_nat (last_number - frame_number first + 1))))).
Proof.
  apply (gaps_filled_with_noise
           (run_frames (init_frame_controller (small_rx true true 1000) blank_node)
                       [good_frame 6 (block x06); good_frame 3 (block x03);
                        good_frame 5 (block x05)])).
  - vm_compute. reflexivity.
  - vm_compute. reflexivity.
  - match goal with
    | |- numbered_from ?e ?l =>
        let e' := eval vm_compute in e in
        let l' := eval vm_compute in l in
        replace e with e' by (vm_compute; reflexivity);
        replace l with l' by (vm_compute; reflexivity)
    end.
    split; repeat constructor; cbn; lia.
Defined.

(** Frames 3, 5 and 6 of a transmission, received out of order, with noise
    for the missing frame 4. *)
Example noise_for_missing_frame :
  let fc := small_capture (small_rx true true 1000)
                          [good_frame 6 (block x06); good_frame 3 (block x03);
                           good_frame 5 (block x05)] in
  fd fc = block x03 ++ block xff ++ block x05 ++ block x06
  /\ total_blocks_lost (rx_stats fc) = 1 /\ total_noise_added (rx_stats fc) = 16.
Proof. vm_compute. repeat split. Qed.

(** The same frames in unordered mode: arrival order, no noise. *)
Example unordered_arrival :
  let fc := small_capture (small_rx false true 1000)
                          [good_frame 6 (block x06); good_frame 3 (block x03);
                           good_frame 5 (block x05)] in
  fd fc = block x06 ++ block x03 ++ block x05
  /\ total_blocks_lost (rx_stats fc) = 0 /\ total_noise_added (rx_stats fc) = 0.
Proof. vm_compute. repeat split. Qed.

End SmallCaptures.
